(** * Squamish-Weatherman: the HRDPS wind and temperature report

    A shallow embedding of the two variants of the report script,
    [fetch_hrdps_squamish_insecure.py] (the yellow-only variant, called V1
    below) and [fetch_hrdps_squamish_insecure2.py] (the variant with the
    marine section, compass points and two thermal colours, called V2),
    together with the properties their specification states.

    Conventions of the embedding:
    - Python [float]s that are only compared, subtracted and squared
      (grid coordinates, temperatures) are exact rationals [Q];
    - the wind direction needs [atan2] and [hypot], so it lives in [R];
    - Python [str] is [string], a sequence of code points below 256;
    - a [dict] keyed by labels is a [gmap string _];
    - exceptions are an explicit error value, the file system and the
      network are explicit state and oracles. *)

From Stdlib Require Import ZArith QArith Reals Lra Lia List Ascii String Bool.
From Stdlib Require Import DecimalString DecimalN.
From Stdlib Require Lqa.
From stdpp Require Import gmap strings list fin_maps infinite.
From Equations Require Import Equations.

Import ListNotations.
Local Open Scope string_scope.

(** ** Python helpers shared by the modules *)

Module Py.

(** [seq[i]] on a Python list: negative indices count from the end, an
    index outside [-len, len) raises [IndexError] ([None]). *)
Definition index {A : Type} (l : list A) (i : Z) : option A :=
  let n := Z.of_nat (length l) in
  if (0 <=? i)%Z then nth_error l (Z.to_nat i)
  else if (- n <=? i)%Z then nth_error l (Z.to_nat (n + i))
  else None.

(** *** Strings *)

Definition code (c : ascii) : N := N_of_ascii c.

(** [str.lower] on one code point below 256: the ASCII capitals and the
    Latin-1 capitals (U+00C0 to U+00DE without the multiplication sign). *)
Definition lower_char (c : ascii) : ascii :=
  let n := code c in
  if ((65 <=? n) && (n <=? 90))%N then ascii_of_N (n + 32)
  else if ((192 <=? n) && (n <=? 222) && negb (n =? 215))%N then ascii_of_N (n + 32)
  else c.

Fixpoint lower (s : string) : string :=
  match s with
  | EmptyString => EmptyString
  | String c rest => String (lower_char c) (lower rest)
  end.

(** [s.startswith(p)]. *)
Fixpoint startswith (s p : string) : bool :=
  match p, s with
  | EmptyString, _ => true
  | String a p', String b s' => Ascii.eqb a b && startswith s' p'
  | String _ _, EmptyString => false
  end.

(** [s.lower().startswith(p)] for a lower-case [p], code point by code
    point; also the test of a literal under [re.IGNORECASE]. *)
Fixpoint startswith_ci (s p : string) : bool :=
  match p, s with
  | EmptyString, _ => true
  | String a p', String b s' => Ascii.eqb a (lower_char b) && startswith_ci s' p'
  | String _ _, EmptyString => false
  end.

(** [sub in s]. *)
Fixpoint contains (s sub : string) : bool :=
  startswith s sub ||
  match s with
  | EmptyString => false
  | String _ rest => contains rest sub
  end.

(** [s.split(sep)[0]]: the text before the first [sep]. *)
Fixpoint before (s sep : string) : string :=
  if startswith s sep then EmptyString
  else match s with
       | EmptyString => EmptyString
       | String c rest => String c (before rest sep)
       end.

(** [str.isspace] on one code point below 256. *)
Definition is_space (c : ascii) : bool :=
  let n := code c in
  (((9 <=? n) && (n <=? 13)) || ((28 <=? n) && (n <=? 32))
   || (n =? 133) || (n =? 160))%N.

Fixpoint lstrip (s : string) : string :=
  match s with
  | EmptyString => EmptyString
  | String c rest => if is_space c then lstrip rest else s
  end.

Fixpoint rstrip (s : string) : string :=
  match s with
  | EmptyString => EmptyString
  | String c rest =>
      match rstrip rest with
      | EmptyString => if is_space c then EmptyString else String c EmptyString
      | r => String c r
      end
  end.

(** [s.strip()]. *)
Definition strip (s : string) : string := rstrip (lstrip s).

Fixpoint take (n : nat) (s : string) : string :=
  match n, s with
  | S k, String c rest => String c (take k rest)
  | _, _ => EmptyString
  end.

Fixpoint drop (n : nat) (s : string) : string :=
  match n, s with
  | S k, String _ rest => drop k rest
  | _, _ => s
  end.

(** [s.replace(old, new)] for a non-empty [old]: the occurrences of
    [old] from left to right, without overlap. *)
Equations? replace (s old new : string) : string by wf (String.length s) lt :=
  replace EmptyString _ _ := EmptyString;
  replace (String c rest) old new with startswith (String c rest) old => {
    | true := new +:+ replace (drop (pred (String.length old)) rest) old new
    | false := String c (replace rest old new) }.
Proof.
  all: try (simpl; lia).
  clear. generalize (pred (String.length old)) as n.
  intros n. revert rest. induction n as [|n IH]; intros [|d rest]; simpl; try lia.
  specialize (IH rest). lia.
Qed.

(** *** The pattern [(lit1.*?lit2)] under [re.IGNORECASE] *)

Definition newline : ascii := ascii_of_N 10.

(** The lazy [.*?] followed by the literal [lit2]: the least number of
    characters, none of them a newline, after which [lit2] matches. *)
Fixpoint lazy_dots (s lit2 : string) : option nat :=
  if startswith_ci s lit2 then Some 0%nat
  else match s with
       | EmptyString => None
       | String c rest =>
           if Ascii.eqb c newline then None
           else S <$> lazy_dots rest lit2
       end.

(** The length of the match of [(lit1.*?lit2)] starting at the first
    character of [s], if there is one. *)
Definition match_at (lit1 lit2 s : string) : option nat :=
  if startswith_ci s lit1 then
    k ← lazy_dots (drop (String.length lit1) s) lit2;
    Some (String.length lit1 + k + String.length lit2)%nat
  else None.

(** [re.sub(r"(lit1.*?lit2)", lambda m: opening + m.group(1) + closing,
    s, flags=re.IGNORECASE)]: the leftmost matches, without overlap. *)
Equations? re_sub (lit1 lit2 opening closing s : string) : string
    by wf (String.length s) lt :=
  re_sub _ _ _ _ EmptyString := EmptyString;
  re_sub lit1 lit2 opening closing (String c rest)
    with match_at lit1 lit2 (String c rest) => {
    | Some n := opening +:+ take n (String c rest) +:+ closing
                +:+ re_sub lit1 lit2 opening closing (drop (pred n) rest)
    | None := String c (re_sub lit1 lit2 opening closing rest) }.
Proof.
  all: try (simpl; lia).
  clear. generalize (pred n) as k.
  intros k. revert rest. induction k as [|k IH]; intros [|d rest]; simpl; try lia.
  specialize (IH rest). lia.
Qed.

(** *** Sequences *)

(** [all(s[i] < s[i+1] for i in range(len(s)-1))]. *)
Fixpoint all_adjacent_lt (s : list Q) : bool :=
  match s with
  | [] => true
  | x :: rest =>
      match rest with
      | [] => true
      | y :: _ => negb (Qle_bool y x) && all_adjacent_lt rest
      end
  end.

End Py.

(** ** The points of interest *)

Definition LOCS : list (string * Q * Q) :=
  [ ("Furry", 4957399 # 100000, - (12325493 # 100000));
    ("Brit",  4962383 # 100000, - (12323021 # 100000));
    ("7mesh", 4970100 # 100000, - (12315500 # 100000));
    ("Cheak", 4978259 # 100000, - (12317802 # 100000));
    ("Whis",  5012938 # 100000, - (12296207 # 100000));
    ("Pemb",  5031971 # 100000, - (12280706 # 100000));
    ("Lill",  5069374 # 100000, - (12193417 # 100000)) ]%Q.

Definition labels : list string := map (fun p => fst (fst p)) LOCS.

(** ** Thermal highlighting of the time field *)

Module Thermal.

(** The wrapping put around the time field: [H_GREEN], [H_YELLOW] or
    nothing. *)
Inductive emphasis := Green | Yellow | Plain.

(** [temps[k]] raises [KeyError] on a missing key: the comprehension
    [[temps[lbl] for lbl,_,_ in LOCS]] is a traversal in [option]. *)
Definition lookup_all (temps : gmap string Q) (ks : list string) : option (list Q) :=
  mapM (fun k => temps !! k) ks.

(** V2, [main]: the [if all(...)]/[else] cascade on [seq_full] and [part]. *)
Definition highlight_v2 (temps : gmap string Q) : option emphasis :=
  seq_full ← lookup_all temps labels;
  if Py.all_adjacent_lt seq_full then Some Green
  else
    part ← lookup_all temps ["Furry"; "Brit"; "7mesh"; "Whis"];
    if Py.all_adjacent_lt part then Some Yellow else Some Plain.

(** V1, [main]: the chained comparison [seq[0] < seq[1] < seq[2] < seq[3]]. *)
Definition highlight_v1 (temps : gmap string Q) : option emphasis :=
  seq ← lookup_all temps ["Furry"; "Brit"; "7mesh"; "Whis"];
  match seq with
  | [s0; s1; s2; s3] =>
      if negb (Qle_bool s1 s0) && negb (Qle_bool s2 s1) && negb (Qle_bool s3 s2)
      then Some Yellow else Some Plain
  | _ => None
  end.

End Thermal.

(** ** Gridded fields and nearest-cell sampling *)

Module Grid.

(** A two-dimensional numpy array: its shape [(ny, nx)] and its buffer in
    C (row-major) order. *)
Record ndarray := { shape : nat * nat; data : list Q }.

Definition wf (a : ndarray) : Prop :=
  length (data a) = (fst (shape a) * snd (shape a))%nat.

(** [a - c] and [a ** 2], elementwise. *)
Definition sub_scalar (a : ndarray) (c : Q) : ndarray :=
  {| shape := shape a; data := map (fun x => (x - c)%Q) (data a) |}.

Definition square (a : ndarray) : ndarray :=
  {| shape := shape a; data := map (fun x => (x ^ 2)%Q) (data a) |}.

Definition shape_eqb (s t : nat * nat) : bool :=
  Nat.eqb (fst s) (fst t) && Nat.eqb (snd s) (snd t).

(** [a + b], elementwise; operands of different shapes raise (the
    broadcasting of numpy is not needed: both operands come from one
    [latlons()] call). *)
Definition add (a b : ndarray) : option ndarray :=
  if shape_eqb (shape a) (shape b)
  then Some {| shape := shape a;
               data := zip_with Qplus (data a) (data b) |}
  else None.

(** The scan of [argmin]: [best] is the smallest value seen so far, at
    index [besti]; a later cell replaces it only when strictly smaller. *)
Fixpoint argmin_from (best : Q) (besti i : nat) (l : list Q) : nat :=
  match l with
  | [] => besti
  | x :: rest =>
      if negb (Qle_bool best x) then argmin_from x i (S i) rest
      else argmin_from best besti (S i) rest
  end.

(** [a.argmin()]: the flat index of the first minimum; an empty array
    raises [ValueError]. *)
Definition argmin (a : ndarray) : option nat :=
  match data a with
  | [] => None
  | x :: rest => Some (argmin_from x 0 1 rest)
  end.

(** [np.unravel_index(i, shape)]. *)
Definition unravel_index (i : nat) (s : nat * nat) : option (nat * nat) :=
  if (i <? fst s * snd s)%nat then Some ((i / snd s)%nat, (i mod snd s)%nat)
  else None.

(** [a[iy, ix]] for non-negative indices; out of bounds raises
    [IndexError]. *)
Definition getitem (a : ndarray) (iy ix : nat) : option Q :=
  if (iy <? fst (shape a))%nat && (ix <? snd (shape a))%nat
  then data a !! (iy * snd (shape a) + ix)%nat
  else None.

(** The two lines every sampling site repeats:
    [d2 = (lats - lat0)**2 + (lons - lon0)**2] and
    [iy, ix = np.unravel_index(d2.argmin(), d2.shape)]. *)
Definition dist2 (lats lons : ndarray) (lat0 lon0 : Q) : option ndarray :=
  add (square (sub_scalar lats lat0)) (square (sub_scalar lons lon0)).

Definition nearest_index (lats lons : ndarray) (lat0 lon0 : Q) : option (nat * nat) :=
  d2 ← dist2 lats lons lat0 lon0;
  flat ← argmin d2;
  unravel_index flat (shape d2).

(** A GRIB message: the field and the coordinate arrays of [latlons()]. *)
Record message := { name : string; values : ndarray; lats : ndarray; lons : ndarray }.

(** [f.select(name=n)[0]]: the first message of that name; none raises. *)
Definition select (file : list message) (n : string) : option message :=
  head (filter (fun m => name m = n) file).

(** The sampled value of one message at one target:
    [vals[iy, ix]] at the nearest index. *)
Definition nearest (m : message) (lat0 lon0 : Q) : option Q :=
  '(iy, ix) ← nearest_index (lats m) (lons m) lat0 lon0;
  getitem (values m) iy ix.

Definition SQUAMISH_LAT : Q := 4970100 # 100000.
Definition SQUAMISH_LON : Q := - (12315500 # 100000).

(** [extract_wind]: the index comes from the U message and is reused on
    the V message. *)
Definition extract_wind (ufile vfile : list message) : option (Q * Q) :=
  mu ← select ufile "10 metre U wind component";
  '(iy, ix) ← nearest_index (lats mu) (lons mu) SQUAMISH_LAT SQUAMISH_LON;
  u ← getitem (values mu) iy ix;
  mv ← select vfile "10 metre V wind component";
  v ← getitem (values mv) iy ix;
  Some (u, v).

(** The body of the loop of [extract_temps]. *)
Definition extract_temps_step (mt : message) (temps : gmap string Q)
    (loc : string * Q * Q) : option (gmap string Q) :=
  let '(label, lat0, lon0) := loc in
  t ← nearest mt lat0 lon0;
  Some (<[label := (t - (27315 # 100))%Q]> temps).

(** [extract_temps]: one entry per point of interest, in Celsius. *)
Definition extract_temps (tfile : list message) : option (gmap string Q) :=
  mt ← select tfile "2 metre temperature";
  foldl (fun acc loc => temps ← acc; extract_temps_step mt temps loc)
        (Some ∅) LOCS.

End Grid.

(** ** Model runs, resource locators and run selection *)

Module Run.

(** An aware UTC [datetime]: the proleptic Gregorian ordinal of its date
    and its time of day. The clock is far from the ends of the range of
    [datetime], which are not modelled. *)
Record datetime := {
  day : Z; hour : Z; minute : Z; second : Z; microsecond : Z }.

(** [dt.replace(hour=h, minute=0, second=0, microsecond=0)]. *)
Definition replace_hour (dt : datetime) (h : Z) : datetime :=
  {| day := day dt; hour := h; minute := 0; second := 0; microsecond := 0 |}.

Definition to_seconds (dt : datetime) : Z :=
  day dt * 86400 + hour dt * 3600 + minute dt * 60 + second dt.

Definition of_seconds (t us : Z) : datetime :=
  {| day := t / 86400;
     hour := (t mod 86400) / 3600;
     minute := (t mod 3600) / 60;
     second := t mod 60;
     microsecond := us |}.

(** [dt - datetime.timedelta(hours=h)]. *)
Definition sub_hours (dt : datetime) (h : Z) : datetime :=
  of_seconds (to_seconds dt - h * 3600) (microsecond dt).

(** [f"{fh:03d}"]: decimal, zero-filled to three characters, the sign
    included in the width. *)
Definition fmt_03d (fh : Z) : string :=
  let digits := NilZero.string_of_uint (N.to_uint (Z.abs_N fh)) in
  let sign := if (fh <? 0)%Z then "-" else "" in
  let fill := (3 - String.length sign - String.length digits)%nat in
  sign +:+ String.concat "" (replicate fill "0") +:+ digits.

Definition BASE_URL : string :=
  "https://dd.alpha.weather.gc.ca/model_hrdps/west/1km/grib2".
Definition RESOLUTION : string := "rotated_latlon0.009x0.009".

(** The outcome of [requests.head(url, ...)]: an exception or a response
    with a status code. *)
Inductive head_result := HeadRaises | HeadStatus (code : Z).

Section Selection.

(** [datetime.strftime] of the library. *)
Variable strftime : datetime -> string -> string.

(** The servers, as seen by [requests.head]. *)
Variable head : string -> head_result.

(** [grib_urls]: the U, V and temperature resources of a run and a
    forecast hour. *)
Definition grib_urls (run_dt : datetime) (fh : Z) : string * string * string :=
  let hh := strftime run_dt "%H" in
  let ds := strftime run_dt "%Y%m%dT%HZ" in
  let fh3 := fmt_03d fh in
  let base := BASE_URL +:+ "/" +:+ hh +:+ "/" +:+ fh3 in
  let tail := "_" +:+ RESOLUTION +:+ "_" +:+ ds +:+ "_P" +:+ fh3 +:+ "-00.grib2" in
  (base +:+ "/CMC_hrdps_west_UGRD_TGL_10" +:+ tail,
   base +:+ "/CMC_hrdps_west_VGRD_TGL_10" +:+ tail,
   base +:+ "/CMC_hrdps_west_TMP_TGL_2" +:+ tail).

(** The run formed before the probe. *)
Definition candidate (now : datetime) : datetime :=
  let h := if (12 <=? hour now)%Z then 12%Z else 0%Z in
  replace_hour now h.

(** [find_best_run], returning the selected run and the list of the
    locators it probed, in order. The bare [except:] turns every
    exception of the probe into the fallback. *)
Definition find_best_run (now : datetime) : datetime * list string :=
  let run := candidate now in
  let '(uurl, _, _) := grib_urls run 0 in
  match head uurl with
  | HeadStatus code =>
      if negb (code =? 200)%Z then (sub_hours run 12, [uurl])
      else (run, [uurl])
  | HeadRaises => (sub_hours run 12, [uurl])
  end.

End Selection.

End Run.

(** ** One forecast hour: downloads, extraction and temporary files *)

Module Hour.

Inductive exn :=
| RuntimeError | RequestException | ValueError
| UnboundLocalError | FileNotFoundError.

Inductive result (A : Type) := Ok (a : A) | Raise (e : exn).
Arguments Ok {A} a.
Arguments Raise {A} e.

(** The state a forecast hour runs in: the files on disk with their
    decoded content, and the local variables [uf], [vf], [tf] of [main],
    which keep their binding from one iteration of the loop to the next. *)
Record state := {
  files : gmap string (list Grid.message);
  uf : option string; vf : option string; tf : option string }.

Definition M (A : Type) : Type := state -> result A * state.

#[global] Instance M_ret : MRet M := fun A a s => (Ok a, s).
#[global] Instance M_bind : MBind M := fun A B f m s =>
  match m s with
  | (Ok a, s') => f a s'
  | (Raise e, s') => (Raise e, s')
  end.

Definition raise {A} (e : exn) : M A := fun s => (Raise e, s).

(** [try: body finally: cleanup]: the cleanup runs on every exit of the
    body; an exception of the cleanup replaces the outcome of the body. *)
Definition finally {A} (body : M A) (cleanup : M unit) : M A := fun s =>
  let '(r, s1) := body s in
  match cleanup s1 with
  | (Ok _, s2) => (r, s2)
  | (Raise e, s2) => (Raise e, s2)
  end.

(** [for x in l: body(x)]. *)
Fixpoint for_each {A} (l : list A) (body : A -> M unit) : M unit :=
  match l with
  | [] => mret tt
  | x :: rest => _ ← body x; for_each rest body
  end.

Definition with_files (f : gmap string (list Grid.message) -> gmap string (list Grid.message))
    (s : state) : state :=
  {| files := f (files s); uf := uf s; vf := vf s; tf := tf s |}.

(** Reading a local variable that was never assigned raises. *)
Definition var (x : state -> option string) : M string := fun s =>
  match x s with
  | Some v => (Ok v, s)
  | None => (Raise UnboundLocalError, s)
  end.

Definition set_uf (v : string) : M unit := fun s =>
  (Ok tt, {| files := files s; uf := Some v; vf := vf s; tf := tf s |}).
Definition set_vf (v : string) : M unit := fun s =>
  (Ok tt, {| files := files s; uf := uf s; vf := Some v; tf := tf s |}).
Definition set_tf (v : string) : M unit := fun s =>
  (Ok tt, {| files := files s; uf := uf s; vf := vf s; tf := Some v |}).

(** [os.path.exists] and [os.remove]. *)
Definition exists_ (p : string) : M bool := fun s =>
  (Ok (bool_decide (p ∈ dom (files s))), s).

Definition remove (p : string) : M unit := fun s =>
  if bool_decide (p ∈ dom (files s)) then (Ok tt, with_files (delete p) s)
  else (Raise FileNotFoundError, s).

(** [pygrib.open(path)]. *)
Definition open (p : string) : M (list Grid.message) := fun s =>
  match files s !! p with
  | Some c => (Ok c, s)
  | None => (Raise FileNotFoundError, s)
  end.

Definition lift {A} (o : option A) : M A :=
  match o with Some a => mret a | None => raise ValueError end.

Definition extract_wind (ufile vfile : string) : M (Q * Q) :=
  cu ← open ufile; cv ← open vfile; lift (Grid.extract_wind cu cv).

Definition extract_temps (tfile : string) : M (gmap string Q) :=
  ct ← open tfile; lift (Grid.extract_temps ct).

(** What [requests.get(url, stream=True, ...)] meets: an exception
    before any response, or a response whose body arrives whole or
    breaks off while it is read. *)
Inductive body := Complete (c : list Grid.message) | Broken.
Inductive get_result := GetRaises | GetResponse (code : Z) (b : body).

Section Iteration.

Variable get : string -> get_result.

(** [download]: the temporary file is created (under a name not yet
    in use) once the status is known to be 200, then filled. *)
Definition download (url : string) : M string := fun s =>
  match get url with
  | GetRaises => (Raise RequestException, s)
  | GetResponse code b =>
      if negb (code =? 200)%Z then (Raise RuntimeError, s)
      else
        let tmp := fresh (dom (files s)) in
        match b with
        | Broken => (Raise RequestException, with_files (insert tmp []) s)
        | Complete c => (Ok tmp, with_files (insert tmp c) s)
        end
  end.

(** V2, the download-and-extract part of one iteration of [main]. *)
Definition fetch_hour_v2 (urls : string * string * string)
    : M (Q * Q * gmap string Q) :=
  let '(uurl, vurl, turl) := urls in
  a ← download uurl; b ← download vurl; c ← download turl;
  _ ← set_uf a; _ ← set_vf b; _ ← set_tf c;
  finally
    (ufn ← var uf; vfn ← var vf; w ← extract_wind ufn vfn;
     tfn ← var tf; temps ← extract_temps tfn;
     mret (w, temps))
    (a ← var uf; b ← var vf; c ← var tf;
     for_each [a; b; c] remove).

(** V1, the same part: the downloads are inside the [try]. *)
Definition fetch_hour_v1 (urls : string * string * string)
    : M (Q * Q * gmap string Q) :=
  finally
    (let '(uurl, vurl, turl) := urls in
     a ← download uurl; _ ← set_uf a;
     b ← download vurl; _ ← set_vf b;
     c ← download turl; _ ← set_tf c;
     ufn ← var uf; vfn ← var vf; w ← extract_wind ufn vfn;
     tfn ← var tf; temps ← extract_temps tfn;
     mret (w, temps))
    (a ← var uf; b ← var vf; c ← var tf;
     for_each [a; b; c]
       (fun f => e ← exists_ f; if e : bool then remove f else mret tt)).

End Iteration.

End Hour.

(** ** Wind speed, direction and compass points *)

Module Wind.

Local Open Scope R_scope.

(** [np.arctan2(y, x)], the angle of the point [(x, y)] in [(-PI, PI]]. *)
Definition arctan2 (y x : R) : R :=
  if Rlt_dec 0 x then atan (y / x)
  else if Rlt_dec x 0 then
    (if Rle_dec 0 y then atan (y / x) + PI else atan (y / x) - PI)
  else if Rlt_dec 0 y then PI / 2
  else if Rlt_dec y 0 then - (PI / 2)
  else 0.

(** [np.degrees]. *)
Definition degrees (r : R) : R := r * 180 / PI.

(** [a % b] on floats: the remainder has the sign of the divisor. *)
Definition fmod (a b : R) : R := a - b * IZR (Zfloor (a / b)).

(** [dir_met], in both variants. *)
Definition dir_met (u v : R) : R :=
  fmod (degrees (arctan2 (- u) (- v)) + 360) 360.

(** [np.hypot(u, v) * 1.94384], the speed column of [main]. *)
Definition hypot (u v : R) : R := sqrt (u * u + v * v).
Definition speed_kt (u v : R) : R := hypot u v * 1.94384.

(** [int(x)] on a float: truncation toward zero. *)
Definition int (x : R) : Z := if Rle_dec 0 x then Zfloor x else Zceil x.

Definition COMPASS_POINTS : list string :=
  ["N"; "NNE"; "NE"; "ENE"; "E"; "ESE"; "SE"; "SSE";
   "S"; "SSW"; "SW"; "WSW"; "W"; "WNW"; "NW"; "NNW"]%string.

Definition compass_idx (deg : R) : Z := (int ((deg + 11.25) / 22.5) mod 16)%Z.

(** V2, [deg_to_compass]. *)
Definition deg_to_compass (deg : R) : option string :=
  Py.index COMPASS_POINTS (compass_idx deg).

(** The direction column of V2: [deg_to_compass(dir_met(u, v))]. *)
Definition dir_str (u v : R) : option string := deg_to_compass (dir_met u v).
End Wind.

(** ** The marine forecast section (V2) *)

Module Marine.

Definition ESC : string := String (ascii_of_N 27) "".
Definition LF : string := String Py.newline "".

Definition H_RED : string := ESC +:+ "[91m".
Definition H_GREEN : string := ESC +:+ "[92m".
Definition H_BLUE : string := ESC +:+ "[94m".
Definition H_RESET : string := ESC +:+ "[0m".

(** The three substitutions of [display_marine_forecasts], in the order
    of the source: each works on the text the previous one returned. *)
Definition highlight_warning (text : string) : string :=
  Py.replace text "STRONG WIND WARNING IN EFFECT"
    (H_RED +:+ "STRONG WIND WARNING IN EFFECT" +:+ H_RESET).

Definition highlight_inflow (text : string) : string :=
  Py.re_sub "inflow" "northern sections" H_GREEN H_RESET text.

Definition highlight_outflow (text : string) : string :=
  Py.re_sub "outflow" "southern sections" H_BLUE H_RESET text.

Definition highlight (text : string) : string :=
  highlight_outflow (highlight_inflow (highlight_warning text)).

(** The result of [entry.find(tag, ns)]: no such child, or an element
    with its [.text]. *)
Inductive child := Absent | Elem (text : option string).

(** An [atom:entry] of the feed, reduced to the children the parser
    reads. *)
Record entry := { title : child; summary : child; published : child }.

(** What [requests.get(rss_url)] and [ET.fromstring] meet: an exception
    of the transport, or a response with its status and, when its body
    parses, the entries [root.findall('.//atom:entry', ns)] yields. *)
Inductive feed := GetRaises | Response (status : Z) (doc : option (list entry)).

Inductive exn := RequestException | HTTPError | ParseError | AttributeError.

(** The dictionaries appended to [forecasts]. *)
Record forecast := { Title : string; Forecast : string; Published : string }.

(** [e.find(tag, ns).text or '']: the attribute access raises on an
    absent child. *)
Definition text_or_empty (c : child) : exn + string :=
  match c with
  | Absent => inl AttributeError
  | Elem None => inr ""
  | Elem (Some t) => inr t
  end.

Section Parser.

(** [datetime.strptime] and [datetime.strftime] of the library. *)
Variable strptime : string -> string -> option Run.datetime.
Variable strftime : Run.datetime -> string -> string.

(** [str(e)] in the error line. *)
Variable exn_str : exn -> string.

(** The inner [try]/[except] around the reformatting of the
    publication time. *)
Definition format_published (published : string) : string :=
  match strptime published "%Y-%m-%dT%H:%M:%SZ" with
  | Some dt => strftime dt "%Y-%m-%d %H:%M"
  | None => published
  end.

(** The loop over the entries, [forecasts] being the list built so
    far. *)
Fixpoint parse_entries (region_filter : string) (entries : list entry)
    (forecasts : list forecast) : exn + list forecast :=
  match entries with
  | [] => inr forecasts
  | e :: rest =>
      match text_or_empty (title e) with
      | inl x => inl x
      | inr t =>
          if Py.startswith (Py.lower t) "extended forecast"
          then parse_entries region_filter rest forecasts
          else if Py.contains t region_filter then
            match text_or_empty (summary e) with
            | inl x => inl x
            | inr s =>
                match text_or_empty (published e) with
                | inl x => inl x
                | inr p =>
                    let pub := format_published p in
                    let forecast_text := Py.strip (Py.before s "<br/>") in
                    parse_entries region_filter rest
                      (forecasts ++ [{| Title := t; Forecast := forecast_text;
                                        Published := pub |}])
                end
            end
          else parse_entries region_filter rest forecasts
      end
  end.

(** The body of the outer [try] of [get_marine_forecast];
    [raise_for_status] raises on the statuses 400 to 599. *)
Definition get_marine_forecast_body (f : feed) (region_filter : string)
    : exn + list forecast :=
  match f with
  | GetRaises => inl RequestException
  | Response status doc =>
      if ((400 <=? status) && (status <? 600))%Z then inl HTTPError
      else match doc with
           | None => inl ParseError
           | Some entries => parse_entries region_filter entries []
           end
  end.

(** [get_marine_forecast]: the forecasts returned and the lines
    printed. *)
Definition get_marine_forecast (f : feed) (region_filter : string)
    : list forecast * list string :=
  match get_marine_forecast_body f region_filter with
  | inr forecasts => (forecasts, [])
  | inl e => ([], ["Error retrieving marine forecast: " +:+ exn_str e])
  end.

Definition rule (c : string) : string := String.concat "" (replicate 75 c).

Definition display_entry (fc : forecast) : list string :=
  [ LF +:+ Title fc; rule "-";
    "Forecast: " +:+ highlight (Forecast fc);
    "Published: " +:+ Published fc ].

(** [display_marine_forecasts]: the lines it prints, one per call of
    [print]. *)
Definition display_marine_forecasts (f : feed) : list string :=
  let '(entries, printed) := get_marine_forecast f "Howe Sound" in
  [ LF +:+ "Forecast for Today, Tonight and Sunday - Howe Sound"; rule "=" ]
  ++ printed
  ++ match entries with
     | [] => [ "No marine forecasts available for Howe Sound." +:+ LF ]
     | _ => concat (map display_entry entries)
     end.

(** [main] of V2 as far as the marine section is concerned: the
    section is printed first, then [table], the rest of [main], runs. *)
Definition main {A : Type} (f : feed) (table : list string * A) : list string * A :=
  let marine := display_marine_forecasts f in
  ((marine ++ fst table)%list, snd table).

End Parser.

End Marine.

(** ** The report table: forecast hours, header and rows *)

Module Report.

(** [range(start, stop, step)] as a list: a zero step raises
    [ValueError]. *)
Definition range (start stop step : Z) : option (list Z) :=
  if (step =? 0)%Z then None
  else
    let n :=
      if (0 <? step)%Z
      then (if (start <? stop)%Z then (stop - start - 1) / step + 1 else 0)%Z
      else (if (stop <? start)%Z then (start - stop - 1) / (- step) + 1 else 0)%Z in
    Some (map (fun i => (start + Z.of_nat i * step)%Z) (seq 0 (Z.to_nat n))).

(** [main]: [hours = range(args.start, args.end+1, args.step)]. *)
Definition hours (start end_ step : Z) : option (list Z) :=
  range start (end_ + 1) step.

Definition W_TIME : nat := 10.
Definition W_SPEED : nat := 7.
Definition W_DIR : nat := 6.
Definition W_TEMP : nat := 7.

Definition H_GREEN : string := Marine.H_GREEN.
Definition H_YELLOW : string := Marine.ESC +:+ "[93m".
Definition H_RESET : string := Marine.H_RESET.

Definition spaces (n : nat) : string := String.concat "" (replicate n " ").

(** [s.ljust(w)] and [s.rjust(w)], also the alignments [<w] and [>w] of a
    format field: a string of [w] characters or more is left as it is. *)
Definition ljust (w : nat) (s : string) : string := s +:+ spaces (w - String.length s).
Definition rjust (w : nat) (s : string) : string := spaces (w - String.length s) +:+ s.

(** The header line of the table. *)
Definition hdr : string :=
  foldl (fun h lbl => h +:+ " " +:+ rjust W_TEMP lbl)
        (ljust W_TIME "Time" +:+ " " +:+ rjust W_SPEED "Spd(kt)" +:+ " "
         +:+ rjust W_DIR "Dir")
        labels.

(** The rule under the header and after the rows of 20:00:
    ["-" * len(hdr)]. *)
Definition separator : string :=
  String.concat "" (replicate (String.length hdr) "-").

(** The time field of a row: [ts_plain.ljust(W_TIME)], wrapped in the
    colour of the emphasis. *)
Definition time_field (e : Thermal.emphasis) (ts_plain : string) : string :=
  let ts := ljust W_TIME ts_plain in
  match e with
  | Thermal.Green => H_GREEN +:+ ts +:+ H_RESET
  | Thermal.Yellow => H_YELLOW +:+ ts +:+ H_RESET
  | Thermal.Plain => ts
  end.

Section Rows.

(** The conversions [.1f] and [.0f] of a float to text. *)
Variable fmt1 : R -> string.
Variable fmt0 : R -> string.

Definition temp_cells (row : string) (cells : list Q) : string :=
  foldl (fun r t => r +:+ " " +:+ rjust W_TEMP (fmt1 (Q2R t))) row cells.

(** V2: the row of one forecast hour. *)
Definition row_v2 (ts_plain : string) (u v : Q) (temps : gmap string Q)
    : option string :=
  let spd := Wind.speed_kt (Q2R u) (Q2R v) in
  d ← Wind.dir_str (Q2R u) (Q2R v);
  let dir_str := rjust W_DIR d in
  e ← Thermal.highlight_v2 temps;
  let ts := time_field e ts_plain in
  cells ← Thermal.lookup_all temps labels;
  Some (temp_cells (ts +:+ " " +:+ rjust W_SPEED (fmt1 spd) +:+ " " +:+ dir_str) cells).

(** V1: the row of one forecast hour, with the direction in degrees. *)
Definition row_v1 (ts_plain : string) (u v : Q) (temps : gmap string Q)
    : option string :=
  let spd_kt := Wind.speed_kt (Q2R u) (Q2R v) in
  let d := Wind.dir_met (Q2R u) (Q2R v) in
  e ← Thermal.highlight_v1 temps;
  let ts := time_field e ts_plain in
  cells ← Thermal.lookup_all temps labels;
  Some (temp_cells (ts +:+ " " +:+ rjust W_SPEED (fmt1 spd_kt) +:+ " "
                    +:+ rjust W_DIR (fmt0 d)) cells).

End Rows.

End Report.

(** * Vocabulary of the properties *)

(** The strictly increasing lists, as a proposition. *)
Fixpoint ascending (l : list Q) : Prop :=
  match l with
  | x :: (y :: _) as rest => (x < y)%Q /\ ascending rest
  | _ => True
  end.

(** The temperatures of the specification's example, 10.0 to 10.6 up the
    valley. *)
Definition temps_rising : gmap string Q :=
  list_to_map
    [ ("Furry", 100 # 10); ("Brit", 101 # 10); ("7mesh", 102 # 10);
      ("Cheak", 103 # 10); ("Whis", 104 # 10); ("Pemb", 105 # 10);
      ("Lill", 106 # 10) ]%Q.

(** The cycle before a 12Z run is 00Z of the same day, the cycle before a
    00Z run is 12Z of the day before. *)
Definition previous_cycle (now : Run.datetime) : Run.datetime :=
  if (12 <=? Run.hour now)%Z
  then {| Run.day := Run.day now; Run.hour := 0; Run.minute := 0;
          Run.second := 0; Run.microsecond := 0 |}
  else {| Run.day := Run.day now - 1; Run.hour := 12; Run.minute := 0;
          Run.second := 0; Run.microsecond := 0 |}.

(** The locator the probe is sent to: the U-wind resource of the
    candidate at forecast hour 0. *)
Definition probe_url (strftime : Run.datetime -> string -> string)
    (now : Run.datetime) : string :=
  fst (fst (Run.grib_urls strftime (Run.candidate now) 0)).

(** The compass conversion in the words of the specification,
    [round(degrees / 22.5) mod 16], with [round] to the nearest integer
    and ties to the even one, to be compared with [Wind.deg_to_compass]. *)
Definition round_half_even (x : R) : Z :=
  let f := Zfloor x in
  if Rlt_dec (x - IZR f) (1 / 2) then f
  else if Rlt_dec (1 / 2) (x - IZR f) then (f + 1)%Z
  else if Z.even f then f else (f + 1)%Z.

Definition compass_by_round (deg : R) : option string :=
  Py.index Wind.COMPASS_POINTS (round_half_even (deg / 22.5) mod 16)%Z.

(** [r] is the index of the first minimum of [l]: no cell is smaller, and
    every cell before it is strictly larger. *)
Definition first_min (l : list Q) (r : nat) : Prop :=
  exists m, l !! r = Some m /\
    (forall j x, l !! j = Some x -> (m <= x)%Q) /\
    (forall j x, (j < r)%nat -> l !! j = Some x -> (m < x)%Q).

(** The squared distance of a cell at [(la, lo)] from the target. *)
Definition d2_cell (lat0 lon0 la lo : Q) : Q :=
  ((la - lat0) ^ 2 + (lo - lon0) ^ 2)%Q.

(** A two-by-two grid whose four cells are equally far from the target
    (1/2, 1/2): the duplicated-minimum grid of the specification. *)
Definition grid_tie : Grid.message :=
  {| Grid.name := "2 metre temperature";
     Grid.values := {| Grid.shape := (2, 2)%nat; Grid.data := [10; 20; 30; 40]%Q |};
     Grid.lats := {| Grid.shape := (2, 2)%nat; Grid.data := [0; 0; 1; 1]%Q |};
     Grid.lons := {| Grid.shape := (2, 2)%nat; Grid.data := [0; 1; 0; 1]%Q |} |}.

(** A computation that never changes the state. *)
Definition pure_of {A : Type} (m : Hour.M A) : Prop := forall s, snd (m s) = s.

(** The servers answer the U resource and have no V resource yet. *)
Definition get_v_missing (cu : list Grid.message) (url : string) : Hour.get_result :=
  if String.eqb url "U" then Hour.GetResponse 200 (Hour.Complete cu)
  else Hour.GetResponse 404 Hour.Broken.

(** The state of the first iteration of the loop: nothing is bound yet. *)
Definition first_iteration (fs : gmap string (list Grid.message)) : Hour.state :=
  {| Hour.files := fs; Hour.uf := None; Hour.vf := None; Hour.tf := None |}.









(** A string without a line break. *)
Fixpoint one_line (s : string) : Prop :=
  match s with
  | EmptyString => True
  | String c rest => c <> Py.newline /\ one_line rest
  end.

(** A span the pattern [(lit1.*?lit2)] can match under [re.IGNORECASE]:
    [lit1] and [lit2] in any case, with anything but a line break between
    them. *)
Definition is_phrase (lit1 lit2 m : string) : Prop :=
  exists h mid t,
    m = h +:+ mid +:+ t /\ Py.lower h = lit1 /\ Py.lower t = lit2 /\ one_line mid.

(** [Marked is_span opening closing s t]: [t] is [s] with the spans that
    satisfy [is_span] wrapped in [opening] and [closing], scanning from
    the left: where a span starts, the shortest one is wrapped and the scan
    resumes behind it; where none starts, the character is copied. *)
Inductive Marked (is_span : string -> Prop) (opening closing : string)
    : string -> string -> Prop :=
| Marked_nil : Marked is_span opening closing "" ""
| Marked_char (c : ascii) (s t : string) :
    (forall m rest, is_span m -> String c s <> m +:+ rest) ->
    Marked is_span opening closing s t ->
    Marked is_span opening closing (String c s) (String c t)
| Marked_span (m s t : string) :
    is_span m -> m <> "" ->
    (forall m' rest', is_span m' -> m +:+ s = m' +:+ rest' ->
       (String.length m <= String.length m')%nat) ->
    Marked is_span opening closing s t ->
    Marked is_span opening closing (m +:+ s) (opening +:+ m +:+ closing +:+ t).

(** A text in which the last letter of an inflow phrase is the first
    letter of the warning. *)
Definition text_shared_s : string :=
  "inflow northern sectionSTRONG WIND WARNING IN EFFECT".

(** Reading a decimal string back: digits with any number of leading
    zeros, and an optional minus sign before them. *)
Definition decode_nat (s : string) : option N :=
  N.of_uint <$> NilEmpty.uint_of_string s.

Definition decode_int (s : string) : option Z :=
  match s with
  | String "-" rest => (fun n => (- Z.of_N n)%Z) <$> decode_nat rest
  | _ => Z.of_N <$> decode_nat s
  end.

(** A time of day within its ranges. *)
Definition valid_clock (dt : Run.datetime) : Prop :=
  (0 <= Run.hour dt < 24 /\ 0 <= Run.minute dt < 60 /\ 0 <= Run.second dt < 60)%Z.

(** A clock reading in the afternoon. *)
Definition clock_sample : Run.datetime :=
  {| Run.day := 739405; Run.hour := 14; Run.minute := 30; Run.second := 15;
     Run.microsecond := 250 |}.

(** The characters of a string all satisfy [P]. *)
Fixpoint all_chars (P : ascii -> bool) (s : string) : bool :=
  match s with
  | EmptyString => true
  | String c rest => P c && all_chars P rest
  end.

Definition not_slash (c : ascii) : bool := negb (Ascii.eqb c "/").

(** Wind components on the grid of [grid_tie]. *)
Definition wind_u_sample : Grid.message :=
  {| Grid.name := "10 metre U wind component";
     Grid.values := {| Grid.shape := (2, 2)%nat; Grid.data := [1; 2; 3; 4]%Q |};
     Grid.lats := Grid.lats grid_tie; Grid.lons := Grid.lons grid_tie |}.

Definition wind_v_sample : Grid.message :=
  {| Grid.name := "10 metre V wind component";
     Grid.values := {| Grid.shape := (2, 2)%nat; Grid.data := [5; 6; 7; 8]%Q |};
     Grid.lats := Grid.lats grid_tie; Grid.lons := Grid.lons grid_tie |}.

(** The servers answer all three resources. *)
Definition get_all (url : string) : Hour.get_result :=
  if String.eqb url "U" then Hour.GetResponse 200 (Hour.Complete [wind_u_sample])
  else if String.eqb url "V" then Hour.GetResponse 200 (Hour.Complete [wind_v_sample])
  else Hour.GetResponse 200 (Hour.Complete [grid_tie]).

(** The state once the three downloads of an iteration have succeeded
    with the bodies [cu], [cv] and [ct]. *)
Definition after_downloads (fs : gmap string (list Grid.message))
    (cu cv ct : list Grid.message) : Hour.state :=
  let t1 := fresh (dom fs) in
  let f1 := <[t1 := cu]> fs in
  let t2 := fresh (dom f1) in
  let f2 := <[t2 := cv]> f1 in
  let t3 := fresh (dom f2) in
  {| Hour.files := <[t3 := ct]> f2;
     Hour.uf := Some t1; Hour.vf := Some t2; Hour.tf := Some t3 |}.

(** What the two extractions make of three bodies: a failing extraction
    is a [ValueError]. *)
Definition extracted (cu cv ct : list Grid.message)
    : Hour.result (Q * Q * gmap string Q) :=
  match Grid.extract_wind cu cv with
  | None => Hour.Raise Hour.ValueError
  | Some w =>
      match Grid.extract_temps ct with
      | None => Hour.Raise Hour.ValueError
      | Some temps => Hour.Ok (w, temps)
      end
  end.

(** A later iteration of the loop: the names of the previous hour are
    still bound, and their files are gone. *)
Definition later_iteration (fs : gmap string (list Grid.message)) : Hour.state :=
  {| Hour.files := fs; Hour.uf := Some "a"; Hour.vf := Some "b"; Hour.tf := Some "c" |}.

(** What a terminal shows of a line: a colour code, from the escape
    character to the next "m", is not displayed. [in_code] tells whether
    the scan is inside a code. *)
Definition code_step (in_code : bool) (c : ascii) : bool :=
  if in_code then negb (Ascii.eqb c "m") else Ascii.eqb c (ascii_of_N 27).

Fixpoint shown_from (in_code : bool) (s : string) : string :=
  match s with
  | EmptyString => EmptyString
  | String c rest =>
      if in_code || Ascii.eqb c (ascii_of_N 27)
      then shown_from (code_step in_code c) rest
      else String c (shown_from (code_step in_code c) rest)
  end.

Definition shown (s : string) : string := shown_from false s.

(** Whether the scan is inside a code after [s]. *)
Fixpoint state_after (in_code : bool) (s : string) : bool :=
  match s with
  | EmptyString => in_code
  | String c rest => state_after (code_step in_code c) rest
  end.

(** The characters that occur inside the colour codes of the report, and
    the characters that occur in no code. *)
Definition code_char (c : ascii) : bool :=
  existsb (Ascii.eqb c) (list_ascii_of_string "[0123456789m").

Definition plain_char (c : ascii) : bool :=
  negb (code_char c) && negb (Ascii.eqb c (ascii_of_N 27)).

(** A text whose codes hold code characters only. *)
Fixpoint tidy_from (in_code : bool) (s : string) : bool :=
  match s with
  | EmptyString => true
  | String c rest =>
      (if in_code then code_char c else true) && tidy_from (code_step in_code c) rest
  end.

(** What every forecast of the marine section satisfies. *)
Definition forecast_ok (region_filter : string) (fc : Marine.forecast) : Prop :=
  Py.startswith (Py.lower (Marine.Title fc)) "extended forecast" = false /\
  Py.contains (Marine.Title fc) region_filter = true /\
  Py.contains (Marine.Forecast fc) "<br/>" = false /\
  Py.strip (Marine.Forecast fc) = Marine.Forecast fc.

(** * Properties *)

(** ** Thermal highlighting *)

Section ThermalFacts.

Import Thermal.

Lemma Qltb_iff (x y : Q) : negb (Qle_bool y x) = true <-> (x < y)%Q.
Proof.
  rewrite negb_true_iff. split; intros H.
  - apply Qnot_le_lt. intros Hle. apply Qle_bool_iff in Hle. congruence.
  - destruct (Qle_bool y x) eqn:E; [|reflexivity].
    apply Qle_bool_iff in E. exfalso. exact (Qlt_not_le _ _ H E).
Qed.

Lemma all_adjacent_lt_cons (x y : Q) (l : list Q) :
  Py.all_adjacent_lt (x :: y :: l) = true <->
  (x < y)%Q /\ Py.all_adjacent_lt (y :: l) = true.
Proof.
  change (Py.all_adjacent_lt (x :: y :: l))
    with (negb (Qle_bool y x) && Py.all_adjacent_lt (y :: l)).
  rewrite andb_true_iff, Qltb_iff. reflexivity.
Qed.

Lemma all_adjacent_lt_ascending (l : list Q) :
  Py.all_adjacent_lt l = true <-> ascending l.
Proof.
  induction l as [|x [|y l] IH]; try (simpl; tauto).
  rewrite all_adjacent_lt_cons, IH. reflexivity.
Qed.

Lemma ascending_dec (l : list Q) : {ascending l} + {~ ascending l}.
Proof.
  destruct (Py.all_adjacent_lt l) eqn:E.
  - left. apply all_adjacent_lt_ascending, E.
  - right. intros H. apply all_adjacent_lt_ascending in H. congruence.
Qed.

(** An equal adjacent pair anywhere breaks the chain. *)
Lemma ascending_no_tie (l1 l2 : list Q) (x y : Q) :
  (x == y)%Q -> ~ ascending (l1 ++ x :: y :: l2).
Proof.
  intros Heq. induction l1 as [|a [|b l1] IH]; simpl.
  - intros [Hlt _]. rewrite Heq in Hlt. exact (Qlt_irrefl _ Hlt).
  - intros [_ [Hlt _]]. rewrite Heq in Hlt. exact (Qlt_irrefl _ Hlt).
  - intros [_ H]. exact (IH H).
Qed.

Variable temps : gmap string Q.
Variables t1 t2 t3 t4 t5 t6 t7 : Q.
Hypothesis HFurry : temps !! "Furry" = Some t1.
Hypothesis HBrit : temps !! "Brit" = Some t2.
Hypothesis H7mesh : temps !! "7mesh" = Some t3.
Hypothesis HCheak : temps !! "Cheak" = Some t4.
Hypothesis HWhis : temps !! "Whis" = Some t5.
Hypothesis HPemb : temps !! "Pemb" = Some t6.
Hypothesis HLill : temps !! "Lill" = Some t7.

Lemma lookup_all_full :
  lookup_all temps labels = Some [t1; t2; t3; t4; t5; t6; t7].
Proof.
  unfold lookup_all, labels. simpl.
  rewrite HFurry, HBrit, H7mesh, HCheak, HWhis, HPemb, HLill. reflexivity.
Qed.

Lemma lookup_all_part :
  lookup_all temps ["Furry"; "Brit"; "7mesh"; "Whis"] = Some [t1; t2; t3; t5].
Proof.
  unfold lookup_all. simpl. rewrite HFurry, HBrit, H7mesh, HWhis. reflexivity.
Qed.

Lemma highlight_v2_eq :
  highlight_v2 temps =
  Some (if Py.all_adjacent_lt [t1; t2; t3; t4; t5; t6; t7] then Green
        else if Py.all_adjacent_lt [t1; t2; t3; t5] then Yellow else Plain).
Proof.
  unfold highlight_v2. rewrite lookup_all_full.
  change (Some ?x ≫= ?f) with (f x). cbv beta.
  destruct (Py.all_adjacent_lt [t1; t2; t3; t4; t5; t6; t7]); [reflexivity|].
  rewrite lookup_all_part. change (Some ?x ≫= ?f) with (f x). cbv beta.
  destruct (Py.all_adjacent_lt [t1; t2; t3; t5]); reflexivity.
Qed.

Lemma highlight_v1_eq :
  highlight_v1 temps =
  Some (if Py.all_adjacent_lt [t1; t2; t3; t5] then Yellow else Plain).
Proof.
  unfold highlight_v1. rewrite lookup_all_part. simpl.
  rewrite !andb_true_r, andb_assoc.
  destruct (negb (Qle_bool t2 t1) && negb (Qle_bool t3 t2) && negb (Qle_bool t5 t3));
    reflexivity.
Qed.

End ThermalFacts.

(** V2 alone behaves as the specification describes the highlighter: full
    ascent wins over partial ascent, and both are strict. *)
Lemma highlight_v2_cases (temps : gmap string Q) (t1 t2 t3 t4 t5 t6 t7 : Q) :
  temps !! "Furry" = Some t1 -> temps !! "Brit" = Some t2 ->
  temps !! "7mesh" = Some t3 -> temps !! "Cheak" = Some t4 ->
  temps !! "Whis" = Some t5 -> temps !! "Pemb" = Some t6 ->
  temps !! "Lill" = Some t7 ->
  (ascending [t1; t2; t3; t4; t5; t6; t7] ->
     Thermal.highlight_v2 temps = Some Thermal.Green) /\
  (~ ascending [t1; t2; t3; t4; t5; t6; t7] -> ascending [t1; t2; t3; t5] ->
     Thermal.highlight_v2 temps = Some Thermal.Yellow) /\
  (~ ascending [t1; t2; t3; t4; t5; t6; t7] -> ~ ascending [t1; t2; t3; t5] ->
     Thermal.highlight_v2 temps = Some Thermal.Plain).
Proof.
  intros H1 H2 H3 H4 H5 H6 H7.
  rewrite (highlight_v2_eq temps t1 t2 t3 t4 t5 t6 t7) by assumption.
  rewrite <- !all_adjacent_lt_ascending.
  destruct (Py.all_adjacent_lt [t1; t2; t3; t4; t5; t6; t7]);
    destruct (Py.all_adjacent_lt [t1; t2; t3; t5]);
    repeat split; intros; congruence.
Qed.

(** C2 (as stated, on V1): with the seven temperatures strictly increasing
    the yellow-only variant wraps the time in yellow, the secondary
    emphasis; it has no stronger one. *)
Lemma thermal_v1_full_ascent_is_yellow :
  ascending [100 # 10; 101 # 10; 102 # 10; 103 # 10; 104 # 10; 105 # 10; 106 # 10]%Q /\
  Thermal.highlight_v1 temps_rising = Some Thermal.Yellow /\
  Thermal.highlight_v2 temps_rising = Some Thermal.Green.
Proof.
  split; [|split]; [| reflexivity | reflexivity].
  simpl; repeat split; reflexivity.
Qed.

(** C2 (amended): in V2 the time field is green when the seven
    temperatures, in the order of the points, are strictly increasing,
    otherwise yellow when Furry, Brit, 7mesh, Whis are strictly increasing,
    otherwise plain; V1 has the yellow rule only, so there a full ascent is
    yellow as well. Every comparison is strict: a tie between two
    neighbours of a checked sequence takes that sequence's colour away. *)
Theorem thermal_highlight_by_variant
    (temps : gmap string Q) (t1 t2 t3 t4 t5 t6 t7 : Q)
    (HFurry : temps !! "Furry" = Some t1) (HBrit : temps !! "Brit" = Some t2)
    (H7mesh : temps !! "7mesh" = Some t3) (HCheak : temps !! "Cheak" = Some t4)
    (HWhis : temps !! "Whis" = Some t5) (HPemb : temps !! "Pemb" = Some t6)
    (HLill : temps !! "Lill" = Some t7) :
  let full := (t1 < t2 /\ t2 < t3 /\ t3 < t4 /\ t4 < t5 /\ t5 < t6 /\ t6 < t7)%Q in
  let part := (t1 < t2 /\ t2 < t3 /\ t3 < t5)%Q in
  (full -> Thermal.highlight_v2 temps = Some Thermal.Green) /\
  (~ full -> part -> Thermal.highlight_v2 temps = Some Thermal.Yellow) /\
  (~ full -> ~ part -> Thermal.highlight_v2 temps = Some Thermal.Plain) /\
  (part -> Thermal.highlight_v1 temps = Some Thermal.Yellow) /\
  (~ part -> Thermal.highlight_v1 temps = Some Thermal.Plain) /\
  ((t1 == t2 \/ t2 == t3 \/ t3 == t4 \/ t4 == t5 \/ t5 == t6 \/ t6 == t7)%Q ->
     Thermal.highlight_v2 temps <> Some Thermal.Green) /\
  ((t1 == t2 \/ t2 == t3 \/ t3 == t5)%Q ->
     Thermal.highlight_v2 temps <> Some Thermal.Yellow /\
     Thermal.highlight_v1 temps = Some Thermal.Plain).
Proof.
  intros full part.
  assert (Hfull : full <-> ascending [t1; t2; t3; t4; t5; t6; t7])
    by (unfold full; simpl; tauto).
  assert (Hpart : part <-> ascending [t1; t2; t3; t5])
    by (unfold part; simpl; tauto).
  assert (Htie_full :
    (t1 == t2 \/ t2 == t3 \/ t3 == t4 \/ t4 == t5 \/ t5 == t6 \/ t6 == t7)%Q -> ~ full).
  { unfold full. intros Ht (A & B & C & D & E & F).
    destruct Ht as [T|[T|[T|[T|[T|T]]]]]; rewrite T in *;
      eapply Qlt_irrefl; eassumption. }
  assert (Htie_part : (t1 == t2 \/ t2 == t3 \/ t3 == t5)%Q -> ~ part).
  { unfold part. intros Ht (A & B & C).
    destruct Ht as [T|[T|T]]; rewrite T in *; eapply Qlt_irrefl; eassumption. }
  pose proof (highlight_v2_eq temps t1 t2 t3 t4 t5 t6 t7
                HFurry HBrit H7mesh HCheak HWhis HPemb HLill) as E2.
  pose proof (highlight_v1_eq temps t1 t2 t3 t5 HFurry HBrit H7mesh HWhis) as E1.
  rewrite E1, E2. clear E1 E2.
  rewrite Hfull, Hpart in *. rewrite <- !all_adjacent_lt_ascending in *.
  destruct (Py.all_adjacent_lt [t1; t2; t3; t4; t5; t6; t7]);
    destruct (Py.all_adjacent_lt [t1; t2; t3; t5]);
    repeat split; intros; try congruence;
    try (exfalso; (apply Htie_full + apply Htie_part); auto; congruence).
Qed.

Lemma thermal_highlight_by_variant_witness :
  Thermal.highlight_v2 temps_rising = Some Thermal.Green /\
  Thermal.highlight_v1 temps_rising = Some Thermal.Yellow.
Proof.
  pose proof (thermal_highlight_by_variant temps_rising
                (100 # 10) (101 # 10) (102 # 10) (103 # 10) (104 # 10)
                (105 # 10) (106 # 10)
                eq_refl eq_refl eq_refl eq_refl eq_refl eq_refl eq_refl) as H.
  cbv zeta in H. destruct H as (Hg & _ & _ & Hy & _).
  split; [apply Hg | apply Hy]; repeat split; reflexivity.
Defined.

(** ** Run selection *)

Lemma candidate_sub_12 (now : Run.datetime) :
  Run.sub_hours (Run.candidate now) 12 = previous_cycle now.
Proof.
  unfold Run.candidate, previous_cycle, Run.sub_hours, Run.of_seconds,
    Run.to_seconds, Run.replace_hour.
  destruct (12 <=? Run.hour now)%Z;
    cbn [Run.day Run.hour Run.minute Run.second Run.microsecond].
  - replace (Run.day now * 86400 + 12 * 3600 + 0 * 60 + 0 - 12 * 3600)%Z
      with (Run.day now * 86400)%Z by lia.
    f_equal; Z.div_mod_to_equations; lia.
  - replace (Run.day now * 86400 + 0 * 3600 + 0 * 60 + 0 - 12 * 3600)%Z
      with ((Run.day now - 1) * 86400 + 43200)%Z by lia.
    f_equal; Z.div_mod_to_equations; lia.
Qed.

Lemma probe_url_eq (strftime : Run.datetime -> string -> string)
    (now : Run.datetime) :
  probe_url strftime now =
  (Run.BASE_URL +:+ "/" +:+ strftime (Run.candidate now) "%H" +:+ "/" +:+ "000")
  +:+ "/CMC_hrdps_west_UGRD_TGL_10"
  +:+ ("_" +:+ Run.RESOLUTION +:+ "_"
       +:+ strftime (Run.candidate now) "%Y%m%dT%HZ"
       +:+ "_P" +:+ "000" +:+ "-00.grib2").
Proof. reflexivity. Qed.

(** C3: the candidate is today's 12Z run from 12:00 UTC on and today's 00Z
    run before; exactly one probe is made, for the U-wind resource of the
    candidate at forecast hour 0; a probe answered with status 200 keeps
    the candidate, any other status and any exception select the candidate
    minus twelve hours, which is the previous cycle, without a further
    probe; the function returns a run in every case. *)
Theorem find_best_run_single_fallback
    (strftime : Run.datetime -> string -> string)
    (head : string -> Run.head_result) (now : Run.datetime) :
  let cand := Run.candidate now in
  let probe := probe_url strftime now in
  cand = {| Run.day := Run.day now;
            Run.hour := if (12 <=? Run.hour now)%Z then 12 else 0;
            Run.minute := 0; Run.second := 0; Run.microsecond := 0 |} /\
  snd (Run.find_best_run strftime head now) = [probe] /\
  fst (Run.find_best_run strftime head now) =
    match head probe with
    | Run.HeadStatus 200 => cand
    | _ => Run.sub_hours cand 12
    end /\
  Run.sub_hours cand 12 = previous_cycle now.
Proof.
  intros cand probe. split; [reflexivity|].
  assert (Hfb : Run.find_best_run strftime head now =
                match head probe with
                | Run.HeadStatus code =>
                    if negb (code =? 200)%Z then (Run.sub_hours cand 12, [probe])
                    else (cand, [probe])
                | Run.HeadRaises => (Run.sub_hours cand 12, [probe])
                end) by reflexivity.
  rewrite Hfb. clear Hfb. split; [|split].
  - destruct (head probe) as [|code]; [reflexivity|].
    destruct (negb (code =? 200)%Z); reflexivity.
  - destruct (head probe) as [|code]; [reflexivity|].
    destruct (Z.eq_dec code 200%Z) as [E|Hne]; [subst code; reflexivity|].
    rewrite (proj2 (Z.eqb_neq _ _) Hne). simpl.
    destruct code as [|p|p]; try reflexivity.
    do 8 (destruct p as [p|p|]; try reflexivity); congruence.
  - apply candidate_sub_12.
Qed.

(** ** Compass points *)

Section CompassFacts.

Import Wind.
Local Open Scope R_scope.

Lemma int_nonneg (x : R) (n : Z) : 0 <= x -> IZR n <= x < IZR n + 1 -> int x = n.
Proof.
  intros Hx Hn. unfold int. destruct (Rle_dec 0 x) as [_|Hneg]; [|contradiction].
  apply Zfloor_eq, Hn.
Qed.


Lemma compass_idx_range (deg : R) : (0 <= compass_idx deg < 16)%Z.
Proof. unfold compass_idx. apply Z.mod_pos_bound. reflexivity. Qed.

Lemma index_in_range {A : Type} (l : list A) (i : Z) :
  (0 <= i < Z.of_nat (length l))%Z ->
  exists x, Py.index l i = Some x /\ In x l.
Proof.
  intros [Hlo Hhi]. unfold Py.index.
  destruct (Z.leb_spec 0 i) as [_|Hneg]; [|lia].
  destruct (nth_error l (Z.to_nat i)) as [x|] eqn:E.
  - exists x. split; [reflexivity|]. eapply nth_error_In, E.
  - apply nth_error_None in E. lia.
Qed.

Lemma deg_to_compass_of_idx (deg : R) (n : Z) :
  0 <= (deg + 11.25) / 22.5 -> IZR n <= (deg + 11.25) / 22.5 < IZR n + 1 ->
  deg_to_compass deg = Py.index COMPASS_POINTS (n mod 16)%Z.
Proof.
  intros H0 Hn. unfold deg_to_compass, compass_idx.
  rewrite (int_nonneg _ n H0 Hn). reflexivity.
Qed.



End CompassFacts.

Lemma fmod_range (a b : R) : (0 < b -> 0 <= Wind.fmod a b < b)%R.
Proof.
  intros Hb. unfold Wind.fmod.
  pose proof (Zfloor_bound (a / b)) as [Hlo Hhi].
  assert (Ha : (a = b * (a / b))%R) by (field; lra).
  set (q := (a / b)%R) in *. set (f := IZR (Zfloor q)) in *.
  split; nra.
Qed.

Lemma dir_met_range (u v : R) : (0 <= Wind.dir_met u v < 360)%R.
Proof. unfold Wind.dir_met. apply fmod_range. lra. Qed.

Lemma deg_to_compass_defined (deg : R) :
  exists p, Wind.deg_to_compass deg = Some p /\ In p Wind.COMPASS_POINTS.
Proof.
  unfold Wind.deg_to_compass. apply index_in_range.
  change (Z.of_nat (length Wind.COMPASS_POINTS)) with 16%Z.
  apply compass_idx_range.
Qed.


(** At a tie the function goes up where rounding to even goes down. *)
Lemma deg_to_compass_tie_goes_up :
  Wind.deg_to_compass 11.25 = Some "NNE" /\
  compass_by_round 11.25 = Some "N".
Proof.
  split.
  - rewrite (deg_to_compass_of_idx _ 1) by lra. reflexivity.
  - unfold compass_by_round, round_half_even.
    assert (Hf : Zfloor (11.25 / 22.5) = 0%Z) by (apply Zfloor_eq; lra).
    rewrite Hf.
    destruct (Rlt_dec (11.25 / 22.5 - 0) (1 / 2)) as [Hlt|_]; [lra|].
    destruct (Rlt_dec (1 / 2) (11.25 / 22.5 - 0)) as [Hgt|_]; [lra|].
    reflexivity.
Qed.



(** C10: for every real degree value, negative ones and those of 360 or
    more included, the index int((deg + 11.25) / 22.5) mod 16 lies in 0..15
    and [deg_to_compass] returns one of the sixteen points; [dir_met]
    always lies in [0, 360), and the compass direction of every wind
    vector is defined. *)
Theorem deg_to_compass_total :
  (forall deg : R,
     (0 <= Wind.compass_idx deg <= 15)%Z /\
     exists p, Wind.deg_to_compass deg = Some p /\ In p Wind.COMPASS_POINTS) /\
  (forall u v : R,
     (0 <= Wind.dir_met u v < 360)%R /\
     exists p, Wind.dir_str u v = Some p /\ In p Wind.COMPASS_POINTS).
Proof.
  split.
  - intros deg. split.
    + pose proof (compass_idx_range deg). lia.
    + apply deg_to_compass_defined.
  - intros u v. split.
    + apply dir_met_range.
    + apply deg_to_compass_defined.
Qed.

(** ** Wind direction and speed *)

Section WindFacts.

Local Open Scope R_scope.

Lemma fmod_eq (a b : R) (k : Z) :
  0 < b -> IZR k <= a / b < IZR k + 1 -> Wind.fmod a b = a - b * IZR k.
Proof. intros Hb Hk. unfold Wind.fmod. rewrite (Zfloor_eq k) by exact Hk. reflexivity. Qed.

Lemma sin_period_Z (x : R) (k : Z) : sin (x + 2 * IZR k * PI) = sin x.
Proof.
  destruct (Z_le_gt_dec 0 k) as [Hk|Hk].
  - rewrite <- (Z2Nat.id k Hk), <- INR_IZR_INZ. apply sin_period.
  - rewrite <- (sin_period (x + 2 * IZR k * PI) (Z.to_nat (- k))).
    rewrite INR_IZR_INZ, Z2Nat.id by lia. rewrite opp_IZR. f_equal. ring.
Qed.

Lemma cos_period_Z (x : R) (k : Z) : cos (x + 2 * IZR k * PI) = cos x.
Proof.
  destruct (Z_le_gt_dec 0 k) as [Hk|Hk].
  - rewrite <- (Z2Nat.id k Hk), <- INR_IZR_INZ. apply cos_period.
  - rewrite <- (cos_period (x + 2 * IZR k * PI) (Z.to_nat (- k))).
    rewrite INR_IZR_INZ, Z2Nat.id by lia. rewrite opp_IZR. f_equal. ring.
Qed.

Lemma hypot_scaled (x t : R) :
  0 <= x -> sqrt (x * x + (x * t) * (x * t)) = x * sqrt (1 + t²).
Proof.
  intros Hx.
  assert (H1 : 0 <= 1 + t²) by (unfold Rsqr; nra).
  replace (x * x + x * t * (x * t)) with ((x * x) * (1 + t²)) by (unfold Rsqr; ring).
  rewrite sqrt_mult by nra. rewrite sqrt_square by assumption. reflexivity.
Qed.

Lemma atan_polar (x y : R) :
  0 < x ->
  x * sqrt (1 + (y / x)²) * cos (atan (y / x)) = x /\
  x * sqrt (1 + (y / x)²) * sin (atan (y / x)) = y.
Proof.
  intros Hx. rewrite cos_atan, sin_atan.
  assert (Hs : 0 < sqrt (1 + (y / x)²)) by (apply sqrt_lt_R0; unfold Rsqr; nra).
  split; field; lra.
Qed.

Lemma arctan2_polar (y x : R) :
  sqrt (x * x + y * y) * cos (Wind.arctan2 y x) = x /\
  sqrt (x * x + y * y) * sin (Wind.arctan2 y x) = y.
Proof.
  unfold Wind.arctan2.
  destruct (Rlt_dec 0 x) as [Hpos|Hnpos].
  - replace (y * y) with ((x * (y / x)) * (x * (y / x))) at 1 2 by (field; lra).
    rewrite hypot_scaled by lra. apply atan_polar, Hpos.
  - destruct (Rlt_dec x 0) as [Hneg|Hnneg].
    + assert (Hr : sqrt (x * x + y * y) = (- x) * sqrt (1 + (- y / - x)²)).
      { rewrite <- hypot_scaled by lra. f_equal. field. lra. }
      assert (Ht : y / x = - y / - x) by (field; lra).
      destruct (atan_polar (- x) (- y)) as [Hc Hs]; [lra|].
      rewrite Hr, Ht.
      destruct (Rle_dec 0 y) as [Hy|Hy].
      * rewrite neg_cos, neg_sin. split; lra.
      * rewrite cos_minus, sin_minus, cos_PI, sin_PI. split; lra.
    + assert (x = 0) by lra. subst x.
      replace (0 * 0 + y * y) with (y * y) by ring.
      destruct (Rlt_dec 0 y) as [Hy|Hy].
      * rewrite sqrt_square by lra. rewrite cos_PI2, sin_PI2. split; lra.
      * destruct (Rlt_dec y 0) as [Hy'|Hy'].
        -- replace (y * y) with ((- y) * (- y)) by ring.
           rewrite sqrt_square by lra.
           rewrite cos_neg, sin_neg, cos_PI2, sin_PI2. split; lra.
        -- assert (y = 0) by lra. subst y.
           replace (0 * 0) with 0 by ring. rewrite sqrt_0. split; lra.
Qed.

Lemma dir_met_polar (u v : R) :
  let d := Wind.dir_met u v * PI / 180 in
  u = - Wind.hypot u v * sin d /\ v = - Wind.hypot u v * cos d.
Proof.
  intros d.
  set (th := Wind.arctan2 (- u) (- v)).
  set (k := Zfloor ((Wind.degrees th + 360) / 360)).
  assert (Hd : d = th + 2 * IZR (1 - k) * PI).
  { unfold d, Wind.dir_met, Wind.fmod. fold th. fold k.
    unfold Wind.degrees. rewrite minus_IZR.
    pose proof PI_neq0. field. assumption. }
  rewrite Hd, sin_period_Z, cos_period_Z.
  destruct (arctan2_polar (- u) (- v)) as [Hc Hs]. fold th in Hc, Hs.
  unfold Wind.hypot.
  replace (- v * - v + - u * - u) with (u * u + v * v) in Hc, Hs by ring.
  split; lra.
Qed.

Lemma dir_met_from_north : Wind.dir_met 0 (-1) = 0.
Proof.
  unfold Wind.dir_met.
  replace (- 0) with 0 by lra. replace (- -1) with 1 by lra.
  assert (Ha : Wind.arctan2 0 1 = 0).
  { unfold Wind.arctan2. destruct (Rlt_dec 0 1) as [_|H]; [|lra].
    replace (0 / 1) with 0 by lra. apply atan_0. }
  rewrite Ha. unfold Wind.degrees.
  replace (0 * 180 / PI) with 0 by (unfold Rdiv; ring).
  rewrite (fmod_eq _ _ 1) by lra. lra.
Qed.

Lemma dir_met_from_east : Wind.dir_met (-1) 0 = 90.
Proof.
  unfold Wind.dir_met.
  replace (- 0) with 0 by lra. replace (- -1) with 1 by lra.
  assert (Ha : Wind.arctan2 1 0 = PI / 2).
  { unfold Wind.arctan2. destruct (Rlt_dec 0 0) as [H|_]; [lra|].
    destruct (Rlt_dec 0 1) as [_|H]; [reflexivity|lra]. }
  rewrite Ha. unfold Wind.degrees.
  replace (PI / 2 * 180 / PI) with 90 by (pose proof PI_neq0; field; assumption).
  rewrite (fmod_eq _ _ 1) by lra. lra.
Qed.

End WindFacts.

(** C6: the direction is (degrees(atan2(-u, -v)) + 360) mod 360 and lies
    in [0, 360); it is the bearing the wind comes from: the vector (u, v)
    is the speed times the unit vector of the opposite bearing. A wind
    with u = 0, v = -1 comes from 0 degrees (north), one with u = -1,
    v = 0 from 90 degrees (east). The speed in knots is hypot(u, v)
    times 1.94384. *)
Theorem dir_met_meteorological (u v : R) :
  (Wind.dir_met u v =
     Wind.fmod (Wind.degrees (Wind.arctan2 (- u) (- v)) + 360) 360 /\
   0 <= Wind.dir_met u v < 360 /\
   u = - sqrt (u * u + v * v) * sin (Wind.dir_met u v * PI / 180) /\
   v = - sqrt (u * u + v * v) * cos (Wind.dir_met u v * PI / 180) /\
   Wind.speed_kt u v = sqrt (u * u + v * v) * 1.94384 /\
   Wind.dir_met 0 (-1) = 0 /\
   Wind.dir_met (-1) 0 = 90)%R.
Proof.
  split; [reflexivity|]. split; [apply dir_met_range|].
  destruct (dir_met_polar u v) as [Hu Hv]. unfold Wind.hypot in Hu, Hv.
  split; [exact Hu|]. split; [exact Hv|]. split; [reflexivity|].
  split; [apply dir_met_from_north | apply dir_met_from_east].
Qed.

Local Close Scope string_scope.

(** ** Nearest-cell sampling *)

Lemma Qle_bool_false (x y : Q) : Qle_bool x y = false -> (y < x)%Q.
Proof.
  intros H. apply Qnot_le_lt. intros Hle. apply Qle_bool_iff in Hle. congruence.
Qed.

Lemma Qle_bool_true (x y : Q) : Qle_bool x y = true -> (x <= y)%Q.
Proof. apply Qle_bool_iff. Qed.

Lemma first_min_snoc_keep (pre : list Q) (besti : nat) (best x : Q) :
  pre !! besti = Some best -> first_min pre besti -> (best <= x)%Q ->
  first_min (pre ++ [x]) besti.
Proof.
  intros Hb (m & Hm & Hle & Hlt) Hx.
  assert (m = best) by congruence. subst m.
  exists best. split; [|split].
  - rewrite lookup_app_l; [assumption|]. eapply lookup_lt_Some, Hb.
  - intros j y Hj. apply lookup_app_Some in Hj as [Hj|[Hlen Hj]].
    + eapply Hle, Hj.
    + destruct (j - length pre)%nat; simpl in Hj; [|discriminate].
      injection Hj as <-. assumption.
  - intros j y Hjr Hj. apply lookup_app_Some in Hj as [Hj|[Hlen Hj]].
    + eapply Hlt; eassumption.
    + apply lookup_lt_Some in Hb. lia.
Qed.

Lemma first_min_snoc_new (pre : list Q) (besti : nat) (best x : Q) :
  pre !! besti = Some best -> first_min pre besti -> (x < best)%Q ->
  first_min (pre ++ [x]) (length pre).
Proof.
  intros Hb (m & Hm & Hle & Hlt) Hx.
  assert (m = best) by congruence. subst m.
  exists x. split; [|split].
  - rewrite lookup_app_r by lia. rewrite Nat.sub_diag. reflexivity.
  - intros j y Hj. apply lookup_app_Some in Hj as [Hj|[Hlen Hj]].
    + apply Qlt_le_weak. eapply Qlt_le_trans; [exact Hx|]. eapply Hle, Hj.
    + destruct (j - length pre)%nat; simpl in Hj; [|discriminate].
      injection Hj as <-. apply Qle_refl.
  - intros j y Hjr Hj. apply lookup_app_Some in Hj as [Hj|[Hlen Hj]].
    + eapply Qlt_le_trans; [exact Hx|]. eapply Hle, Hj.
    + lia.
Qed.

Lemma argmin_from_first_min (rest pre : list Q) (best : Q) (besti : nat) :
  pre !! besti = Some best -> first_min pre besti ->
  first_min (pre ++ rest) (Grid.argmin_from best besti (length pre) rest).
Proof.
  revert pre best besti. induction rest as [|x rest IH]; intros pre best besti Hb Hmin.
  - rewrite app_nil_r. exact Hmin.
  - simpl. replace (pre ++ x :: rest) with ((pre ++ [x]) ++ rest)
      by (rewrite <- app_assoc; reflexivity).
    replace (S (length pre)) with (length (pre ++ [x]))
      by (rewrite length_app; simpl; lia).
    destruct (Qle_bool best x) eqn:E; simpl.
    + apply IH.
      * rewrite lookup_app_l; [assumption|]. eapply lookup_lt_Some, Hb.
      * apply (first_min_snoc_keep pre besti best x Hb Hmin).
        apply Qle_bool_true, E.
    + apply IH.
      * rewrite lookup_app_r by lia. rewrite Nat.sub_diag. reflexivity.
      * apply (first_min_snoc_new pre besti best x Hb Hmin).
        apply Qle_bool_false, E.
Qed.

Lemma argmin_first_min (a : Grid.ndarray) (r : nat) :
  Grid.argmin a = Some r -> first_min (Grid.data a) r.
Proof.
  unfold Grid.argmin. destruct (Grid.data a) as [|x rest]; [discriminate|].
  intros [= <-]. apply (argmin_from_first_min rest [x] x 0%nat); [reflexivity|].
  exists x. split; [reflexivity|]. split.
  - intros [|j] y Hj; simpl in Hj; [|destruct j; discriminate].
    injection Hj as <-. apply Qle_refl.
  - intros j y Hj. lia.
Qed.

Lemma argmin_defined (a : Grid.ndarray) :
  Grid.data a <> [] -> exists r, Grid.argmin a = Some r.
Proof.
  unfold Grid.argmin. destruct (Grid.data a); [congruence|]. eauto.
Qed.

Lemma lookup_map {A B : Type} (f : A -> B) (l : list A) (j : nat) :
  map f l !! j = f <$> (l !! j).
Proof.
  revert j. induction l as [|x l IH]; intros [|j]; simpl; try reflexivity. apply IH.
Qed.

Lemma shape_eqb_eq (s t : nat * nat) : Grid.shape_eqb s t = true <-> s = t.
Proof.
  unfold Grid.shape_eqb. destruct s as [a b], t as [c d]. simpl.
  rewrite andb_true_iff, !Nat.eqb_eq. split; [intros [-> ->]; reflexivity|].
  intros [= -> ->]. split; reflexivity.
Qed.

Lemma dist2_some (lats lons : Grid.ndarray) (lat0 lon0 : Q) :
  Grid.shape lats = Grid.shape lons ->
  exists d2, Grid.dist2 lats lons lat0 lon0 = Some d2 /\
    Grid.shape d2 = Grid.shape lats /\
    forall j, Grid.data d2 !! j =
      (la ← Grid.data lats !! j; lo ← Grid.data lons !! j;
       Some (d2_cell lat0 lon0 la lo)).
Proof.
  intros Hs. unfold Grid.dist2, Grid.add. simpl.
  rewrite (proj2 (shape_eqb_eq _ _) Hs).
  eexists. split; [reflexivity|]. split; [reflexivity|].
  intros j. simpl. rewrite lookup_zip_with, !lookup_map.
  destruct (Grid.data lats !! j); simpl; [|reflexivity].
  destruct (Grid.data lons !! j); reflexivity.
Qed.

Lemma unravel_ravel (i ny nx : nat) :
  (i < ny * nx)%nat ->
  Grid.unravel_index i (ny, nx) = Some ((i / nx)%nat, (i mod nx)%nat) /\
  (i / nx < ny)%nat /\ (i mod nx < nx)%nat /\
  (i / nx * nx + i mod nx = i)%nat.
Proof.
  intros Hi. assert (Hnx : (0 < nx)%nat) by nia.
  unfold Grid.unravel_index. simpl.
  rewrite (proj2 (Nat.ltb_lt _ _) Hi).
  split; [reflexivity|]. split; [|split].
  - apply Nat.Div0.div_lt_upper_bound. lia.
  - apply Nat.mod_upper_bound. lia.
  - pose proof (Nat.div_mod_eq i nx). lia.
Qed.

Lemma cell_lookup (ny nx : nat) (a : Grid.ndarray) (j : nat) :
  Grid.shape a = (ny, nx) -> Grid.wf a -> (j < ny * nx)%nat ->
  exists x, Grid.data a !! j = Some x.
Proof.
  intros Hs Hw Hj. unfold Grid.wf in Hw. rewrite Hs in Hw. simpl in Hw.
  destruct (Grid.data a !! j) eqn:E; [eauto|].
  apply lookup_ge_None in E. lia.
Qed.

Lemma nearest_index_first_min
    (m : Grid.message) (lat0 lon0 : Q) (ny nx : nat)
    (Hlats : Grid.shape (Grid.lats m) = (ny, nx))
    (Hlons : Grid.shape (Grid.lons m) = (ny, nx))
    (Wlats : Grid.wf (Grid.lats m))
    (Wlons : Grid.wf (Grid.lons m))
    (Hcells : (0 < ny * nx)%nat) :
  exists i la lo,
    (i < ny * nx)%nat /\
    Grid.nearest_index (Grid.lats m) (Grid.lons m) lat0 lon0
      = Some ((i / nx)%nat, (i mod nx)%nat) /\
    Grid.data (Grid.lats m) !! i = Some la /\
    Grid.data (Grid.lons m) !! i = Some lo /\
    (forall j la' lo',
       Grid.data (Grid.lats m) !! j = Some la' ->
       Grid.data (Grid.lons m) !! j = Some lo' ->
       (d2_cell lat0 lon0 la lo <= d2_cell lat0 lon0 la' lo')%Q) /\
    (forall j la' lo', (j < i)%nat ->
       Grid.data (Grid.lats m) !! j = Some la' ->
       Grid.data (Grid.lons m) !! j = Some lo' ->
       (d2_cell lat0 lon0 la lo < d2_cell lat0 lon0 la' lo')%Q).
Proof.
  destruct (dist2_some (Grid.lats m) (Grid.lons m) lat0 lon0) as (d2 & Hd2 & Hsh & Hdata);
    [congruence|].
  assert (Hlen : length (Grid.data d2) = (ny * nx)%nat).
  { destruct (Nat.lt_ge_cases (length (Grid.data d2)) (ny * nx)) as [Hlt|Hge].
    - exfalso. pose proof (Hdata (length (Grid.data d2))) as H.
      rewrite (proj2 (lookup_ge_None (Grid.data d2) _)) in H by lia.
      destruct (cell_lookup ny nx (Grid.lats m) _ Hlats Wlats Hlt) as [la Hla].
      destruct (cell_lookup ny nx (Grid.lons m) _ Hlons Wlons Hlt) as [lo Hlo].
      rewrite Hla, Hlo in H. discriminate.
    - destruct (Nat.eq_dec (length (Grid.data d2)) (ny * nx)) as [E|N]; [exact E|].
      exfalso. assert (Hin : (ny * nx < length (Grid.data d2))%nat) by lia.
      apply lookup_lt_is_Some in Hin as [x Hx]. rewrite Hdata in Hx.
      unfold Grid.wf in Wlats. rewrite Hlats in Wlats. simpl in Wlats.
      rewrite (proj2 (lookup_ge_None (Grid.data (Grid.lats m)) _)) in Hx by lia.
      discriminate. }
  destruct (argmin_defined d2) as [r Hr].
  { intros E. rewrite E in Hlen. simpl in Hlen. lia. }
  pose proof (argmin_first_min d2 r Hr) as (dm & Hdm & Hle & Hlt).
  assert (Hri : (r < ny * nx)%nat) by (apply lookup_lt_Some in Hdm; lia).
  destruct (cell_lookup ny nx (Grid.lats m) r Hlats Wlats Hri) as [la Hla].
  destruct (cell_lookup ny nx (Grid.lons m) r Hlons Wlons Hri) as [lo Hlo].
  assert (Edm : dm = d2_cell lat0 lon0 la lo).
  { rewrite Hdata, Hla, Hlo in Hdm. simpl in Hdm. congruence. }
  subst dm.
  exists r, la, lo. split; [exact Hri|]. split.
  { unfold Grid.nearest_index. rewrite Hd2. simpl. rewrite Hr. simpl.
    rewrite Hsh, Hlats. apply unravel_ravel, Hri. }
  split; [exact Hla|]. split; [exact Hlo|]. split.
  - intros j la' lo' Hj1 Hj2. apply (Hle j).
    rewrite Hdata, Hj1, Hj2. reflexivity.
  - intros j la' lo' Hji Hj1 Hj2. apply (Hlt j); [exact Hji|].
    rewrite Hdata, Hj1, Hj2. reflexivity.
Qed.

Lemma nearest_tie_takes_first : Grid.nearest grid_tie (1 # 2) (1 # 2) = Some 10%Q.
Proof. reflexivity. Qed.



(** [extract_temps] samples every point of interest with the nearest-cell
    rule and stores the value in Celsius under the point's label. *)
Lemma extract_temps_fold_none (mt : Grid.message) (locs : list (string * Q * Q)) :
  foldl (fun acc loc => temps ← acc; Grid.extract_temps_step mt temps loc) None locs
  = None.
Proof. induction locs as [|loc locs IH]; [reflexivity|]. simpl. exact IH. Qed.

Lemma extract_temps_fold (mt : Grid.message) (locs : list (string * Q * Q)) :
  forall acc temps,
    foldl (fun acc loc => temps ← acc; Grid.extract_temps_step mt temps loc)
          (Some acc) locs = Some temps ->
    NoDup (map (fun p => fst (fst p)) locs) ->
    (forall l, ~ In l (map (fun p => fst (fst p)) locs) -> temps !! l = acc !! l) /\
    (forall label lat lon, In (label, lat, lon) locs ->
       exists v, Grid.nearest mt lat lon = Some v /\
                 temps !! label = Some (v - (27315 # 100))%Q).
Proof.
  induction locs as [|[[lb la] lo] locs IH]; intros acc temps Hfold Hnd.
  - simpl in Hfold. injection Hfold as <-. split; [reflexivity|]. intros ? ? ? [].
  - simpl in Hfold, Hnd. apply NoDup_cons in Hnd as [Hnotin Hnd].
    destruct (Grid.nearest mt la lo) as [t|] eqn:Hn; simpl in Hfold;
      [|rewrite extract_temps_fold_none in Hfold; discriminate].
    destruct (IH _ _ Hfold Hnd) as [Hother Hin].
    split.
    + intros l Hl. simpl in Hl. rewrite Hother by tauto.
      apply lookup_insert_ne. intros ->. apply Hl. left. reflexivity.
    + intros label lat lon [Heq|Hrest].
      * injection Heq as <- <- <-. exists t. split; [exact Hn|].
        rewrite Hother; [apply lookup_insert_eq|].
        intros Hin'. apply Hnotin. apply list_elem_of_In, Hin'.
      * apply Hin, Hrest.
Qed.

Lemma extract_temps_nearest (tfile : list Grid.message) (temps : gmap string Q) :
  Grid.extract_temps tfile = Some temps ->
  exists mt, Grid.select tfile "2 metre temperature" = Some mt /\
    forall label lat lon, In (label, lat, lon) LOCS ->
      exists v, Grid.nearest mt lat lon = Some v /\
                temps !! label = Some (v - (27315 # 100))%Q.
Proof.
  unfold Grid.extract_temps. intros H.
  destruct (Grid.select tfile "2 metre temperature") as [mt|]; [|discriminate].
  exists mt. split; [reflexivity|].
  simpl in H. apply (extract_temps_fold mt LOCS ∅ temps H).
  apply (bool_decide_unpack _). vm_compute. exact I.
Qed.

(** [extract_wind] finds the cell on the grid of the U message and reads
    both components at that one index. *)
Lemma extract_wind_same_index (ufile vfile : list Grid.message) (u v : Q) :
  Grid.extract_wind ufile vfile = Some (u, v) ->
  exists mu mv iy ix,
    Grid.select ufile "10 metre U wind component" = Some mu /\
    Grid.select vfile "10 metre V wind component" = Some mv /\
    Grid.nearest_index (Grid.lats mu) (Grid.lons mu)
      Grid.SQUAMISH_LAT Grid.SQUAMISH_LON = Some (iy, ix) /\
    Grid.getitem (Grid.values mu) iy ix = Some u /\
    Grid.getitem (Grid.values mv) iy ix = Some v.
Proof.
  unfold Grid.extract_wind. intros H.
  destruct (Grid.select ufile _) as [mu|] eqn:Hmu; [|discriminate]. simpl in H.
  destruct (Grid.nearest_index _ _ _ _) as [[iy ix]|] eqn:Hidx; [|discriminate].
  simpl in H.
  destruct (Grid.getitem (Grid.values mu) iy ix) as [u'|] eqn:Hu; [|discriminate].
  simpl in H.
  destruct (Grid.select vfile _) as [mv|] eqn:Hmv; [|discriminate]. simpl in H.
  destruct (Grid.getitem (Grid.values mv) iy ix) as [v'|] eqn:Hv; [|discriminate].
  simpl in H. injection H as <- <-.
  exists mu, mv, iy, ix. repeat split; assumption.
Qed.

Local Open Scope string_scope.

(** ** Temporary files of one forecast hour *)

Lemma bind_ok {A B : Type} (m : Hour.M A) (f : A -> Hour.M B) (s s' : Hour.state) (a : A) :
  m s = (Hour.Ok a, s') -> (m ≫= f) s = f a s'.
Proof. intros H. unfold mbind, Hour.M_bind. rewrite H. reflexivity. Qed.

Lemma bind_raise {A B : Type} (m : Hour.M A) (f : A -> Hour.M B) (s s' : Hour.state)
    (e : Hour.exn) :
  m s = (Hour.Raise e, s') -> (m ≫= f) s = (Hour.Raise e, s').
Proof. intros H. unfold mbind, Hour.M_bind. rewrite H. reflexivity. Qed.

Lemma download_ok (get : string -> Hour.get_result) (url : string)
    (c : list Grid.message) (s : Hour.state) :
  get url = Hour.GetResponse 200 (Hour.Complete c) ->
  Hour.download get url s =
    (Hour.Ok (fresh (dom (Hour.files s))),
     Hour.with_files (insert (fresh (dom (Hour.files s))) c) s).
Proof. intros H. unfold Hour.download. rewrite H. reflexivity. Qed.

Lemma download_bad_status (get : string -> Hour.get_result) (url : string)
    (code : Z) (b : Hour.body) (s : Hour.state) :
  get url = Hour.GetResponse code b -> code <> 200%Z ->
  Hour.download get url s = (Hour.Raise Hour.RuntimeError, s).
Proof.
  intros H Hc. unfold Hour.download. rewrite H.
  rewrite (proj2 (Z.eqb_neq _ _) Hc). reflexivity.
Qed.

(** Extraction reads the files and leaves the state as it is. *)
Lemma open_state (p : string) (s : Hour.state) : snd (Hour.open p s) = s.
Proof. unfold Hour.open. destruct (Hour.files s !! p); reflexivity. Qed.

Lemma lift_state {A : Type} (o : option A) (s : Hour.state) : snd (Hour.lift o s) = s.
Proof. destruct o; reflexivity. Qed.

Lemma var_state (x : Hour.state -> option string) (s : Hour.state) :
  snd (Hour.var x s) = s.
Proof. unfold Hour.var. destruct (x s); reflexivity. Qed.

Lemma pure_bind {A B : Type} (m : Hour.M A) (f : A -> Hour.M B) :
  pure_of m -> (forall a, pure_of (f a)) -> pure_of (m ≫= f).
Proof.
  intros Hm Hf s. unfold mbind, Hour.M_bind.
  pose proof (Hm s) as H1. destruct (m s) as [[a|e] s1]; simpl in H1; subst s1.
  - apply Hf.
  - reflexivity.
Qed.

Lemma pure_ret {A : Type} (a : A) : pure_of (mret a : Hour.M A).
Proof. intros s. reflexivity. Qed.

Lemma extraction_pure :
  pure_of (ufn ← Hour.var Hour.uf; vfn ← Hour.var Hour.vf;
           w ← Hour.extract_wind ufn vfn;
           tfn ← Hour.var Hour.tf; temps ← Hour.extract_temps tfn;
           mret (w, temps)).
Proof.
  repeat (apply pure_bind; [|intros ?]);
    try apply pure_ret; intros s;
    try apply var_state; try apply open_state; try apply lift_state.
Qed.

(** C4 (the code at the failing input): when the U download succeeds and
    the V download is answered 404, both variants raise with the temporary
    file of the U download still on disk; V1 reaches its [finally], which
    raises on the unbound [vf] before removing anything. *)
Theorem second_download_failure_leaks
    (fs : gmap string (list Grid.message)) (cu : list Grid.message) :
  let tmp := fresh (dom fs) in
  (tmp ∉ dom fs) /\
  (exists s2,
     Hour.fetch_hour_v2 (get_v_missing cu) ("U", "V", "T") (first_iteration fs)
       = (Hour.Raise Hour.RuntimeError, s2) /\
     Hour.files s2 = <[tmp := cu]> fs /\ tmp ∈ dom (Hour.files s2)) /\
  (exists s1,
     Hour.fetch_hour_v1 (get_v_missing cu) ("U", "V", "T") (first_iteration fs)
       = (Hour.Raise Hour.UnboundLocalError, s1) /\
     Hour.files s1 = <[tmp := cu]> fs /\ tmp ∈ dom (Hour.files s1)).
Proof.
  intros tmp. split; [apply is_fresh|].
  assert (Hin : tmp ∈ dom (<[tmp := cu]> fs)) by (rewrite dom_insert_L; set_solver).
  split.
  - eexists. split.
    { unfold Hour.fetch_hour_v2.
      erewrite bind_ok by (apply download_ok; reflexivity).
      erewrite bind_raise; [reflexivity|].
      apply (download_bad_status _ _ 404 Hour.Broken); [reflexivity|lia]. }
    split; [reflexivity|exact Hin].
  - eexists. split.
    { unfold Hour.fetch_hour_v1, Hour.finally.
      erewrite bind_ok by (apply download_ok; reflexivity).
      erewrite bind_ok by reflexivity.
      erewrite bind_raise
        by (apply (download_bad_status _ _ 404 Hour.Broken); [reflexivity|lia]).
      reflexivity. }
    split; [reflexivity|exact Hin].
Qed.

Lemma remove_ok (p : string) (s : Hour.state) :
  p ∈ dom (Hour.files s) ->
  Hour.remove p s = (Hour.Ok tt, Hour.with_files (delete p) s).
Proof. intros H. unfold Hour.remove. rewrite bool_decide_eq_true_2 by exact H. reflexivity. Qed.

Lemma exists_true (p : string) (s : Hour.state) :
  p ∈ dom (Hour.files s) -> Hour.exists_ p s = (Hour.Ok true, s).
Proof. intros H. unfold Hour.exists_. rewrite bool_decide_eq_true_2 by exact H. reflexivity. Qed.

(** Three files created under fresh names and removed again leave the
    directory as it was. *)
Lemma three_fresh_files (fs : gmap string (list Grid.message))
    (cu cv ct : list Grid.message) :
  let t1 := fresh (dom fs) in
  let f1 := <[t1 := cu]> fs in
  let t2 := fresh (dom f1) in
  let f2 := <[t2 := cv]> f1 in
  let t3 := fresh (dom f2) in
  let f3 := <[t3 := ct]> f2 in
  t1 ∈ dom f3 /\ t2 ∈ dom (delete t1 f3) /\ t3 ∈ dom (delete t2 (delete t1 f3)) /\
  delete t3 (delete t2 (delete t1 f3)) = fs.
Proof.
  intros t1 f1 t2 f2 t3 f3.
  assert (H1 : t1 ∉ dom fs) by apply is_fresh.
  assert (H2 : t2 ∉ dom f1) by apply is_fresh.
  assert (H3 : t3 ∉ dom f2) by apply is_fresh.
  assert (N12 : t1 <> t2).
  { intros E. apply H2. rewrite <- E. unfold f1. rewrite dom_insert_L. set_solver. }
  assert (N13 : t1 <> t3).
  { intros E. apply H3. rewrite <- E. unfold f2, f1. rewrite !dom_insert_L. set_solver. }
  assert (N23 : t2 <> t3).
  { intros E. apply H3. rewrite <- E. unfold f2. rewrite dom_insert_L. set_solver. }
  assert (E1 : delete t1 f3 = <[t3 := ct]> (<[t2 := cv]> fs)).
  { unfold f3, f2, f1. rewrite !delete_insert_ne by assumption.
    rewrite delete_insert_id; [reflexivity|]. apply not_elem_of_dom, H1. }
  assert (E2 : delete t2 (delete t1 f3) = <[t3 := ct]> fs).
  { rewrite E1. rewrite delete_insert_ne by assumption.
    rewrite delete_insert_id; [reflexivity|]. apply not_elem_of_dom.
    intros Hin. apply H2. unfold f1. rewrite dom_insert_L. set_solver. }
  split; [|split; [|split]].
  - unfold f3, f2, f1. rewrite !dom_insert_L. set_solver.
  - rewrite E1, !dom_insert_L. set_solver.
  - rewrite E2, dom_insert_L. set_solver.
  - rewrite E2. apply delete_insert_id. apply not_elem_of_dom.
    intros Hin. apply H3. unfold f2, f1. rewrite !dom_insert_L. set_solver.
Qed.

Lemma pure_run {A : Type} (m : Hour.M A) (Hm : pure_of m) (s : Hour.state) :
  m s = (fst (m s), s).
Proof. pose proof (Hm s) as H. destruct (m s) as [r s1]. simpl in *. congruence. Qed.

Lemma var_ok (x : Hour.state -> option string) (s : Hour.state) (v : string) :
  x s = Some v -> Hour.var x s = (Hour.Ok v, s).
Proof. intros H. unfold Hour.var. rewrite H. reflexivity. Qed.

Lemma finally_cleanup_v2 {A : Type} (body : Hour.M A) (s : Hour.state)
    (t1 t2 t3 : string) :
  pure_of body ->
  Hour.uf s = Some t1 -> Hour.vf s = Some t2 -> Hour.tf s = Some t3 ->
  t1 ∈ dom (Hour.files s) ->
  t2 ∈ dom (delete t1 (Hour.files s)) ->
  t3 ∈ dom (delete t2 (delete t1 (Hour.files s))) ->
  Hour.finally body
    (a ← Hour.var Hour.uf; b ← Hour.var Hour.vf; c ← Hour.var Hour.tf;
     Hour.for_each [a; b; c] Hour.remove) s
  = (fst (body s),
     Hour.with_files (fun f => delete t3 (delete t2 (delete t1 f))) s).
Proof.
  intros Hpure Hu Hv Ht I1 I2 I3. unfold Hour.finally.
  pose proof (Hpure s) as Hs. destruct (body s) as [r s1]. simpl in Hs. subst s1.
  erewrite bind_ok by (apply var_ok; exact Hu).
  erewrite bind_ok by (apply var_ok; exact Hv).
  erewrite bind_ok by (apply var_ok; exact Ht).
  simpl Hour.for_each.
  erewrite bind_ok by (apply remove_ok; exact I1).
  erewrite bind_ok by (apply remove_ok; exact I2).
  erewrite bind_ok by (apply remove_ok; exact I3).
  reflexivity.
Qed.

Lemma finally_cleanup_v1 {A : Type} (body : Hour.M A) (s s' : Hour.state)
    (r : Hour.result A) (t1 t2 t3 : string) :
  body s = (r, s') ->
  Hour.uf s' = Some t1 -> Hour.vf s' = Some t2 -> Hour.tf s' = Some t3 ->
  t1 ∈ dom (Hour.files s') ->
  t2 ∈ dom (delete t1 (Hour.files s')) ->
  t3 ∈ dom (delete t2 (delete t1 (Hour.files s'))) ->
  Hour.finally body
    (a ← Hour.var Hour.uf; b ← Hour.var Hour.vf; c ← Hour.var Hour.tf;
     Hour.for_each [a; b; c]
       (fun f => e ← Hour.exists_ f; if e : bool then Hour.remove f else mret tt)) s
  = (r, Hour.with_files (fun f => delete t3 (delete t2 (delete t1 f))) s').
Proof.
  intros Hbody Hu Hv Ht I1 I2 I3. unfold Hour.finally. rewrite Hbody.
  erewrite bind_ok by (apply var_ok; exact Hu).
  erewrite bind_ok by (apply var_ok; exact Hv).
  erewrite bind_ok by (apply var_ok; exact Ht).
  simpl Hour.for_each.
  erewrite bind_ok by (erewrite bind_ok by (apply exists_true; exact I1);
                       apply remove_ok; exact I1).
  erewrite bind_ok by (erewrite bind_ok by (apply exists_true; exact I2);
                       apply remove_ok; exact I2).
  erewrite bind_ok by (erewrite bind_ok by (apply exists_true; exact I3);
                       apply remove_ok; exact I3).
  reflexivity.
Qed.

(** When the three downloads succeed, the files they created are gone on
    every exit, whatever the extraction does: this is the part of the
    release guarantee the [try]/[finally] delivers. *)
Lemma temp_files_released_after_downloads
    (get : string -> Hour.get_result) (uurl vurl turl : string)
    (cu cv ct : list Grid.message) (s : Hour.state) :
  get uurl = Hour.GetResponse 200 (Hour.Complete cu) ->
  get vurl = Hour.GetResponse 200 (Hour.Complete cv) ->
  get turl = Hour.GetResponse 200 (Hour.Complete ct) ->
  Hour.files (snd (Hour.fetch_hour_v2 get (uurl, vurl, turl) s)) = Hour.files s /\
  Hour.files (snd (Hour.fetch_hour_v1 get (uurl, vurl, turl) s)) = Hour.files s.
Proof.
  intros Hu Hv Ht.
  destruct (three_fresh_files (Hour.files s) cu cv ct) as (I1 & I2 & I3 & Hback).
  cbv zeta in I1, I2, I3, Hback.
  split.
  - unfold Hour.fetch_hour_v2.
    erewrite bind_ok by (apply download_ok; exact Hu).
    erewrite bind_ok by (apply download_ok; exact Hv).
    erewrite bind_ok by (apply download_ok; exact Ht).
    do 3 (erewrite bind_ok by reflexivity).
    erewrite finally_cleanup_v2;
      [ | apply extraction_pure | reflexivity | reflexivity | reflexivity
        | exact I1 | exact I2 | exact I3 ].
    exact Hback.
  - unfold Hour.fetch_hour_v1.
    erewrite finally_cleanup_v1; cycle 1.
    + erewrite bind_ok by (apply download_ok; exact Hu).
      erewrite bind_ok by reflexivity.
      erewrite bind_ok by (apply download_ok; exact Hv).
      erewrite bind_ok by reflexivity.
      erewrite bind_ok by (apply download_ok; exact Ht).
      erewrite bind_ok by reflexivity.
      apply (pure_run _ extraction_pure).
    + reflexivity.
    + reflexivity.
    + reflexivity.
    + exact I1.
    + exact I2.
    + exact I3.
    + exact Hback.
Qed.

(** A body that breaks off while it is read leaves the file [download]
    had just created: the name never reaches the caller. *)
Lemma download_broken_leaks (get : string -> Hour.get_result) (url : string)
    (s : Hour.state) :
  get url = Hour.GetResponse 200 Hour.Broken ->
  exists s', Hour.download get url s = (Hour.Raise Hour.RequestException, s') /\
    (fresh (dom (Hour.files s)) ∉ dom (Hour.files s)) /\
    fresh (dom (Hour.files s)) ∈ dom (Hour.files s').
Proof.
  intros H. unfold Hour.download. rewrite H. simpl. eexists. split; [reflexivity|].
  split; [apply is_fresh|]. simpl. rewrite dom_insert_L. set_solver.
Qed.

Lemma exists_false (p : string) (s : Hour.state) :
  p ∉ dom (Hour.files s) -> Hour.exists_ p s = (Hour.Ok false, s).
Proof.
  intros H. unfold Hour.exists_. rewrite bool_decide_eq_false_2 by exact H. reflexivity.
Qed.

(** In a later iteration of V1 the names of the previous hour are still
    bound, and its [finally] does remove the file of a U download whose V
    download fails: the leak of the first iteration is a matter of the
    unbound names only. *)
Lemma v1_later_iteration_releases
    (get : string -> Hour.get_result) (uurl vurl turl : string)
    (cu : list Grid.message) (code : Z) (b : Hour.body) (s : Hour.state)
    (a0 b0 c0 : string) :
  get uurl = Hour.GetResponse 200 (Hour.Complete cu) ->
  get vurl = Hour.GetResponse code b -> code <> 200%Z ->
  Hour.uf s = Some a0 -> Hour.vf s = Some b0 -> Hour.tf s = Some c0 ->
  b0 ∉ dom (Hour.files s) -> c0 ∉ dom (Hour.files s) ->
  exists s',
    Hour.fetch_hour_v1 get (uurl, vurl, turl) s = (Hour.Raise Hour.RuntimeError, s') /\
    Hour.files s' = Hour.files s.
Proof.
  intros Hu Hv Hcode Huf Hvf Htf Hb0 Hc0.
  set (tmp := fresh (dom (Hour.files s))).
  assert (Hfresh : tmp ∉ dom (Hour.files s)) by apply is_fresh.
  assert (Hback : delete tmp (<[tmp := cu]> (Hour.files s)) = Hour.files s).
  { apply delete_insert_id. apply not_elem_of_dom, Hfresh. }
  eexists. split.
  - unfold Hour.fetch_hour_v1, Hour.finally.
    erewrite bind_ok by (apply download_ok; exact Hu).
    erewrite bind_ok by reflexivity.
    erewrite bind_raise by (eapply download_bad_status; [exact Hv|exact Hcode]).
    erewrite bind_ok by (apply var_ok; reflexivity).
    erewrite bind_ok by (apply var_ok; exact Hvf).
    erewrite bind_ok by (apply var_ok; exact Htf).
    simpl Hour.for_each.
    erewrite bind_ok.
    2:{ erewrite bind_ok.
        2:{ apply exists_true. simpl. rewrite dom_insert_L. set_solver. }
        apply remove_ok. simpl. rewrite dom_insert_L. set_solver. }
    erewrite bind_ok.
    2:{ erewrite bind_ok.
        2:{ apply exists_false. simpl. fold tmp. rewrite Hback. exact Hb0. }
        reflexivity. }
    erewrite bind_ok.
    2:{ erewrite bind_ok.
        2:{ apply exists_false. simpl. fold tmp. rewrite Hback. exact Hc0. }
        reflexivity. }
    reflexivity.
  - simpl. fold tmp. exact Hback.
Qed.

(** ** The marine feed: filtering *)


Section ParserFacts.

Variable strptime : string -> string -> option Run.datetime.
Variable strftime : Run.datetime -> string -> string.
Variable region_filter : string.


End ParserFacts.



(** ** The marine feed: failures *)

(** The failures of the feed: the transport raises, the status is an
    error, the body does not parse, or an entry lacks a child the parser
    reads. *)
Lemma marine_failure_cases
    (strptime : string -> string -> option Run.datetime)
    (strftime : Run.datetime -> string -> string) (region_filter : string) :
  Marine.get_marine_forecast_body strptime strftime Marine.GetRaises region_filter
    = inl Marine.RequestException /\
  (forall status doc, (400 <= status < 600)%Z ->
     Marine.get_marine_forecast_body strptime strftime
       (Marine.Response status doc) region_filter = inl Marine.HTTPError) /\
  (forall status, (status < 400 \/ 600 <= status)%Z ->
     Marine.get_marine_forecast_body strptime strftime
       (Marine.Response status None) region_filter = inl Marine.ParseError) /\
  (forall status e rest, (status < 400 \/ 600 <= status)%Z ->
     Marine.title e = Marine.Absent ->
     Marine.get_marine_forecast_body strptime strftime
       (Marine.Response status (Some (e :: rest))) region_filter
     = inl Marine.AttributeError).
Proof.
  split; [reflexivity|]. split; [|split].
  - intros status doc Hs. unfold Marine.get_marine_forecast_body.
    replace ((400 <=? status) && (status <? 600))%Z with true; [reflexivity|].
    symmetry. apply andb_true_iff. split; lia.
  - intros status Hs. unfold Marine.get_marine_forecast_body.
    replace ((400 <=? status) && (status <? 600))%Z with false; [reflexivity|].
    symmetry. apply andb_false_iff. destruct Hs; [left|right]; lia.
  - intros status e rest Hs He. unfold Marine.get_marine_forecast_body.
    replace ((400 <=? status) && (status <? 600))%Z with false.
    + simpl. rewrite He. reflexivity.
    + symmetry. apply andb_false_iff. destruct Hs; [left|right]; lia.
Qed.

(** C9: whenever fetching or parsing the feed fails, [get_marine_forecast]
    returns the empty list (after printing the error), the section prints
    "No marine forecasts available for Howe Sound." and returns, and
    [main] goes on to the table: its lines follow those of the section. *)
Theorem marine_failure_degrades
    (strptime : string -> string -> option Run.datetime)
    (strftime : Run.datetime -> string -> string)
    (exn_str : Marine.exn -> string)
    (A : Type) (table : list string * A)
    (f : Marine.feed) (e : Marine.exn)
    (Hfail : Marine.get_marine_forecast_body strptime strftime f "Howe Sound" = inl e) :
  Marine.get_marine_forecast strptime strftime exn_str f "Howe Sound"
    = ([], ["Error retrieving marine forecast: " +:+ exn_str e]) /\
  Marine.display_marine_forecasts strptime strftime exn_str f
    = [ Marine.LF +:+ "Forecast for Today, Tonight and Sunday - Howe Sound";
        Marine.rule "=";
        "Error retrieving marine forecast: " +:+ exn_str e;
        "No marine forecasts available for Howe Sound." +:+ Marine.LF ] /\
  Marine.main strptime strftime exn_str f table
    = ((Marine.display_marine_forecasts strptime strftime exn_str f ++ fst table)%list,
       snd table).
Proof.
  assert (Hget : Marine.get_marine_forecast strptime strftime exn_str f "Howe Sound"
                 = ([], ["Error retrieving marine forecast: " +:+ exn_str e])).
  { unfold Marine.get_marine_forecast. rewrite Hfail. reflexivity. }
  split; [exact Hget|]. split; [|reflexivity].
  unfold Marine.display_marine_forecasts. rewrite Hget. reflexivity.
Qed.

Lemma marine_failure_degrades_witness :
  Marine.main (fun _ _ => None) (fun _ _ => "") (fun _ => "timeout")
    Marine.GetRaises (["Time ..."], tt)
  = ([ Marine.LF +:+ "Forecast for Today, Tonight and Sunday - Howe Sound";
       Marine.rule "=";
       "Error retrieving marine forecast: timeout";
       "No marine forecasts available for Howe Sound." +:+ Marine.LF;
       "Time ..." ], tt).
Proof.
  destruct (marine_failure_degrades (fun _ _ => None) (fun _ _ => "")
              (fun _ => "timeout") unit (["Time ..."], tt)
              Marine.GetRaises Marine.RequestException eq_refl) as (_ & Hd & Hm).
  rewrite Hm, Hd. reflexivity.
Defined.

(** ** Phrase highlighting *)

Lemma sapp_cons (x : ascii) (a b : string) : String x a +:+ b = String x (a +:+ b).
Proof. reflexivity. Qed.

Lemma sapp_nil_l (a : string) : "" +:+ a = a.
Proof. reflexivity. Qed.

Ltac sapp := repeat progress (simpl in *; rewrite ?sapp_cons, ?sapp_nil_l in *).

Lemma sapp_assoc (a b c : string) : (a +:+ b) +:+ c = a +:+ (b +:+ c).
Proof. induction a as [|x a IH]; sapp; [reflexivity|]. rewrite IH. reflexivity. Qed.

Lemma sapp_nil_r (a : string) : a +:+ "" = a.
Proof. induction a as [|x a IH]; sapp; [reflexivity|]. rewrite IH. reflexivity. Qed.

Lemma slength_app (a b : string) :
  String.length (a +:+ b) = (String.length a + String.length b)%nat.
Proof. induction a as [|x a IH]; sapp; [reflexivity|]. rewrite IH. reflexivity. Qed.

Lemma take_drop (n : nat) (s : string) : Py.take n s +:+ Py.drop n s = s.
Proof.
  revert s. induction n as [|n IH]; intros [|c s]; sapp; try reflexivity.
  rewrite IH. reflexivity.
Qed.

Lemma take_app_length (a b : string) : Py.take (String.length a) (a +:+ b) = a.
Proof. induction a as [|x a IH]; sapp; [destruct b; reflexivity|]. rewrite IH. reflexivity. Qed.

Lemma drop_app_length (a b : string) : Py.drop (String.length a) (a +:+ b) = b.
Proof. induction a as [|x a IH]; sapp; [destruct b; reflexivity|]. exact IH. Qed.

Lemma sapp_inv_length (a a' b b' : string) :
  a +:+ b = a' +:+ b' -> String.length a = String.length a' -> a = a' /\ b = b'.
Proof.
  revert a'. induction a as [|x a IH]; intros [|x' a'] H Hlen; sapp;
    try discriminate.
  - split; [reflexivity|assumption].
  - injection H as -> H. injection Hlen as Hlen.
    destruct (IH a' H Hlen) as [-> ->]. split; reflexivity.
Qed.

Lemma lower_length (s : string) : String.length (Py.lower s) = String.length s.
Proof. induction s as [|c s IH]; simpl; [reflexivity|]. rewrite IH. reflexivity. Qed.

Lemma startswith_iff (s p : string) :
  Py.startswith s p = true <-> exists rest, s = p +:+ rest.
Proof.
  revert s. induction p as [|a p IH]; intros s.
  - split; [intros _; exists s; reflexivity | destruct s; reflexivity].
  - destruct s as [|b s]; simpl.
    + split; [discriminate | intros [rest H]; discriminate].
    + rewrite andb_true_iff, IH. split.
      * intros [Hab [rest ->]]. apply Ascii.eqb_eq in Hab as ->. exists rest. reflexivity.
      * intros [rest H]. injection H as -> ->. split; [apply Ascii.eqb_refl|].
        exists rest. reflexivity.
Qed.

Lemma startswith_ci_iff (s p : string) :
  Py.startswith_ci s p = true <-> exists h rest, s = h +:+ rest /\ Py.lower h = p.
Proof.
  revert s. induction p as [|a p IH]; intros s.
  - split; [|destruct s; reflexivity]. intros _. exists "", s. split; reflexivity.
  - destruct s as [|b s]; simpl.
    + split; [discriminate|]. intros (h & rest & H & Hl).
      destruct h; simpl in *; discriminate.
    + rewrite andb_true_iff, IH. split.
      * intros [Hab (h & rest & -> & <-)]. apply Ascii.eqb_eq in Hab as ->.
        exists (String b h), rest. split; reflexivity.
      * intros (h & rest & H & Hl). destruct h as [|b' h]; simpl in *; [discriminate|].
        injection H as -> ->. injection Hl as <- <-.
        split; [apply Ascii.eqb_refl|]. exists h, rest. split; reflexivity.
Qed.

Lemma lazy_dots_some (tail s : string) (k : nat) :
  Py.lazy_dots s tail = Some k ->
  (exists mid rest,
     s = mid +:+ rest /\ String.length mid = k /\ one_line mid /\
     Py.startswith_ci rest tail = true) /\
  (forall mid' rest', s = mid' +:+ rest' -> Py.startswith_ci rest' tail = true ->
     (k <= String.length mid')%nat).
Proof.
  revert k. induction s as [|c s IH]; intros k H.
  - cbn [Py.lazy_dots] in H. destruct (Py.startswith_ci "" tail) eqn:E; [|discriminate].
    injection H as <-. split; [|intros; lia].
    exists "", "". repeat split; assumption.
  - cbn [Py.lazy_dots] in H.
    destruct (Py.startswith_ci (String c s) tail) eqn:E.
    + injection H as <-. split; [|intros; lia].
      exists "", (String c s). repeat split; assumption.
    + destruct (Ascii.eqb c Py.newline) eqn:Ec; [discriminate|].
      destruct (Py.lazy_dots s tail) as [k'|] eqn:Ek; [|discriminate].
      simpl in H. injection H as <-.
      destruct (IH k' eq_refl) as [(mid & rest & -> & Hlen & Hline & Hst) Hmin].
      split.
      * exists (String c mid), rest. simpl. repeat split; try assumption.
        -- congruence.
        -- apply Ascii.eqb_neq, Ec.
      * intros [|c' mid'] rest' Hs Hst'; rewrite ?sapp_cons, ?sapp_nil_l in Hs.
        -- subst rest'. congruence.
        -- injection Hs as <- Hs. simpl. apply le_n_S. exact (Hmin mid' rest' Hs Hst').
Qed.

Lemma lazy_dots_none (tail s : string) :
  Py.lazy_dots s tail = None ->
  forall mid rest, s = mid +:+ rest -> one_line mid -> Py.startswith_ci rest tail = false.
Proof.
  induction s as [|c s IH]; intros H mid rest Hs Hline.
  - destruct mid; [|discriminate]. rewrite ?sapp_cons, ?sapp_nil_l in Hs. subst rest.
    cbn [Py.lazy_dots] in H.
    destruct (Py.startswith_ci "" tail); [discriminate|reflexivity].
  - cbn [Py.lazy_dots] in H.
    destruct (Py.startswith_ci (String c s) tail) eqn:E; [discriminate|].
    destruct mid as [|c' mid]; rewrite ?sapp_cons, ?sapp_nil_l in Hs.
    + subst rest. exact E.
    + injection Hs as <- Hs. destruct Hline as [Hc Hline].
      destruct (Ascii.eqb c Py.newline) eqn:Ec.
      * apply Ascii.eqb_eq in Ec. contradiction.
      * destruct (Py.lazy_dots s tail) eqn:Ek; [discriminate|].
        exact (IH eq_refl mid rest Hs Hline).
Qed.

Lemma match_at_some (lit1 lit2 s : string) (n : nat) :
  Py.match_at lit1 lit2 s = Some n ->
  (exists m rest, s = m +:+ rest /\ String.length m = n /\ is_phrase lit1 lit2 m) /\
  (forall m' rest', is_phrase lit1 lit2 m' -> s = m' +:+ rest' ->
     (n <= String.length m')%nat).
Proof.
  unfold Py.match_at. intros H.
  destruct (Py.startswith_ci s lit1) eqn:E1; [|discriminate].
  apply startswith_ci_iff in E1 as (h & r1 & -> & Hh).
  assert (Hlen : String.length lit1 = String.length h)
    by (rewrite <- Hh; apply lower_length).
  rewrite Hlen, drop_app_length in H.
  destruct (Py.lazy_dots r1 lit2) as [k|] eqn:Ek; [|discriminate].
  simpl in H. injection H as <-.
  destruct (lazy_dots_some lit2 r1 k Ek) as [(mid & r2 & -> & Hk & Hline & Hst) Hmin].
  apply startswith_ci_iff in Hst as (t & rest & -> & Ht).
  split.
  - exists (h +:+ mid +:+ t), rest. split; [|split].
    + rewrite !sapp_assoc. reflexivity.
    + rewrite !slength_app, Hk, <- Ht, lower_length. lia.
    + exists h, mid, t. repeat split; assumption.
  - intros m' rest' (h' & mid' & t' & -> & Hh' & Ht' & Hline') Hs.
    rewrite !sapp_assoc in Hs.
    assert (Hlen' : String.length h = String.length h').
    { rewrite <- (lower_length h), <- (lower_length h'). congruence. }
    destruct (sapp_inv_length _ _ _ _ Hs Hlen') as [-> Hr].
    assert (Hk' : (k <= String.length mid')%nat).
    { apply (Hmin mid' (t' +:+ rest') Hr). apply startswith_ci_iff.
      exists t', rest'. split; [reflexivity|assumption]. }
    assert (Hl2 : String.length lit2 = String.length t')
      by (rewrite <- Ht'; apply lower_length).
    rewrite !slength_app. lia.
Qed.

Lemma match_at_none (lit1 lit2 s : string) :
  Py.match_at lit1 lit2 s = None ->
  forall m rest, is_phrase lit1 lit2 m -> s <> m +:+ rest.
Proof.
  unfold Py.match_at. intros H m rest (h & mid & t & -> & Hh & Ht & Hline) Hs.
  rewrite !sapp_assoc in Hs.
  assert (E1 : Py.startswith_ci s lit1 = true).
  { apply startswith_ci_iff. exists h, (mid +:+ t +:+ rest). split; assumption. }
  rewrite E1 in H.
  assert (Hlen : String.length lit1 = String.length h)
    by (rewrite <- Hh; apply lower_length).
  rewrite Hs, Hlen, drop_app_length in H.
  destruct (Py.lazy_dots (mid +:+ t +:+ rest) lit2) as [k|] eqn:Ek; [discriminate|].
  pose proof (lazy_dots_none lit2 _ Ek mid (t +:+ rest) eq_refl Hline) as Hno.
  assert (Hyes : Py.startswith_ci (t +:+ rest) lit2 = true).
  { apply startswith_ci_iff. exists t, rest. split; [reflexivity|assumption]. }
  congruence.
Qed.

Lemma re_sub_marked (lit1 lit2 opening closing : string) :
  lit1 <> "" ->
  forall s, Marked (is_phrase lit1 lit2) opening closing s
              (Py.re_sub lit1 lit2 opening closing s).
Proof.
  intros Hlit s.
  assert (Hind : forall n s, (String.length s <= n)%nat ->
            Marked (is_phrase lit1 lit2) opening closing s
              (Py.re_sub lit1 lit2 opening closing s)).
  { clear s. induction n as [|n IH]; intros s Hn.
    - destruct s; [|simpl in Hn; lia]. simp re_sub. constructor.
    - destruct s as [|c rest]; [simp re_sub; constructor|].
      simp re_sub.
      destruct (Py.match_at lit1 lit2 (String c rest)) as [k|] eqn:Ek; simpl.
      + destruct (match_at_some _ _ _ _ Ek) as [(m & r & Hs & Hk & Hm) Hmin].
        assert (Hm0 : m <> "").
        { destruct Hm as (h & mid & t & -> & Hh & _).
          destruct h; [simpl in Hh; congruence | discriminate]. }
        assert (Hk0 : k = S (pred k)).
        { destruct m; [congruence|]. simpl in Hk. lia. }
        assert (Hdrop : Py.drop (pred k) rest = r).
        { change (Py.drop (pred k) rest) with (Py.drop (S (pred k)) (String c rest)).
          rewrite <- Hk0, Hs, <- Hk. apply drop_app_length. }
        assert (Htake : Py.take k (String c rest) = m).
        { rewrite Hs, <- Hk. apply take_app_length. }
        rewrite Hdrop, Htake, Hs.
        apply Marked_span; try assumption.
        * intros m' rest' Hm' E. rewrite Hk. apply (Hmin m' rest' Hm').
          rewrite Hs. exact E.
        * apply IH. simpl in Hn.
          assert (String.length (String c rest) = String.length m + String.length r)%nat
            by (rewrite Hs; apply slength_app).
          simpl in H. destruct m; [congruence|]. simpl in H. lia.
      + apply Marked_char.
        * apply (match_at_none _ _ _ Ek).
        * apply IH. simpl in Hn. lia. }
  apply (Hind (String.length s)). lia.
Qed.

Lemma replace_marked (old opening closing : string) :
  old <> "" ->
  forall s, Marked (eq old) opening closing s
              (Py.replace s old (opening +:+ old +:+ closing)).
Proof.
  intros Hold s.
  assert (Hind : forall n s, (String.length s <= n)%nat ->
            Marked (eq old) opening closing s
              (Py.replace s old (opening +:+ old +:+ closing))).
  { clear s. induction n as [|n IH]; intros s Hn.
    - destruct s; [|simpl in Hn; lia]. simp replace. constructor.
    - destruct s as [|c rest]; [simp replace; constructor|].
      simp replace.
      destruct (Py.startswith (String c rest) old) eqn:Ek; simpl.
      + apply startswith_iff in Ek as [r Hs].
        assert (Hk0 : String.length old = S (pred (String.length old))).
        { destruct old; [congruence|]. simpl. lia. }
        assert (Hdrop : Py.drop (pred (String.length old)) rest = r).
        { change (Py.drop (pred (String.length old)) rest)
            with (Py.drop (S (pred (String.length old))) (String c rest)).
          rewrite <- Hk0, Hs. apply drop_app_length. }
        rewrite Hdrop, Hs, !sapp_assoc.
        apply Marked_span; try assumption; try reflexivity.
        * intros m' rest' <- _. lia.
        * apply IH. simpl in Hn.
          assert (String.length (String c rest) = String.length old + String.length r)%nat
            by (rewrite Hs; apply slength_app).
          simpl in H. lia.
      + apply Marked_char.
        * intros m r <- Hs.
          assert (Py.startswith (String c rest) old = true)
            by (apply startswith_iff; exists r; exact Hs).
          congruence.
        * apply IH. simpl in Hn. lia. }
  apply (Hind (String.length s)). lia.
Qed.

(** C7 (as stated): the text holds a match of the inflow pattern, its
    first 24 characters, and the result holds no inflow marker: the
    warning marker, inserted first, has split the phrase. *)
Lemma highlight_split_phrase_unmarked :
  is_phrase "inflow" "northern sections" (Py.take 24 text_shared_s) /\
  Py.match_at "inflow" "northern sections" text_shared_s = Some 24%nat /\
  Marine.highlight text_shared_s =
    "inflow northern section" +:+ Marine.H_RED
    +:+ "STRONG WIND WARNING IN EFFECT" +:+ Marine.H_RESET /\
  Py.contains (Marine.highlight text_shared_s) Marine.H_GREEN = false.
Proof.
  split; [|split; [|split]]; try reflexivity.
  exists "inflow", " ", "northern sectionS".
  repeat split; try reflexivity. intros H. discriminate H.
Qed.

(** C7 (amended): the three rules run one after another, each on the text
    the previous one returned. The first wraps every occurrence of the
    literal "STRONG WIND WARNING IN EFFECT" in the warning marker; the
    second wraps, in the inflow marker, every leftmost shortest span of
    its input that starts with "inflow" and ends with "northern sections"
    in any case without a line break between; the third does the same in
    the outflow marker for "outflow" and "southern sections". Each rule
    copies every character outside its spans, so a phrase that an earlier
    marker has split stays unmarked. The two examples of the specification
    hold. *)
Theorem highlight_marks_in_sequence (text : string) :
  Marked (eq "STRONG WIND WARNING IN EFFECT") Marine.H_RED Marine.H_RESET
    text (Marine.highlight_warning text) /\
  Marked (is_phrase "inflow" "northern sections") Marine.H_GREEN Marine.H_RESET
    (Marine.highlight_warning text)
    (Marine.highlight_inflow (Marine.highlight_warning text)) /\
  Marked (is_phrase "outflow" "southern sections") Marine.H_BLUE Marine.H_RESET
    (Marine.highlight_inflow (Marine.highlight_warning text))
    (Marine.highlight text) /\
  Marine.highlight "... STRONG WIND WARNING IN EFFECT for Howe Sound" =
    "... " +:+ Marine.H_RED +:+ "STRONG WIND WARNING IN EFFECT" +:+ Marine.H_RESET
    +:+ " for Howe Sound" /\
  Marine.highlight "Outflow winds reach 30 knots in southern sections" =
    Marine.H_BLUE +:+ "Outflow winds reach 30 knots in southern sections"
    +:+ Marine.H_RESET.
Proof.
  split; [|split; [|split; [|split]]].
  - apply replace_marked. discriminate.
  - apply re_sub_marked. discriminate.
  - apply re_sub_marked. discriminate.
  - reflexivity.
  - reflexivity.
Qed.

(** * Further properties of the code *)

(** ** The selected run *)

Lemma find_best_run_cases (strftime : Run.datetime -> string -> string)
    (head : string -> Run.head_result) (now : Run.datetime) :
  fst (Run.find_best_run strftime head now) = Run.candidate now \/
  fst (Run.find_best_run strftime head now) = previous_cycle now.
Proof.
  unfold Run.find_best_run.
  destruct (Run.grib_urls strftime (Run.candidate now) 0) as [[uurl vurl] turl].
  rewrite candidate_sub_12.
  destruct (head uurl) as [|code]; [right; reflexivity|].
  destruct (negb (code =? 200)%Z); [right|left]; reflexivity.
Qed.

(** X1: whatever the probe answers, the run [find_best_run] selects is
    aligned to 00Z or 12Z with minute, second and microsecond zero, and
    for a clock reading within its ranges it is not after [now] and less
    than 24 hours before it. *)
Theorem find_best_run_aligned_and_recent
    (strftime : Run.datetime -> string -> string)
    (head : string -> Run.head_result) (now : Run.datetime)
    (Hnow : valid_clock now) :
  let run := fst (Run.find_best_run strftime head now) in
  (Run.hour run = 0 \/ Run.hour run = 12)%Z /\
  Run.minute run = 0%Z /\ Run.second run = 0%Z /\ Run.microsecond run = 0%Z /\
  (Run.to_seconds run <= Run.to_seconds now < Run.to_seconds run + 86400)%Z.
Proof.
  intros run. destruct Hnow as (Hh & Hm & Hs).
  destruct (find_best_run_cases strftime head now) as [E|E]; unfold run; rewrite E;
    unfold Run.candidate, previous_cycle, Run.replace_hour, Run.to_seconds;
    destruct (Z.leb_spec 12 (Run.hour now));
    cbn [Run.day Run.hour Run.minute Run.second Run.microsecond];
    repeat split; try lia; auto.
Qed.

Lemma find_best_run_aligned_and_recent_witness :
  valid_clock clock_sample /\
  (Run.to_seconds (fst (Run.find_best_run (fun _ _ => "") (fun _ => Run.HeadRaises)
                          clock_sample))
   <= Run.to_seconds clock_sample)%Z.
Proof.
  assert (H : valid_clock clock_sample) by (vm_compute; intuition discriminate).
  split; [exact H|].
  exact (proj1 (proj2 (proj2 (proj2 (proj2
    (find_best_run_aligned_and_recent (fun _ _ => "") (fun _ => Run.HeadRaises)
       clock_sample H)))))).
Defined.

(** ** The forecast hour in a locator *)

Lemma zeros_cons (n : nat) :
  String.concat "" (replicate (S n) "0") = String "0" (String.concat "" (replicate n "0")).
Proof.
  cbn [replicate String.concat]. destruct (replicate n "0") eqn:E.
  - destruct n; [reflexivity|discriminate].
  - reflexivity.
Qed.

Lemma zeros_length (n : nat) : String.length (String.concat "" (replicate n "0")) = n.
Proof.
  induction n as [|n IH]; [reflexivity|].
  rewrite zeros_cons. simpl. rewrite IH. reflexivity.
Qed.

Lemma to_uint_not_nil (n : N) : N.to_uint n <> Decimal.Nil.
Proof.
  destruct n as [|p]; [discriminate|]. simpl.
  intros H. pose proof (DecimalPos.Unsigned.of_to p) as Hof.
  rewrite H in Hof. discriminate.
Qed.

Lemma digits_nilzero (n : N) :
  NilZero.string_of_uint (N.to_uint n) = NilEmpty.string_of_uint (N.to_uint n).
Proof.
  pose proof (to_uint_not_nil n). destruct (N.to_uint n); [congruence|reflexivity..].
Qed.

Lemma decode_nat_zeros (k : nat) (n : N) :
  decode_nat (String.concat "" (replicate k "0")
              +:+ NilZero.string_of_uint (N.to_uint n)) = Some n.
Proof.
  unfold decode_nat. rewrite digits_nilzero.
  assert (H : exists d, NilEmpty.uint_of_string
                (String.concat "" (replicate k "0")
                 +:+ NilEmpty.string_of_uint (N.to_uint n)) = Some d
              /\ N.of_uint d = n).
  { induction k as [|k (d & Hd & Hn)].
    - exists (N.to_uint n). split; [apply NilEmpty.usu | apply DecimalN.Unsigned.of_to].
    - exists (Decimal.D0 d). rewrite zeros_cons, sapp_cons. split.
      + cbn [NilEmpty.uint_of_string]. rewrite Hd. reflexivity.
      + exact Hn. }
  destruct H as (d & -> & Hn). simpl. congruence.
Qed.

Lemma decode_int_of_nat (s : string) (n : N) :
  decode_nat s = Some n -> decode_int s = Some (Z.of_N n).
Proof.
  intros H. destruct s as [|c r]; [unfold decode_int; rewrite H; reflexivity|].
  assert (Hc : c <> "-"%char).
  { intros ->. unfold decode_nat in H. cbn [NilEmpty.uint_of_string] in H.
    destruct (NilEmpty.uint_of_string r); discriminate. }
  unfold decode_int.
  destruct c as [[|] [|] [|] [|] [|] [|] [|] [|]];
    try (rewrite H; reflexivity).
  contradiction Hc. reflexivity.
Qed.

Lemma fmt_03d_decode (fh : Z) : decode_int (Run.fmt_03d fh) = Some fh.
Proof.
  unfold Run.fmt_03d.
  destruct (Z.ltb_spec fh 0) as [Hneg|Hpos].
  - rewrite sapp_cons, sapp_nil_l. unfold decode_int.
    rewrite decode_nat_zeros. simpl. f_equal. rewrite N2Z.inj_abs_N. lia.
  - rewrite sapp_nil_l. rewrite (decode_int_of_nat _ (Z.abs_N fh)).
    + f_equal. rewrite N2Z.inj_abs_N. lia.
    + apply decode_nat_zeros.
Qed.

Lemma fmt_03d_length (fh : Z) :
  String.length (Run.fmt_03d fh) =
  Nat.max 3 ((if (fh <? 0)%Z then 1 else 0)
             + String.length (NilZero.string_of_uint (N.to_uint (Z.abs_N fh))))%nat.
Proof.
  unfold Run.fmt_03d. rewrite !slength_app, zeros_length.
  destruct (fh <? 0)%Z; simpl String.length; lia.
Qed.

Lemma digits_at_most_3 (n : N) :
  (n < 1000)%N ->
  (String.length (NilZero.string_of_uint (N.to_uint n)) <= 3)%nat.
Proof.
  intros Hn.
  assert (Hall : forallb (fun k => (String.length
                    (NilZero.string_of_uint (N.to_uint (N.of_nat k))) <=? 3)%nat)
                   (List.seq 0 1000) = true) by (vm_compute; reflexivity).
  rewrite forallb_forall in Hall.
  specialize (Hall (N.to_nat n)). rewrite N2Nat.id in Hall.
  apply Nat.leb_le, Hall, in_seq. lia.
Qed.

(** X2: the hour field [f"{fh:03d}"] of a locator reads back as the
    forecast hour, so different hours give different fields; it has at
    least three characters, and exactly three for the hours 0 to 999 (a
    negative hour keeps its sign within the width: -3 becomes "-03"). *)
Theorem fmt_03d_round_trip (fh fh' : Z) :
  decode_int (Run.fmt_03d fh) = Some fh /\
  (Run.fmt_03d fh = Run.fmt_03d fh' -> fh = fh') /\
  (3 <= String.length (Run.fmt_03d fh))%nat /\
  ((0 <= fh < 1000)%Z -> String.length (Run.fmt_03d fh) = 3%nat) /\
  Run.fmt_03d (-3) = "-03".
Proof.
  split; [apply fmt_03d_decode|]. split; [|split; [|split]].
  - intros E. pose proof (fmt_03d_decode fh) as H1. rewrite E, fmt_03d_decode in H1.
    congruence.
  - rewrite fmt_03d_length. lia.
  - intros Hr. rewrite fmt_03d_length.
    destruct (Z.ltb_spec fh 0); [lia|].
    pose proof (digits_at_most_3 (Z.abs_N fh)) as Hd.
    assert (Hlt : (Z.abs_N fh < 1000)%N) by lia. specialize (Hd Hlt). lia.
  - reflexivity.
Qed.

(** ** Resource locators *)

Lemma sapp_inv_l (a b c : string) : a +:+ b = a +:+ c -> b = c.
Proof.
  induction a as [|x a IH]; rewrite ?sapp_nil_l, ?sapp_cons; [tauto|].
  intros [= H]. exact (IH H).
Qed.

Lemma sapp_split (a b a' b' : string) :
  a +:+ b = a' +:+ b' ->
  (exists g, a' = a +:+ g /\ b = g +:+ b') \/ (exists g, a = a' +:+ g /\ b' = g +:+ b).
Proof.
  revert a'. induction a as [|x a IH]; intros a' H.
  - left. exists a'. rewrite sapp_nil_l in *. split; [reflexivity|exact H].
  - destruct a' as [|x' a'].
    + right. exists (String x a). rewrite sapp_nil_l in *. split; [reflexivity|].
      symmetry. exact H.
    + rewrite !sapp_cons in H. injection H as -> H.
      destruct (IH a' H) as [(g & -> & Hb)|(g & -> & Hb)].
      * left. exists g. split; [reflexivity|exact Hb].
      * right. exists g. split; [reflexivity|exact Hb].
Qed.

Lemma all_chars_app (P : ascii -> bool) (a b : string) :
  all_chars P (a +:+ b) = all_chars P a && all_chars P b.
Proof.
  induction a as [|x a IH]; rewrite ?sapp_nil_l, ?sapp_cons; [reflexivity|].
  simpl. rewrite IH, andb_assoc. reflexivity.
Qed.

Lemma digits_no_slash (d : Decimal.uint) :
  all_chars not_slash (NilEmpty.string_of_uint d) = true.
Proof. induction d; simpl; try rewrite IHd; reflexivity. Qed.

Lemma zeros_no_slash (k : nat) :
  all_chars not_slash (String.concat "" (replicate k "0")) = true.
Proof. induction k as [|k IH]; [reflexivity|]. rewrite zeros_cons. simpl. exact IH. Qed.

Lemma fmt_03d_no_slash (fh : Z) : all_chars not_slash (Run.fmt_03d fh) = true.
Proof.
  unfold Run.fmt_03d. rewrite !all_chars_app, zeros_no_slash, digits_nilzero,
    digits_no_slash.
  destruct (fh <? 0)%Z; reflexivity.
Qed.

(** A field without a slash is delimited by the slash that follows it. *)
Lemma field_before_slash (a a' b b' : string) :
  all_chars not_slash a = true -> all_chars not_slash a' = true ->
  a +:+ String "/" b = a' +:+ String "/" b' -> a = a'.
Proof.
  intros Ha Ha' H.
  destruct (sapp_split _ _ _ _ H) as [(g & -> & Hg)|(g & -> & Hg)].
  - destruct g as [|c g]; [rewrite sapp_nil_r; reflexivity|].
    rewrite sapp_cons in Hg. injection Hg as <- _.
    rewrite all_chars_app in Ha'. apply andb_true_iff in Ha' as [_ Hc].
    simpl in Hc. discriminate.
  - destruct g as [|c g]; [rewrite sapp_nil_r; reflexivity|].
    rewrite sapp_cons in Hg. injection Hg as <- _.
    rewrite all_chars_app in Ha. apply andb_true_iff in Ha as [_ Hc].
    simpl in Hc. discriminate.
Qed.

(** X3: whatever [strftime] returns, the three locators [grib_urls] builds
    for one run and forecast hour are pairwise different, and the locators
    of one product for two different forecast hours of a run are
    different. *)
Theorem grib_urls_distinct
    (strftime : Run.datetime -> string -> string) (run_dt : Run.datetime)
    (fh fh' : Z) :
  let '(u, v, t) := Run.grib_urls strftime run_dt fh in
  let '(u', v', t') := Run.grib_urls strftime run_dt fh' in
  u <> v /\ u <> t /\ v <> t /\
  (fh <> fh' -> u <> u' /\ v <> v' /\ t <> t').
Proof.
  unfold Run.grib_urls. cbv zeta.
  set (hh := strftime run_dt "%H"). set (ds := strftime run_dt "%Y%m%dT%HZ").
  split; [|split; [|split]].
  - intros E. apply sapp_inv_l in E. discriminate E.
  - intros E. apply sapp_inv_l in E. discriminate E.
  - intros E. apply sapp_inv_l in E. discriminate E.
  - intros Hne.
    assert (Hfield : forall x y : string,
      (Run.BASE_URL +:+ "/" +:+ hh +:+ "/" +:+ Run.fmt_03d fh) +:+ String "/" x
      = (Run.BASE_URL +:+ "/" +:+ hh +:+ "/" +:+ Run.fmt_03d fh') +:+ String "/" y ->
      False).
    { intros x y E. rewrite !sapp_assoc in E.
      do 4 apply sapp_inv_l in E.
      apply field_before_slash in E; try apply fmt_03d_no_slash.
      apply Hne. pose proof (fmt_03d_decode fh) as H1.
      rewrite E, fmt_03d_decode in H1. congruence. }
    repeat split; intros E; eapply Hfield; exact E.
Qed.

(** ** Compass sectors *)

Section SectorFacts.
Local Open Scope R_scope.




End SectorFacts.





(** ** Wind vectors *)

Section VectorFacts.
Local Open Scope R_scope.

Ltac split_dec :=
  repeat match goal with
         | |- context [Rlt_dec ?a ?b] => destruct (Rlt_dec a b)
         | |- context [Rle_dec ?a ?b] => destruct (Rle_dec a b)
         end;
  try reflexivity; try (exfalso; nra).

Lemma arctan2_scale (k y x : R) :
  0 < k -> Wind.arctan2 (k * y) (k * x) = Wind.arctan2 y x.
Proof.
  intros Hk. unfold Wind.arctan2.
  destruct (Req_dec x 0) as [->|Hx].
  - replace (k * 0) with 0 by ring. split_dec.
  - replace (k * y / (k * x)) with (y / x) by (field; lra). split_dec.
Qed.

Lemma hypot_scale (k u v : R) : 0 <= k -> Wind.hypot (k * u) (k * v) = k * Wind.hypot u v.
Proof.
  intros Hk. unfold Wind.hypot.
  replace (k * u * (k * u) + k * v * (k * v)) with ((k * k) * (u * u + v * v)) by ring.
  rewrite sqrt_mult by nra. rewrite sqrt_square by assumption. reflexivity.
Qed.

Lemma hypot_zero (u v : R) : Wind.hypot u v = 0 <-> u = 0 /\ v = 0.
Proof.
  unfold Wind.hypot. split.
  - intros H. apply sqrt_eq_0 in H; [|nra]. split; nra.
  - intros [-> ->]. replace (0 * 0 + 0 * 0) with 0 by ring. apply sqrt_0.
Qed.

Lemma fmod_shift (a : R) (j : Z) : Wind.fmod (a + 360 * IZR j) 360 = Wind.fmod a 360.
Proof.
  unfold Wind.fmod.
  replace ((a + 360 * IZR j) / 360) with (a / 360 + IZR j) by lra.
  rewrite Zfloor_addz, plus_IZR. lra.
Qed.

Lemma fmod_fmod_add (a b : R) : Wind.fmod (Wind.fmod a 360 + b) 360 = Wind.fmod (a + b) 360.
Proof.
  unfold Wind.fmod at 2.
  replace (a - 360 * IZR (Zfloor (a / 360)) + b)
    with ((a + b) + 360 * IZR (- Zfloor (a / 360))) by (rewrite opp_IZR; lra).
  apply fmod_shift.
Qed.

(** Turning the vector around moves the angle by half a turn. *)
Lemma arctan2_opposite (y x : R) :
  x <> 0 \/ y <> 0 ->
  Wind.arctan2 (- y) (- x) = Wind.arctan2 y x + PI \/
  Wind.arctan2 (- y) (- x) = Wind.arctan2 y x - PI.
Proof.
  intros Hnz. unfold Wind.arctan2.
  assert (Hq : x <> 0 -> - y / - x = y / x) by (intros; field; lra).
  destruct (Rlt_dec 0 x) as [A|A].
  - destruct (Rlt_dec 0 (- x)) as [B|B]; [lra|].
    destruct (Rlt_dec (- x) 0) as [C|C]; [|lra].
    rewrite Hq by lra.
    destruct (Rle_dec 0 (- y)); [left|right]; reflexivity.
  - destruct (Rlt_dec x 0) as [D|D].
    + destruct (Rlt_dec 0 (- x)) as [B|B]; [|lra].
      rewrite Hq by lra.
      destruct (Rle_dec 0 y); [right|left]; lra.
    + assert (x = 0) by lra. subst x.
      destruct (Rlt_dec 0 (- 0)) as [B|B]; [lra|].
      destruct (Rlt_dec (- 0) 0) as [C|C]; [lra|].
      destruct (Rlt_dec 0 y) as [E|E].
      * destruct (Rlt_dec 0 (- y)) as [F|F]; [lra|].
        destruct (Rlt_dec (- y) 0) as [G|G]; [|lra]. right. lra.
      * destruct (Rlt_dec y 0) as [H|H]; [|lra].
        destruct (Rlt_dec 0 (- y)) as [F|F]; [|lra]. left. lra.
Qed.

Lemma dir_met_opposite (u v : R) :
  u <> 0 \/ v <> 0 ->
  Wind.dir_met (- u) (- v) = Wind.fmod (Wind.dir_met u v + 180) 360.
Proof.
  intros Hnz. unfold Wind.dir_met. rewrite fmod_fmod_add.
  assert (Hd : forall a, Wind.degrees (a + PI) = Wind.degrees a + 180
                         /\ Wind.degrees (a - PI) = Wind.degrees a - 180).
  { intros a. unfold Wind.degrees. pose proof PI_neq0. split; field; assumption. }
  destruct (arctan2_opposite (- u) (- v)) as [E|E]; [lra| |]; rewrite E.
  - rewrite (proj1 (Hd _)). f_equal. lra.
  - rewrite (proj2 (Hd _)).
    replace (Wind.degrees (Wind.arctan2 (- u) (- v)) - 180 + 360)
      with ((Wind.degrees (Wind.arctan2 (- u) (- v)) + 360 + 180) + 360 * IZR (-1))
      by lra.
    apply fmod_shift.
Qed.

End VectorFacts.

(** X6: the direction depends on the direction of the wind vector only: a
    wind k times as strong (k > 0) has the same direction and compass
    point, and k times the speed. *)
Theorem wind_scaling (k u v : R) (Hk : (0 < k)%R) :
  Wind.dir_met (k * u) (k * v) = Wind.dir_met u v /\
  Wind.dir_str (k * u) (k * v) = Wind.dir_str u v /\
  Wind.speed_kt (k * u) (k * v) = (k * Wind.speed_kt u v)%R.
Proof.
  assert (Hd : Wind.dir_met (k * u) (k * v) = Wind.dir_met u v).
  { unfold Wind.dir_met.
    replace (- (k * u))%R with (k * - u)%R by ring.
    replace (- (k * v))%R with (k * - v)%R by ring.
    rewrite arctan2_scale by assumption. reflexivity. }
  split; [exact Hd|]. split.
  - unfold Wind.dir_str. rewrite Hd. reflexivity.
  - unfold Wind.speed_kt. rewrite hypot_scale by lra. ring.
Qed.

Lemma wind_scaling_witness :
  (0 < 2)%R /\ Wind.dir_met (2 * 3) (2 * 4) = Wind.dir_met 3 4.
Proof.
  assert (H : (0 < 2)%R) by lra.
  split; [exact H|]. exact (proj1 (wind_scaling 2 3 4 H)).
Defined.

(** X7: the opposite wind has the same speed and is reported half a turn
    away: for a wind that is not calm,
    dir_met(-u, -v) = (dir_met(u, v) + 180) mod 360. *)
Theorem wind_opposite (u v : R) (Hwind : (u <> 0 \/ v <> 0)%R) :
  Wind.dir_met (- u) (- v) = Wind.fmod (Wind.dir_met u v + 180) 360 /\
  Wind.speed_kt (- u) (- v) = Wind.speed_kt u v.
Proof.
  split; [apply dir_met_opposite, Hwind|].
  unfold Wind.speed_kt, Wind.hypot. do 2 f_equal. ring.
Qed.

Lemma wind_opposite_witness :
  (1 <> 0 \/ 0 <> 0)%R /\
  Wind.dir_met (- 1) (- 0) = Wind.fmod (Wind.dir_met 1 0 + 180) 360.
Proof.
  assert (H : (1 <> 0 \/ 0 <> 0)%R) by (left; lra).
  split; [exact H|]. exact (proj1 (wind_opposite 1 0 H)).
Defined.

(** X8: the speed column is never negative, and it is zero for the calm
    wind only. *)
Theorem speed_zero_iff_calm (u v : R) :
  (0 <= Wind.speed_kt u v)%R /\
  (Wind.speed_kt u v = 0%R <-> u = 0%R /\ v = 0%R).
Proof.
  assert (Hpos : (0 <= Wind.hypot u v)%R) by (unfold Wind.hypot; apply sqrt_pos).
  split; [unfold Wind.speed_kt; nra|].
  unfold Wind.speed_kt. rewrite <- hypot_zero. split; intros H; nra.
Qed.

(** ** Temperatures and their highlighting *)

Lemma extract_temps_lookups (tfile : list Grid.message) (temps : gmap string Q) :
  Grid.extract_temps tfile = Some temps ->
  (forall l, ~ In l labels -> temps !! l = None) /\
  (forall l, In l labels -> is_Some (temps !! l)).
Proof.
  unfold Grid.extract_temps. intros H.
  destruct (Grid.select tfile "2 metre temperature") as [mt|]; [|discriminate].
  simpl in H.
  destruct (extract_temps_fold mt LOCS ∅ temps H) as [Hout Hin].
  { apply (bool_decide_unpack _). vm_compute. exact I. }
  split.
  - intros l Hl. rewrite Hout by exact Hl. apply lookup_empty.
  - intros l Hl. unfold labels in Hl. apply in_map_iff in Hl as ([[lb la] lo] & <- & Hloc).
    destruct (Hin lb la lo Hloc) as (v & _ & Hv). simpl. rewrite Hv. eauto.
Qed.

Lemma full_ascent_part_ascent (t1 t2 t3 t4 t5 t6 t7 : Q) :
  Py.all_adjacent_lt [t1; t2; t3; t4; t5; t6; t7] = true ->
  Py.all_adjacent_lt [t1; t2; t3; t5] = true.
Proof.
  rewrite !all_adjacent_lt_ascending. simpl.
  intros (A & B & C & D & _). repeat split; try assumption.
  eapply Qlt_trans; eassumption.
Qed.

(** V1 and V2 mark the same hours: V1 is plain exactly when V2 is. *)
Lemma highlight_variants_agree (temps : gmap string Q) (t1 t2 t3 t4 t5 t6 t7 : Q) :
  temps !! "Furry" = Some t1 -> temps !! "Brit" = Some t2 ->
  temps !! "7mesh" = Some t3 -> temps !! "Cheak" = Some t4 ->
  temps !! "Whis" = Some t5 -> temps !! "Pemb" = Some t6 ->
  temps !! "Lill" = Some t7 ->
  exists e1 e2,
    Thermal.highlight_v1 temps = Some e1 /\ Thermal.highlight_v2 temps = Some e2 /\
    (e1 = Thermal.Plain <-> e2 = Thermal.Plain) /\ e1 <> Thermal.Green.
Proof.
  intros H1 H2 H3 H4 H5 H6 H7.
  rewrite (highlight_v2_eq temps t1 t2 t3 t4 t5 t6 t7) by assumption.
  rewrite (highlight_v1_eq temps t1 t2 t3 t5) by assumption.
  pose proof (full_ascent_part_ascent t1 t2 t3 t4 t5 t6 t7) as Himp.
  destruct (Py.all_adjacent_lt [t1; t2; t3; t4; t5; t6; t7]);
    destruct (Py.all_adjacent_lt [t1; t2; t3; t5]);
    try (specialize (Himp eq_refl); discriminate);
    eexists _, _; (split; [reflexivity|]); (split; [reflexivity|]);
    split; try discriminate; split; congruence.
Qed.

(** X9: the dictionary [extract_temps] returns has exactly the seven
    labels of [LOCS] as keys, so neither variant of the highlighting meets
    a missing key on it: both decide a colour, V1 leaves the time plain
    exactly when V2 does, and V1 never uses green. *)
Theorem extract_temps_feeds_highlighter
    (tfile : list Grid.message) (temps : gmap string Q)
    (Hext : Grid.extract_temps tfile = Some temps) :
  dom temps = list_to_set labels /\
  exists e1 e2,
    Thermal.highlight_v1 temps = Some e1 /\ Thermal.highlight_v2 temps = Some e2 /\
    (e1 = Thermal.Plain <-> e2 = Thermal.Plain) /\ e1 <> Thermal.Green.
Proof.
  destruct (extract_temps_lookups tfile temps Hext) as [Hout Hin].
  split.
  - apply set_eq. intros l. rewrite elem_of_dom, elem_of_list_to_set, list_elem_of_In.
    split.
    + intros Hl. destruct (in_dec string_dec l labels) as [Hy|Hn]; [exact Hy|].
      rewrite (Hout l Hn) in Hl. destruct Hl as [? Hl]. discriminate.
    + apply Hin.
  - destruct (Hin "Furry") as [t1 H1]; [simpl; tauto|].
    destruct (Hin "Brit") as [t2 H2]; [simpl; tauto|].
    destruct (Hin "7mesh") as [t3 H3]; [simpl; tauto|].
    destruct (Hin "Cheak") as [t4 H4]; [simpl; tauto|].
    destruct (Hin "Whis") as [t5 H5]; [simpl; tauto|].
    destruct (Hin "Pemb") as [t6 H6]; [simpl; tauto|].
    destruct (Hin "Lill") as [t7 H7]; [simpl; tauto|].
    exact (highlight_variants_agree temps t1 t2 t3 t4 t5 t6 t7 H1 H2 H3 H4 H5 H6 H7).
Qed.

Lemma extract_temps_feeds_highlighter_witness :
  exists temps, Grid.extract_temps [grid_tie] = Some temps /\
    dom temps = list_to_set labels.
Proof.
  destruct (Grid.extract_temps [grid_tie]) as [temps|] eqn:E; [|vm_compute in E; discriminate].
  exists temps. split; [reflexivity|].
  exact (proj1 (extract_temps_feeds_highlighter [grid_tie] temps E)).
Defined.

Lemma all_adjacent_lt_shift (c : Q) (l : list Q) :
  Py.all_adjacent_lt (map (fun t => (t + c)%Q) l) = Py.all_adjacent_lt l.
Proof.
  induction l as [|x [|y l] IH]; try reflexivity.
  change (map (fun t => (t + c)%Q) (x :: y :: l))
    with ((x + c)%Q :: (y + c)%Q :: map (fun t => (t + c)%Q) l).
  change (Py.all_adjacent_lt ((x + c)%Q :: (y + c)%Q :: map (fun t => (t + c)%Q) l))
    with (negb (Qle_bool (y + c) (x + c))
          && Py.all_adjacent_lt (map (fun t => (t + c)%Q) (y :: l))).
  rewrite IH.
  change (Py.all_adjacent_lt (x :: y :: l))
    with (negb (Qle_bool y x) && Py.all_adjacent_lt (y :: l)).
  f_equal. f_equal.
  destruct (Qle_bool y x) eqn:E.
  - apply Qle_bool_iff. apply Qle_bool_iff in E. apply Qplus_le_l. exact E.
  - destruct (Qle_bool (y + c) (x + c)) eqn:E'; [|reflexivity].
    apply Qle_bool_iff in E'. apply Qplus_le_l in E'. apply Qle_bool_iff in E'.
    congruence.
Qed.

Lemma lookup_all_fmap (f : Q -> Q) (temps : gmap string Q) (ks : list string) :
  Thermal.lookup_all (f <$> temps) ks = map f <$> Thermal.lookup_all temps ks.
Proof.
  unfold Thermal.lookup_all. induction ks as [|k ks IH]; [reflexivity|].
  cbn [mapM]. rewrite lookup_fmap, IH.
  destruct (temps !! k) as [v|]; [|reflexivity].
  change (f <$> Some v) with (Some (f v)).
  change (Some ?x ≫= ?g) with (g x). cbv beta.
  destruct (mapM (fun k0 => temps !! k0) ks) as [vs|]; reflexivity.
Qed.

(** X10: the colour depends on the order of the temperatures only: adding
    one offset to every temperature (Kelvin instead of Celsius) changes
    the highlighting of neither variant. *)
Theorem highlight_offset_invariant (c : Q) (temps : gmap string Q) :
  Thermal.highlight_v2 ((fun t => (t + c)%Q) <$> temps) = Thermal.highlight_v2 temps /\
  Thermal.highlight_v1 ((fun t => (t + c)%Q) <$> temps) = Thermal.highlight_v1 temps.
Proof.
  split.
  - unfold Thermal.highlight_v2. rewrite !lookup_all_fmap.
    destruct (Thermal.lookup_all temps labels) as [full|]; [|reflexivity].
    change (map ?f <$> Some full) with (Some (map f full)).
    change (Some ?x ≫= ?g) with (g x). cbv beta.
    rewrite all_adjacent_lt_shift.
    destruct (Py.all_adjacent_lt full); [reflexivity|].
    destruct (Thermal.lookup_all temps ["Furry"; "Brit"; "7mesh"; "Whis"]) as [part|];
      [|reflexivity].
    change (map ?f <$> Some part) with (Some (map f part)).
    change (Some ?x ≫= ?g) with (g x). cbv beta.
    rewrite all_adjacent_lt_shift. reflexivity.
  - unfold Thermal.highlight_v1. rewrite !lookup_all_fmap.
    destruct (Thermal.lookup_all temps ["Furry"; "Brit"; "7mesh"; "Whis"]) as [part|];
      [|reflexivity].
    change (map ?f <$> Some part) with (Some (map f part)).
    change (Some ?x ≫= ?g) with (g x). cbv beta.
    destruct part as [|s0 [|s1 [|s2 [|s3 [|s4 part]]]]]; try reflexivity.
    pose proof (all_adjacent_lt_shift c [s0; s1; s2; s3]) as H.
    simpl in H. rewrite !andb_true_r, !andb_assoc in H.
    cbn [map]. lazy beta iota. rewrite H. reflexivity.
Qed.

(** ** Sampling on and off the grid *)

Lemma d2_cell_nonneg (lat0 lon0 la lo : Q) : (0 <= d2_cell lat0 lon0 la lo)%Q.
Proof.
  unfold d2_cell. change (?x ^ 2)%Q with (x * x)%Q.
  set (a := (la - lat0)%Q). set (b := (lo - lon0)%Q). Lqa.nra.
Qed.

Lemma d2_cell_zero (lat0 lon0 la lo : Q) :
  (d2_cell lat0 lon0 la lo <= 0)%Q <-> (la == lat0 /\ lo == lon0)%Q.
Proof.
  unfold d2_cell. change (?x ^ 2)%Q with (x * x)%Q. split.
  - intros H.
    assert (Ha : (la - lat0 == 0)%Q /\ (lo - lon0 == 0)%Q).
    { revert H. generalize (la - lat0)%Q (lo - lon0)%Q. intros a b H.
      split; Lqa.nra. }
    destruct Ha as [Ha Hb]. split; Lqa.lra.
  - intros [-> ->]. Lqa.lra.
Qed.

(** X11: when the target lies on a grid node, the sampler returns the
    value of the first cell, in row-major order, that has exactly the
    coordinates of the target. *)
Theorem nearest_on_node
    (m : Grid.message) (lat0 lon0 : Q) (ny nx j : nat) (la_j lo_j : Q)
    (Hvals : Grid.shape (Grid.values m) = (ny, nx))
    (Hlats : Grid.shape (Grid.lats m) = (ny, nx))
    (Hlons : Grid.shape (Grid.lons m) = (ny, nx))
    (Wvals : Grid.wf (Grid.values m))
    (Wlats : Grid.wf (Grid.lats m))
    (Wlons : Grid.wf (Grid.lons m))
    (Hla : Grid.data (Grid.lats m) !! j = Some la_j)
    (Hlo : Grid.data (Grid.lons m) !! j = Some lo_j)
    (Hnode : (la_j == lat0 /\ lo_j == lon0)%Q) :
  exists (i : nat) (v la lo : Q),
    (i <= j)%nat /\
    Grid.nearest m lat0 lon0 = Some v /\
    Grid.data (Grid.values m) !! i = Some v /\
    Grid.data (Grid.lats m) !! i = Some la /\
    Grid.data (Grid.lons m) !! i = Some lo /\
    (la == lat0 /\ lo == lon0)%Q /\
    (forall j' la' lo', (j' < i)%nat ->
       Grid.data (Grid.lats m) !! j' = Some la' ->
       Grid.data (Grid.lons m) !! j' = Some lo' ->
       ~ (la' == lat0 /\ lo' == lon0)%Q).
Proof.
  assert (Hj : (j < ny * nx)%nat).
  { apply lookup_lt_Some in Hla. unfold Grid.wf in Wlats.
    rewrite Hlats in Wlats. simpl in Wlats. lia. }
  assert (Hcells : (0 < ny * nx)%nat) by lia.
  destruct (nearest_index_first_min m lat0 lon0 ny nx Hlats Hlons Wlats Wlons Hcells)
    as (i & la & lo & Hi & Hidx & Hila & Hilo & Hmin & Hfirst).
  destruct (cell_lookup ny nx (Grid.values m) i Hvals Wvals Hi) as [v Hv].
  assert (Hzero : (d2_cell lat0 lon0 la lo <= 0)%Q).
  { eapply Qle_trans; [apply (Hmin j la_j lo_j Hla Hlo)|].
    apply d2_cell_zero, Hnode. }
  exists i, v, la, lo. split; [|split; [|split; [|split; [|split; [|split]]]]];
    try assumption.
  - destruct (Nat.le_gt_cases i j) as [Hle|Hgt]; [exact Hle|].
    exfalso. pose proof (Hfirst j la_j lo_j Hgt Hla Hlo) as Hlt.
    pose proof (proj2 (d2_cell_zero lat0 lon0 la_j lo_j) Hnode) as Hz.
    pose proof (d2_cell_nonneg lat0 lon0 la lo). Lqa.lra.
  - unfold Grid.nearest. rewrite Hidx. simpl. unfold Grid.getitem. rewrite Hvals. simpl.
    destruct (unravel_ravel i ny nx Hi) as (_ & Hy & Hx & Hflat).
    rewrite (proj2 (Nat.ltb_lt _ _) Hy), (proj2 (Nat.ltb_lt _ _) Hx). simpl.
    rewrite Hflat. exact Hv.
  - apply d2_cell_zero, Hzero.
  - intros j' la' lo' Hlt' H1 H2 Hn.
    pose proof (Hfirst j' la' lo' Hlt' H1 H2) as Hlt.
    pose proof (proj2 (d2_cell_zero lat0 lon0 la' lo') Hn) as Hz.
    pose proof (d2_cell_nonneg lat0 lon0 la lo). Lqa.lra.
Qed.

Lemma nearest_on_node_witness :
  exists (i : nat) (v : Q),
    (i <= 2)%nat /\ Grid.nearest grid_tie 1 0 = Some v /\
    Grid.data (Grid.values grid_tie) !! i = Some v.
Proof.
  assert (Hnode : (1 == 1 /\ 0 == 0)%Q) by (split; reflexivity).
  destruct (nearest_on_node grid_tie 1 0 2 2 2 1 0
              eq_refl eq_refl eq_refl eq_refl eq_refl eq_refl eq_refl eq_refl Hnode)
    as (i & v & la & lo & Hi & Hn & Hv & _).
  exists i, v. split; [exact Hi|]. split; [exact Hn|exact Hv].
Defined.

Lemma nearest_index_some_inv (lats lons : Grid.ndarray) (lat0 lon0 : Q) (iy ix : nat) :
  Grid.nearest_index lats lons lat0 lon0 = Some (iy, ix) ->
  Grid.shape lats = Grid.shape lons /\
  Grid.data lats <> [] /\ Grid.data lons <> [] /\
  (iy < fst (Grid.shape lats))%nat /\ (ix < snd (Grid.shape lats))%nat.
Proof.
  unfold Grid.nearest_index.
  destruct (Grid.dist2 lats lons lat0 lon0) as [d2|] eqn:Ed; [|discriminate].
  simpl. destruct (Grid.argmin d2) as [r|] eqn:Er; [|discriminate]. simpl.
  intros Hu.
  unfold Grid.dist2, Grid.add in Ed. simpl in Ed.
  destruct (Grid.shape_eqb (Grid.shape lats) (Grid.shape lons)) eqn:Es; [|discriminate].
  apply shape_eqb_eq in Es. injection Ed as <-.
  unfold Grid.argmin in Er. simpl in Er, Hu.
  split; [exact Es|]. split; [|split].
  - intros E. rewrite E in Er. discriminate.
  - intros E. rewrite E in Er. destruct (Grid.data lats); discriminate.
  - unfold Grid.unravel_index in Hu.
    destruct (Nat.ltb_spec r (fst (Grid.shape lats) * snd (Grid.shape lats))) as [Hr|Hr];
      [|discriminate].
    injection Hu as <- <-.
    destruct (Grid.shape lats) as [ny nx]. simpl in *.
    assert (Hnx : (0 < nx)%nat) by nia.
    split.
    + apply Nat.Div0.div_lt_upper_bound. lia.
    + apply Nat.mod_upper_bound. lia.
Qed.

(** X12: on well-formed coordinate arrays of one shape the nearest index
    exists exactly when the grid has at least one cell (on an empty grid
    [argmin] raises), and it lies inside the shape, so that indexing an
    array of that shape with it cannot fail. *)
Theorem nearest_index_defined
    (lats lons : Grid.ndarray) (lat0 lon0 : Q) (ny nx : nat)
    (Hlats : Grid.shape lats = (ny, nx))
    (Hlons : Grid.shape lons = (ny, nx))
    (Wlats : Grid.wf lats) (Wlons : Grid.wf lons) :
  (is_Some (Grid.nearest_index lats lons lat0 lon0) <-> (0 < ny * nx)%nat) /\
  (forall iy ix, Grid.nearest_index lats lons lat0 lon0 = Some (iy, ix) ->
     (iy < ny)%nat /\ (ix < nx)%nat /\
     forall vals, Grid.shape vals = (ny, nx) -> Grid.wf vals ->
       is_Some (Grid.getitem vals iy ix)).
Proof.
  split.
  - split.
    + intros [[iy ix] H]. apply nearest_index_some_inv in H as (Hs & Hne & _).
      unfold Grid.wf in Wlats. rewrite Hlats in Wlats. simpl in Wlats.
      destruct (Grid.data lats); [congruence|]. simpl in Wlats. lia.
    + intros Hcells.
      destruct (nearest_index_first_min
                  {| Grid.name := ""; Grid.values := lats; Grid.lats := lats;
                     Grid.lons := lons |} lat0 lon0 ny nx Hlats Hlons Wlats Wlons Hcells)
        as (i & la & lo & _ & Hidx & _).
      simpl in Hidx. rewrite Hidx. eauto.
  - intros iy ix H. apply nearest_index_some_inv in H as (_ & _ & _ & Hy & Hx).
    rewrite Hlats in Hy, Hx. simpl in Hy, Hx. split; [assumption|]. split; [assumption|].
    intros vals Hs Hw. unfold Grid.getitem. rewrite Hs. simpl.
    rewrite (proj2 (Nat.ltb_lt _ _) Hy), (proj2 (Nat.ltb_lt _ _) Hx). simpl.
    apply lookup_lt_is_Some. unfold Grid.wf in Hw. rewrite Hs in Hw. simpl in Hw.
    rewrite Hw. nia.
Qed.

Lemma nearest_index_defined_witness :
  is_Some (Grid.nearest_index (Grid.lats grid_tie) (Grid.lons grid_tie) (1 # 2) (1 # 2))
  <-> (0 < 2 * 2)%nat.
Proof.
  exact (proj1 (nearest_index_defined (Grid.lats grid_tie) (Grid.lons grid_tie)
                  (1 # 2) (1 # 2) 2 2 eq_refl eq_refl eq_refl eq_refl)).
Defined.



(** ** Downloads *)

(** X14: [download] returns a name only for a response with status 200
    whose body arrives whole; the name is new on disk and the file under
    it holds the body, so that opening it gives the body back. Every
    other outcome raises and leaves the disk unchanged, except a body
    that breaks off while it is read: then the file just created stays
    behind under a name the caller never learns. The local variables of
    [main] are never touched. *)
Theorem download_effects (get : string -> Hour.get_result) (url : string)
    (s : Hour.state) :
  let r := fst (Hour.download get url s) in
  let s' := snd (Hour.download get url s) in
  Hour.uf s' = Hour.uf s /\ Hour.vf s' = Hour.vf s /\ Hour.tf s' = Hour.tf s /\
  match r with
  | Hour.Ok p =>
      (p ∉ dom (Hour.files s)) /\
      exists c, get url = Hour.GetResponse 200 (Hour.Complete c) /\
                Hour.files s' = <[p := c]> (Hour.files s) /\
                Hour.open p s' = (Hour.Ok c, s')
  | Hour.Raise e =>
      (get url <> Hour.GetResponse 200 Hour.Broken /\ Hour.files s' = Hour.files s) \/
      (get url = Hour.GetResponse 200 Hour.Broken /\
       exists p, (p ∉ dom (Hour.files s)) /\ (p ∈ dom (Hour.files s')))
  end.
Proof.
  unfold Hour.download.
  destruct (get url) as [|code b]; simpl.
  { repeat split; try reflexivity. left. split; [discriminate|reflexivity]. }
  destruct (Z.eqb_spec code 200) as [->|Hne]; simpl.
  2:{ repeat split; try reflexivity. left. split; [congruence|reflexivity]. }
  destruct b as [c|]; simpl.
  - repeat split; try reflexivity; [apply is_fresh|].
    exists c. repeat split; try reflexivity.
    unfold Hour.open. simpl. rewrite lookup_insert_eq. reflexivity.
  - repeat split; try reflexivity. right. split; [reflexivity|].
    exists (fresh (dom (Hour.files s))). split; [apply is_fresh|].
    rewrite dom_insert_L. set_solver.
Qed.

(** ** The data of one forecast hour *)

Lemma open_ok (p : string) (c : list Grid.message) (s : Hour.state) :
  Hour.files s !! p = Some c -> Hour.open p s = (Hour.Ok c, s).
Proof. intros H. unfold Hour.open. rewrite H. reflexivity. Qed.

Lemma after_downloads_lookups (fs : gmap string (list Grid.message))
    (cu cv ct : list Grid.message) :
  let s3 := after_downloads fs cu cv ct in
  exists t1 t2 t3,
    Hour.uf s3 = Some t1 /\ Hour.vf s3 = Some t2 /\ Hour.tf s3 = Some t3 /\
    Hour.files s3 !! t1 = Some cu /\ Hour.files s3 !! t2 = Some cv /\
    Hour.files s3 !! t3 = Some ct.
Proof.
  unfold after_downloads. cbv zeta.
  set (t1 := fresh (dom fs)). set (f1 := <[t1 := cu]> fs).
  set (t2 := fresh (dom f1)). set (f2 := <[t2 := cv]> f1).
  set (t3 := fresh (dom f2)).
  exists t1, t2, t3. cbn [Hour.uf Hour.vf Hour.tf Hour.files].
  assert (H2 : t2 ∉ dom f1) by apply is_fresh.
  assert (H3 : t3 ∉ dom f2) by apply is_fresh.
  assert (N12 : t2 <> t1).
  { intros E. apply H2. rewrite E. unfold f1. rewrite dom_insert_L. set_solver. }
  assert (N13 : t3 <> t1).
  { intros E. apply H3. rewrite E. unfold f2, f1. rewrite !dom_insert_L. set_solver. }
  assert (N23 : t3 <> t2).
  { intros E. apply H3. rewrite E. unfold f2. rewrite dom_insert_L. set_solver. }
  repeat split; try reflexivity.
  - rewrite lookup_insert_ne by assumption. unfold f2.
    rewrite lookup_insert_ne by assumption. unfold f1. apply lookup_insert_eq.
  - rewrite lookup_insert_ne by assumption. unfold f2. apply lookup_insert_eq.
  - apply lookup_insert_eq.
Qed.

Lemma extraction_result (s : Hour.state) (t1 t2 t3 : string)
    (cu cv ct : list Grid.message) :
  Hour.uf s = Some t1 -> Hour.vf s = Some t2 -> Hour.tf s = Some t3 ->
  Hour.files s !! t1 = Some cu -> Hour.files s !! t2 = Some cv ->
  Hour.files s !! t3 = Some ct ->
  fst ((ufn ← Hour.var Hour.uf; vfn ← Hour.var Hour.vf;
        w ← Hour.extract_wind ufn vfn;
        tfn ← Hour.var Hour.tf; temps ← Hour.extract_temps tfn;
        mret (w, temps)) s) = extracted cu cv ct.
Proof.
  intros Hu Hv Ht Fu Fv Ft.
  erewrite bind_ok by (apply var_ok; exact Hu).
  erewrite bind_ok by (apply var_ok; exact Hv).
  unfold extracted, Hour.extract_wind, Hour.extract_temps.
  destruct (Grid.extract_wind cu cv) as [w|] eqn:Ew.
  - erewrite bind_ok.
    2:{ erewrite bind_ok by (apply open_ok; exact Fu).
        erewrite bind_ok by (apply open_ok; exact Fv).
        rewrite Ew. reflexivity. }
    erewrite bind_ok by (apply var_ok; exact Ht).
    destruct (Grid.extract_temps ct) as [temps|] eqn:Et.
    + erewrite bind_ok.
      2:{ erewrite bind_ok by (apply open_ok; exact Ft). rewrite Et. reflexivity. }
      reflexivity.
    + erewrite bind_raise.
      2:{ erewrite bind_ok by (apply open_ok; exact Ft). rewrite Et. reflexivity. }
      reflexivity.
  - erewrite bind_raise.
    2:{ erewrite bind_ok by (apply open_ok; exact Fu).
        erewrite bind_ok by (apply open_ok; exact Fv).
        rewrite Ew. reflexivity. }
    reflexivity.
Qed.

Lemma fetch_hour_v2_run (get : string -> Hour.get_result) (uurl vurl turl : string)
    (cu cv ct : list Grid.message) (s : Hour.state) :
  get uurl = Hour.GetResponse 200 (Hour.Complete cu) ->
  get vurl = Hour.GetResponse 200 (Hour.Complete cv) ->
  get turl = Hour.GetResponse 200 (Hour.Complete ct) ->
  Hour.fetch_hour_v2 get (uurl, vurl, turl) s =
    (extracted cu cv ct,
     Hour.with_files (fun _ => Hour.files s) (after_downloads (Hour.files s) cu cv ct)).
Proof.
  intros Hu Hv Ht.
  destruct (three_fresh_files (Hour.files s) cu cv ct) as (I1 & I2 & I3 & Hback).
  cbv zeta in I1, I2, I3, Hback.
  destruct (after_downloads_lookups (Hour.files s) cu cv ct)
    as (t1 & t2 & t3 & Eu & Ev & Et & Fu & Fv & Ft).
  unfold Hour.fetch_hour_v2.
  erewrite bind_ok by (apply download_ok; exact Hu).
  erewrite bind_ok by (apply download_ok; exact Hv).
  erewrite bind_ok by (apply download_ok; exact Ht).
  do 3 (erewrite bind_ok by reflexivity).
  erewrite finally_cleanup_v2;
    [ | apply extraction_pure | reflexivity | reflexivity | reflexivity
      | exact I1 | exact I2 | exact I3 ].
  f_equal.
  - apply (extraction_result _ t1 t2 t3 cu cv ct Eu Ev Et Fu Fv Ft).
  - unfold Hour.with_files, after_downloads. cbn [Hour.files Hour.uf Hour.vf Hour.tf].
    rewrite Hback. reflexivity.
Qed.

Lemma fetch_hour_v1_run (get : string -> Hour.get_result) (uurl vurl turl : string)
    (cu cv ct : list Grid.message) (s : Hour.state) :
  get uurl = Hour.GetResponse 200 (Hour.Complete cu) ->
  get vurl = Hour.GetResponse 200 (Hour.Complete cv) ->
  get turl = Hour.GetResponse 200 (Hour.Complete ct) ->
  Hour.fetch_hour_v1 get (uurl, vurl, turl) s =
    (extracted cu cv ct,
     Hour.with_files (fun _ => Hour.files s) (after_downloads (Hour.files s) cu cv ct)).
Proof.
  intros Hu Hv Ht.
  destruct (three_fresh_files (Hour.files s) cu cv ct) as (I1 & I2 & I3 & Hback).
  cbv zeta in I1, I2, I3, Hback.
  destruct (after_downloads_lookups (Hour.files s) cu cv ct)
    as (t1 & t2 & t3 & Eu & Ev & Et & Fu & Fv & Ft).
  unfold Hour.fetch_hour_v1.
  erewrite finally_cleanup_v1; cycle 1.
  + erewrite bind_ok by (apply download_ok; exact Hu).
    erewrite bind_ok by reflexivity.
    erewrite bind_ok by (apply download_ok; exact Hv).
    erewrite bind_ok by reflexivity.
    erewrite bind_ok by (apply download_ok; exact Ht).
    erewrite bind_ok by reflexivity.
    apply (pure_run _ extraction_pure).
  + reflexivity.
  + reflexivity.
  + reflexivity.
  + exact I1.
  + exact I2.
  + exact I3.
  + f_equal.
    * apply (extraction_result _ t1 t2 t3 cu cv ct Eu Ev Et Fu Fv Ft).
    * unfold Hour.with_files, after_downloads. cbn [Hour.files Hour.uf Hour.vf Hour.tf].
      rewrite Hback. reflexivity.
Qed.

(** X15: when the three downloads succeed, both variants return what the
    two extractions make of the three bodies, each body in its own role
    (U and V for the wind, T for the temperatures), or raise the error of
    the extraction; either way the disk is as before, and the two
    variants end in the same state. *)
Theorem fetch_hour_after_downloads
    (get : string -> Hour.get_result) (uurl vurl turl : string)
    (cu cv ct : list Grid.message) (s : Hour.state)
    (Hu : get uurl = Hour.GetResponse 200 (Hour.Complete cu))
    (Hv : get vurl = Hour.GetResponse 200 (Hour.Complete cv))
    (Ht : get turl = Hour.GetResponse 200 (Hour.Complete ct)) :
  fst (Hour.fetch_hour_v2 get (uurl, vurl, turl) s) = extracted cu cv ct /\
  Hour.files (snd (Hour.fetch_hour_v2 get (uurl, vurl, turl) s)) = Hour.files s /\
  Hour.fetch_hour_v1 get (uurl, vurl, turl) s
    = Hour.fetch_hour_v2 get (uurl, vurl, turl) s.
Proof.
  rewrite (fetch_hour_v1_run get uurl vurl turl cu cv ct s Hu Hv Ht).
  rewrite (fetch_hour_v2_run get uurl vurl turl cu cv ct s Hu Hv Ht).
  repeat split.
Qed.

Lemma fetch_hour_after_downloads_witness :
  fst (Hour.fetch_hour_v2 get_all ("U", "V", "T") (first_iteration ∅))
  = extracted [wind_u_sample] [wind_v_sample] [grid_tie].
Proof.
  exact (proj1 (fetch_hour_after_downloads get_all "U" "V" "T"
                  [wind_u_sample] [wind_v_sample] [grid_tie] (first_iteration ∅)
                  eq_refl eq_refl eq_refl)).
Defined.

Lemma download_cases (get : string -> Hour.get_result) (url : string) :
  (exists c, get url = Hour.GetResponse 200 (Hour.Complete c)) \/
  (forall s, exists e s', Hour.download get url s = (Hour.Raise e, s')).
Proof.
  unfold Hour.download. destruct (get url) as [|code b]; [right; eauto|].
  destruct (Z.eqb_spec code 200) as [->|Hne]; simpl; [|right; eauto].
  destruct b as [c|]; [left; eauto|right; eauto].
Qed.

Lemma bind_raises_l {A B : Type} (m : Hour.M A) (f : A -> Hour.M B) (s : Hour.state) :
  (exists e s1, m s = (Hour.Raise e, s1)) ->
  exists e s1, (m ≫= f) s = (Hour.Raise e, s1).
Proof. intros (e & s1 & H). exists e, s1. apply bind_raise, H. Qed.

Lemma bind_raises_r {A B : Type} (m : Hour.M A) (f : A -> Hour.M B)
    (s s1 : Hour.state) (a : A) :
  m s = (Hour.Ok a, s1) ->
  (exists e s2, f a s1 = (Hour.Raise e, s2)) ->
  exists e s2, (m ≫= f) s = (Hour.Raise e, s2).
Proof. intros H (e & s2 & Hf). exists e, s2. rewrite (bind_ok _ _ _ _ _ H). exact Hf. Qed.

Lemma finally_raises {A : Type} (body : Hour.M A) (cleanup : Hour.M unit)
    (s : Hour.state) :
  (exists e s1, body s = (Hour.Raise e, s1)) ->
  exists e s2, Hour.finally body cleanup s = (Hour.Raise e, s2).
Proof.
  intros (e & s1 & H). unfold Hour.finally. rewrite H.
  destruct (cleanup s1) as [[u|e'] s2]; eauto.
Qed.

(** X16: an iteration of either variant yields data only if all three
    downloads were answered 200 with a complete body, and then the data
    are what the extractions make of exactly these bodies and the disk is
    as before: a row is never built from a failed or partial download. *)
Theorem fetch_hour_ok_only_after_downloads
    (get : string -> Hour.get_result) (uurl vurl turl : string)
    (s s' : Hour.state) (r : Q * Q * gmap string Q)
    (Hok : Hour.fetch_hour_v2 get (uurl, vurl, turl) s = (Hour.Ok r, s') \/
           Hour.fetch_hour_v1 get (uurl, vurl, turl) s = (Hour.Ok r, s')) :
  exists cu cv ct,
    get uurl = Hour.GetResponse 200 (Hour.Complete cu) /\
    get vurl = Hour.GetResponse 200 (Hour.Complete cv) /\
    get turl = Hour.GetResponse 200 (Hour.Complete ct) /\
    extracted cu cv ct = Hour.Ok r /\
    Hour.files s' = Hour.files s.
Proof.
  assert (Hraise : forall e1 e2 s1 s2,
            (Hour.fetch_hour_v2 get (uurl, vurl, turl) s = (Hour.Raise e1, s1)) ->
            (Hour.fetch_hour_v1 get (uurl, vurl, turl) s = (Hour.Raise e2, s2)) ->
            False).
  { intros e1 e2 s1 s2 H1 H2. destruct Hok as [H|H]; congruence. }
  destruct (download_cases get uurl) as [(cu & Hu)|Hd].
  { destruct (download_cases get vurl) as [(cv & Hv)|Hd].
    { destruct (download_cases get turl) as [(ct & Ht)|Hd].
      { exists cu, cv, ct. split; [exact Hu|]. split; [exact Hv|]. split; [exact Ht|].
        rewrite (fetch_hour_v1_run get uurl vurl turl cu cv ct s Hu Hv Ht) in Hok.
        rewrite (fetch_hour_v2_run get uurl vurl turl cu cv ct s Hu Hv Ht) in Hok.
        assert (H : (extracted cu cv ct,
                     Hour.with_files (fun _ => Hour.files s)
                       (after_downloads (Hour.files s) cu cv ct)) = (Hour.Ok r, s'))
          by (destruct Hok; assumption).
        injection H as Hr Hs. split; [exact Hr|]. rewrite <- Hs. reflexivity. }
      exfalso.
      assert (H2 : exists e s2, Hour.fetch_hour_v2 get (uurl, vurl, turl) s
                                = (Hour.Raise e, s2)).
      { unfold Hour.fetch_hour_v2.
        eapply bind_raises_r; [apply download_ok; exact Hu|].
        eapply bind_raises_r; [apply download_ok; exact Hv|].
        apply bind_raises_l, Hd. }
      assert (H1 : exists e s2, Hour.fetch_hour_v1 get (uurl, vurl, turl) s
                                = (Hour.Raise e, s2)).
      { unfold Hour.fetch_hour_v1. apply finally_raises.
        eapply bind_raises_r; [apply download_ok; exact Hu|].
        eapply bind_raises_r; [reflexivity|].
        eapply bind_raises_r; [apply download_ok; exact Hv|].
        eapply bind_raises_r; [reflexivity|].
        apply bind_raises_l, Hd. }
      destruct H2 as (e2 & s2 & H2), H1 as (e1 & s1 & H1). eapply Hraise; eassumption. }
    exfalso.
    assert (H2 : exists e s2, Hour.fetch_hour_v2 get (uurl, vurl, turl) s
                              = (Hour.Raise e, s2)).
    { unfold Hour.fetch_hour_v2.
      eapply bind_raises_r; [apply download_ok; exact Hu|].
      apply bind_raises_l, Hd. }
    assert (H1 : exists e s2, Hour.fetch_hour_v1 get (uurl, vurl, turl) s
                              = (Hour.Raise e, s2)).
    { unfold Hour.fetch_hour_v1. apply finally_raises.
      eapply bind_raises_r; [apply download_ok; exact Hu|].
      eapply bind_raises_r; [reflexivity|].
      apply bind_raises_l, Hd. }
    destruct H2 as (e2 & s2 & H2), H1 as (e1 & s1 & H1). eapply Hraise; eassumption. }
  exfalso.
  assert (H2 : exists e s2, Hour.fetch_hour_v2 get (uurl, vurl, turl) s
                            = (Hour.Raise e, s2)).
  { unfold Hour.fetch_hour_v2. apply bind_raises_l, Hd. }
  assert (H1 : exists e s2, Hour.fetch_hour_v1 get (uurl, vurl, turl) s
                            = (Hour.Raise e, s2)).
  { unfold Hour.fetch_hour_v1. apply finally_raises. apply bind_raises_l, Hd. }
  destruct H2 as (e2 & s2 & H2), H1 as (e1 & s1 & H1). eapply Hraise; eassumption.
Qed.

Lemma fetch_hour_ok_only_after_downloads_witness :
  exists cu, get_all "U" = Hour.GetResponse 200 (Hour.Complete cu).
Proof.
  destruct (Hour.fetch_hour_v2 get_all ("U", "V", "T") (first_iteration ∅))
    as [[r|e] s'] eqn:E.
  - destruct (fetch_hour_ok_only_after_downloads get_all "U" "V" "T"
                (first_iteration ∅) s' r (or_introl E)) as (cu & _ & _ & Hu & _).
    exists cu. exact Hu.
  - exfalso.
    rewrite (fetch_hour_v2_run get_all "U" "V" "T"
               [wind_u_sample] [wind_v_sample] [grid_tie] (first_iteration ∅)
               eq_refl eq_refl eq_refl) in E.
    vm_compute in E. discriminate E.
Defined.

(** ** The clean-up of V1 once its names are bound *)

Lemma with_files_id (s : Hour.state) : Hour.with_files (fun f => f) s = s.
Proof. destruct s. reflexivity. Qed.

Lemma guarded_remove (p : string) (s : Hour.state) :
  (e ← Hour.exists_ p; if e : bool then Hour.remove p else mret tt) s
  = (Hour.Ok tt, Hour.with_files (delete p) s).
Proof.
  unfold mbind, Hour.M_bind, Hour.exists_, Hour.remove.
  destruct (bool_decide (p ∈ dom (Hour.files s))) eqn:E; [rewrite E; reflexivity|].
  apply bool_decide_eq_false in E. apply not_elem_of_dom in E.
  unfold mret, Hour.M_ret, Hour.with_files. rewrite (delete_id _ _ E).
  destruct s. reflexivity.
Qed.

Lemma finally_v1_bound {A : Type} (body : Hour.M A) (s s1 : Hour.state)
    (r : Hour.result A) (x y z : string) :
  body s = (r, s1) ->
  Hour.uf s1 = Some x -> Hour.vf s1 = Some y -> Hour.tf s1 = Some z ->
  Hour.finally body
    (a ← Hour.var Hour.uf; b ← Hour.var Hour.vf; c ← Hour.var Hour.tf;
     Hour.for_each [a; b; c]
       (fun f => e ← Hour.exists_ f; if e : bool then Hour.remove f else mret tt)) s
  = (r, Hour.with_files (fun f => delete z (delete y (delete x f))) s1).
Proof.
  intros Hbody Hx Hy Hz. unfold Hour.finally. rewrite Hbody.
  erewrite bind_ok by (apply var_ok; exact Hx).
  erewrite bind_ok by (apply var_ok; exact Hy).
  erewrite bind_ok by (apply var_ok; exact Hz).
  simpl Hour.for_each.
  erewrite bind_ok by apply guarded_remove.
  erewrite bind_ok by apply guarded_remove.
  erewrite bind_ok by apply guarded_remove.
  reflexivity.
Qed.

Lemma download_unbroken (get : string -> Hour.get_result) (url : string) :
  get url <> Hour.GetResponse 200 Hour.Broken ->
  (exists c, get url = Hour.GetResponse 200 (Hour.Complete c)) \/
  (exists e, (e = Hour.RuntimeError \/ e = Hour.RequestException) /\
             forall s, Hour.download get url s = (Hour.Raise e, s)).
Proof.
  intros Hb. unfold Hour.download. destruct (get url) as [|code b].
  - right. exists Hour.RequestException. split; [tauto|reflexivity].
  - destruct (Z.eqb_spec code 200) as [->|Hne]; simpl.
    + destruct b as [c|]; [left; eauto|congruence].
    + right. exists Hour.RuntimeError. split; [tauto|reflexivity].
Qed.

Lemma extracted_raises (cu cv ct : list Grid.message) (e : Hour.exn) :
  extracted cu cv ct = Hour.Raise e -> e = Hour.ValueError.
Proof.
  unfold extracted. destruct (Grid.extract_wind cu cv); [|congruence].
  destruct (Grid.extract_temps ct); congruence.
Qed.

(** X17: in a later iteration of V1 the names of the previous hour are
    still bound and their files are gone. Then, unless a body breaks off
    while it is read, the iteration leaves the disk as it found it
    whichever download or extraction fails, and the exception that
    leaves the iteration is the one of the failing step: the leak and the
    [UnboundLocalError] of V1 belong to the first iteration only. *)
Theorem v1_later_iterations_release
    (get : string -> Hour.get_result) (uurl vurl turl : string)
    (s : Hour.state) (a0 b0 c0 : string)
    (Huf : Hour.uf s = Some a0) (Hvf : Hour.vf s = Some b0) (Htf : Hour.tf s = Some c0)
    (Ha0 : a0 ∉ dom (Hour.files s)) (Hb0 : b0 ∉ dom (Hour.files s))
    (Hc0 : c0 ∉ dom (Hour.files s))
    (Hwhole : forall url, get url <> Hour.GetResponse 200 Hour.Broken) :
  Hour.files (snd (Hour.fetch_hour_v1 get (uurl, vurl, turl) s)) = Hour.files s /\
  (forall e, fst (Hour.fetch_hour_v1 get (uurl, vurl, turl) s) = Hour.Raise e ->
     e = Hour.RuntimeError \/ e = Hour.RequestException \/ e = Hour.ValueError).
Proof.
  apply not_elem_of_dom in Ha0, Hb0, Hc0.
  set (fs := Hour.files s) in *.
  destruct (download_unbroken get uurl (Hwhole uurl)) as [(cu & Hu)|(e & He & Hd)].
  2:{ unfold Hour.fetch_hour_v1.
      erewrite finally_v1_bound; cycle 1.
      - erewrite bind_raise by apply Hd. reflexivity.
      - exact Huf.
      - exact Hvf.
      - exact Htf.
      - cbn [fst snd Hour.files Hour.with_files]. fold fs.
        rewrite (delete_id _ _ Ha0), (delete_id _ _ Hb0), (delete_id _ _ Hc0).
        split; [reflexivity|]. intros e' [= <-]. tauto. }
  set (t1 := fresh (dom fs)).
  assert (F1 : fs !! t1 = None) by (apply not_elem_of_dom, is_fresh).
  destruct (download_unbroken get vurl (Hwhole vurl)) as [(cv & Hv)|(e & He & Hd)].
  2:{ unfold Hour.fetch_hour_v1.
      erewrite finally_v1_bound; cycle 1.
      - erewrite bind_ok by (apply download_ok; exact Hu).
        erewrite bind_ok by reflexivity.
        erewrite bind_raise by apply Hd. reflexivity.
      - reflexivity.
      - exact Hvf.
      - exact Htf.
      - cbn [fst snd Hour.files Hour.with_files]. fold fs. fold t1.
        rewrite delete_insert_id by exact F1.
        rewrite (delete_id _ _ Hb0), (delete_id _ _ Hc0).
        split; [reflexivity|]. intros e' [= <-]. tauto. }
  set (f1 := <[t1 := cu]> fs).
  set (t2 := fresh (dom f1)).
  assert (F2 : f1 !! t2 = None) by (apply not_elem_of_dom, is_fresh).
  assert (N12 : t1 <> t2).
  { intros E. rewrite <- E in F2. unfold f1 in F2. rewrite lookup_insert_eq in F2.
    discriminate. }
  assert (F2' : fs !! t2 = None).
  { unfold f1 in F2. rewrite lookup_insert_ne in F2 by exact N12. exact F2. }
  destruct (download_unbroken get turl (Hwhole turl)) as [(ct & Ht)|(e & He & Hd)].
  2:{ unfold Hour.fetch_hour_v1.
      erewrite finally_v1_bound; cycle 1.
      - erewrite bind_ok by (apply download_ok; exact Hu).
        erewrite bind_ok by reflexivity.
        erewrite bind_ok by (apply download_ok; exact Hv).
        erewrite bind_ok by reflexivity.
        erewrite bind_raise by apply Hd. reflexivity.
      - reflexivity.
      - reflexivity.
      - exact Htf.
      - cbn [fst snd Hour.files Hour.with_files]. fold fs. fold t1. fold f1. fold t2.
        unfold f1. rewrite delete_insert_ne by exact N12.
        rewrite (delete_insert_id fs t1 cu F1).
        rewrite (delete_insert_id fs t2 cv F2').
        rewrite (delete_id _ _ Hc0).
        split; [reflexivity|]. intros e' [= <-]. tauto. }
  rewrite (fetch_hour_v1_run get uurl vurl turl cu cv ct s Hu Hv Ht).
  cbn [fst snd Hour.files Hour.with_files]. split; [reflexivity|].
  intros e He. right. right. exact (extracted_raises _ _ _ _ He).
Qed.

Lemma v1_later_iterations_release_witness :
  Hour.files (snd (Hour.fetch_hour_v1 (get_v_missing []) ("U", "V", "T")
                     (later_iteration ∅))) = ∅.
Proof.
  assert (Hno : forall p : string, p ∉ dom (∅ : gmap string (list Grid.message))).
  { intros p. rewrite dom_empty_L. apply not_elem_of_empty. }
  assert (Hwhole : forall url, get_v_missing [] url <> Hour.GetResponse 200 Hour.Broken).
  { intros url. unfold get_v_missing. destruct (String.eqb url "U"); discriminate. }
  exact (proj1 (v1_later_iterations_release (get_v_missing []) "U" "V" "T"
                  (later_iteration ∅) "a" "b" "c" eq_refl eq_refl eq_refl
                  (Hno "a") (Hno "b") (Hno "c") Hwhole)).
Defined.

(** ** The forecast text of the marine section *)

Lemma startswith_nil (s : string) : Py.startswith s "" = true.
Proof. destruct s; reflexivity. Qed.

Lemma contains_iff (s sub : string) :
  Py.contains s sub = true <-> exists a c, s = a +:+ sub +:+ c.
Proof.
  induction s as [|x s IH].
  - cbn [Py.contains]. rewrite orb_false_r, startswith_iff. split.
    + intros [c H]. exists "", c. exact H.
    + intros (a & c & H). destruct a; [exists c; exact H|discriminate].
  - cbn [Py.contains]. rewrite orb_true_iff, startswith_iff, IH. split.
    + intros [[c H]|(a & c & H)].
      * exists "", c. exact H.
      * exists (String x a), c. rewrite H. reflexivity.
    + intros (a & c & H). destruct a as [|y a].
      * left. exists c. exact H.
      * right. rewrite sapp_cons in H. injection H as _ H. exists a, c. exact H.
Qed.

Lemma contains_inside (a b c sub : string) :
  Py.contains (a +:+ b +:+ c) sub = false -> Py.contains b sub = false.
Proof.
  intros H. destruct (Py.contains b sub) eqn:E; [|reflexivity].
  apply contains_iff in E as (a' & c' & ->).
  assert (Hc : Py.contains (a +:+ (a' +:+ sub +:+ c') +:+ c) sub = true).
  { apply contains_iff. exists (a +:+ a'), (c' +:+ c). rewrite !sapp_assoc. reflexivity. }
  congruence.
Qed.

Lemma before_prefix (s sep : string) : exists r, s = Py.before s sep +:+ r.
Proof.
  induction s as [|x s (r & IH)]; cbn [Py.before].
  - exists "". destruct (Py.startswith "" sep); reflexivity.
  - destruct (Py.startswith (String x s) sep).
    + exists (String x s). reflexivity.
    + exists r. rewrite sapp_cons, <- IH. reflexivity.
Qed.

Lemma before_no_sep (s sep : string) :
  sep <> "" -> Py.contains (Py.before s sep) sep = false.
Proof.
  intros Hsep. induction s as [|x s IH]; cbn [Py.before].
  - destruct sep; [congruence|]. reflexivity.
  - destruct (Py.startswith (String x s) sep) eqn:E.
    + destruct sep; [congruence|]. reflexivity.
    + cbn [Py.contains]. rewrite IH, orb_false_r.
      destruct (Py.startswith (String x (Py.before s sep)) sep) eqn:E'; [|reflexivity].
      apply startswith_iff in E' as [r' H'].
      destruct (before_prefix s sep) as [r Hr].
      assert (Hs : Py.startswith (String x s) sep = true).
      { apply startswith_iff. exists (r' +:+ r).
        rewrite <- sapp_assoc, <- H', sapp_cons, <- Hr. reflexivity. }
      congruence.
Qed.

Lemma lstrip_suffix (s : string) : exists a, s = a +:+ Py.lstrip s.
Proof.
  induction s as [|x s (a & IH)]; cbn [Py.lstrip].
  - exists "". reflexivity.
  - destruct (Py.is_space x).
    + exists (String x a). rewrite sapp_cons, <- IH. reflexivity.
    + exists "". reflexivity.
Qed.

Lemma rstrip_prefix (s : string) : exists c, s = Py.rstrip s +:+ c.
Proof.
  induction s as [|x s (c & IH)]; cbn [Py.rstrip].
  - exists "". reflexivity.
  - destruct (Py.rstrip s) as [|y r] eqn:E.
    + destruct (Py.is_space x).
      * exists (String x s). reflexivity.
      * exists s. reflexivity.
    + exists c. rewrite sapp_cons, <- IH. reflexivity.
Qed.

Lemma strip_inside (s : string) : exists a c, s = a +:+ Py.strip s +:+ c.
Proof.
  unfold Py.strip. destruct (lstrip_suffix s) as [a Ha].
  destruct (rstrip_prefix (Py.lstrip s)) as [c Hc].
  exists a, c. rewrite <- Hc. exact Ha.
Qed.

Lemma lstrip_head (s : string) :
  Py.lstrip s = "" \/ exists x r, Py.lstrip s = String x r /\ Py.is_space x = false.
Proof.
  induction s as [|x s IH]; cbn [Py.lstrip]; [left; reflexivity|].
  destruct (Py.is_space x) eqn:E; [exact IH|]. right. exists x, s. split; [reflexivity|exact E].
Qed.

Lemma rstrip_head (x : ascii) (s : string) :
  Py.is_space x = false -> exists r, Py.rstrip (String x s) = String x r.
Proof.
  intros E. cbn [Py.rstrip]. rewrite E. destruct (Py.rstrip s); eauto.
Qed.

Lemma rstrip_rstrip (s : string) : Py.rstrip (Py.rstrip s) = Py.rstrip s.
Proof.
  induction s as [|x s IH]; [reflexivity|]. cbn [Py.rstrip].
  destruct (Py.rstrip s) as [|y r] eqn:E.
  - destruct (Py.is_space x) eqn:Ex; [reflexivity|].
    cbn [Py.rstrip]. rewrite Ex. reflexivity.
  - cbn [Py.rstrip] in *. rewrite IH. reflexivity.
Qed.

Lemma strip_strip (s : string) : Py.strip (Py.strip s) = Py.strip s.
Proof.
  unfold Py.strip.
  destruct (lstrip_head s) as [E|(x & r & E & Hx)]; rewrite E.
  - reflexivity.
  - destruct (rstrip_head x r Hx) as [r' Hr]. rewrite Hr.
    cbn [Py.lstrip]. rewrite Hx, <- Hr. apply rstrip_rstrip.
Qed.

Lemma parse_entries_ok
    (strptime : string -> string -> option Run.datetime)
    (strftime : Run.datetime -> string -> string)
    (region_filter : string) (entries : list Marine.entry) :
  forall acc res,
    Marine.parse_entries strptime strftime region_filter entries acc = inr res ->
    Forall (forecast_ok region_filter) acc -> Forall (forecast_ok region_filter) res.
Proof.
  induction entries as [|e entries IH]; intros acc res H Hacc.
  - simpl in H. injection H as <-. exact Hacc.
  - cbn [Marine.parse_entries] in H.
    destruct (Marine.text_or_empty (Marine.title e)) as [x|t]; [discriminate|].
    destruct (Py.startswith (Py.lower t) "extended forecast") eqn:Ex;
      [exact (IH _ _ H Hacc)|].
    destruct (Py.contains t region_filter) eqn:Er; [|exact (IH _ _ H Hacc)].
    destruct (Marine.text_or_empty (Marine.summary e)) as [x|sm]; [discriminate|].
    destruct (Marine.text_or_empty (Marine.published e)) as [x|p]; [discriminate|].
    cbv zeta in H. apply (IH _ _ H). apply Forall_app. split; [exact Hacc|].
    constructor; [|constructor]. unfold forecast_ok. cbn [Marine.Title Marine.Forecast].
    split; [exact Ex|]. split; [exact Er|]. split; [|apply strip_strip].
    destruct (strip_inside (Py.before sm "<br/>")) as (a & c & Hs).
    apply (contains_inside a _ c). rewrite <- Hs. apply before_no_sep. discriminate.
Qed.

(** X18: whatever the feed holds and whether or not it can be read, every
    forecast [get_marine_forecast] returns has a title that does not start
    with "extended forecast" and contains the region, and a text without
    a "<br/>" and without white space at either end. *)
Theorem marine_forecasts_well_formed
    (strptime : string -> string -> option Run.datetime)
    (strftime : Run.datetime -> string -> string)
    (exn_str : Marine.exn -> string)
    (f : Marine.feed) (region_filter : string) :
  Forall (fun fc =>
            Py.startswith (Py.lower (Marine.Title fc)) "extended forecast" = false /\
            Py.contains (Marine.Title fc) region_filter = true /\
            Py.contains (Marine.Forecast fc) "<br/>" = false /\
            Py.strip (Marine.Forecast fc) = Marine.Forecast fc)
    (fst (Marine.get_marine_forecast strptime strftime exn_str f region_filter)).
Proof.
  change (Forall (forecast_ok region_filter)
            (fst (Marine.get_marine_forecast strptime strftime exn_str f region_filter))).
  unfold Marine.get_marine_forecast.
  destruct (Marine.get_marine_forecast_body strptime strftime f region_filter)
    as [e|res] eqn:E; [constructor|].
  cbn [fst]. unfold Marine.get_marine_forecast_body in E.
  destruct f as [|status doc]; [discriminate|].
  destruct ((400 <=? status) && (status <? 600))%Z; [discriminate|].
  destruct doc as [entries|]; [|discriminate].
  apply (parse_entries_ok _ _ _ _ _ _ E). constructor.
Qed.

(** ** Highlighting only adds colour codes *)

Lemma shown_app (a x : string) (b : bool) :
  shown_from b (a +:+ x) = shown_from b a +:+ shown_from (state_after b a) x.
Proof.
  revert b. induction a as [|c a IH]; intros b; rewrite ?sapp_nil_l, ?sapp_cons;
    [reflexivity|].
  cbn [shown_from state_after]. rewrite IH.
  destruct (b || Ascii.eqb c (ascii_of_N 27)); reflexivity.
Qed.

Lemma state_app (a x : string) (b : bool) :
  state_after b (a +:+ x) = state_after (state_after b a) x.
Proof.
  revert b. induction a as [|c a IH]; intros b; rewrite ?sapp_nil_l, ?sapp_cons;
    [reflexivity|apply IH].
Qed.

Lemma tidy_app (a x : string) (b : bool) :
  tidy_from b (a +:+ x) = tidy_from b a && tidy_from (state_after b a) x.
Proof.
  revert b. induction a as [|c a IH]; intros b; rewrite ?sapp_nil_l, ?sapp_cons;
    [reflexivity|].
  cbn [tidy_from state_after]. rewrite IH, andb_assoc. reflexivity.
Qed.

Lemma plain_start (b : bool) (c : ascii) (x : string) :
  tidy_from b (String c x) = true -> plain_char c = true -> b = false.
Proof.
  cbn [tidy_from]. unfold plain_char. destruct b; [|reflexivity].
  destruct (code_char c); simpl; discriminate.
Qed.

Lemma plain_end (b : bool) (m0 : string) (z : ascii) :
  tidy_from b (m0 +:+ String z "") = true -> plain_char z = true ->
  state_after b (m0 +:+ String z "") = false.
Proof.
  rewrite tidy_app, state_app. intros H Hz. apply andb_true_iff in H as [_ H].
  rewrite (plain_start _ _ _ H Hz). cbn [state_after code_step].
  unfold plain_char in Hz. apply andb_true_iff in Hz as [_ Hz].
  apply negb_true_iff in Hz. exact Hz.
Qed.

(** Wrapping spans that start and end with plain characters in codes
    changes nothing of what is shown. *)
Lemma marked_shown (P : string -> Prop) (o cl : string) :
  (forall m, P m ->
     (exists c m', m = String c m' /\ plain_char c = true) /\
     (exists m0 z, m = m0 +:+ String z "" /\ plain_char z = true)) ->
  shown_from false o = "" -> state_after false o = false -> tidy_from false o = true ->
  shown_from false cl = "" -> state_after false cl = false -> tidy_from false cl = true ->
  forall s t, Marked P o cl s t ->
  forall b, tidy_from b s = true ->
    shown_from b t = shown_from b s /\ tidy_from b t = true.
Proof.
  intros Hspan So Ao To Sc Ac Tc s t HM.
  induction HM as [|c s t Hno HM IH|m s t Hm Hne Hmin HM IH]; intros b Ht.
  - split; [reflexivity|exact Ht].
  - cbn [tidy_from] in Ht. apply andb_true_iff in Ht as [Hc Ht].
    destruct (IH _ Ht) as [IH1 IH2]. cbn [shown_from tidy_from].
    rewrite IH1, IH2, Hc. split; reflexivity.
  - destruct (Hspan m Hm) as [(c & m' & Em & Hc) (m0 & z & Ez & Hz)].
    assert (Hb : b = false).
    { rewrite Em, sapp_cons in Ht. exact (plain_start _ _ _ Ht Hc). }
    subst b. rewrite tidy_app in Ht. apply andb_true_iff in Ht as [Tm Ts].
    assert (Am : state_after false m = false).
    { rewrite Ez. apply plain_end; [rewrite <- Ez; exact Tm|exact Hz]. }
    rewrite Am in Ts. destruct (IH _ Ts) as [IH1 IH2].
    rewrite !shown_app, !tidy_app, ?state_app.
    rewrite So, Ao, To, Am, Sc, Ac, Tc, Tm, IH1, IH2.
    rewrite !sapp_nil_l. split; reflexivity.
Qed.

Lemma lower_plain (c : ascii) :
  plain_char (Py.lower_char c) = true -> plain_char c = true.
Proof.
  destruct c as [[|] [|] [|] [|] [|] [|] [|] [|]]; vm_compute; intros H;
    first [reflexivity | discriminate H].
Qed.

Lemma lower_app_inv (s l1 l2 : string) :
  Py.lower s = l1 +:+ l2 ->
  exists s1 s2, s = s1 +:+ s2 /\ Py.lower s1 = l1 /\ Py.lower s2 = l2.
Proof.
  revert s. induction l1 as [|y l1 IH]; intros s H.
  - exists "", s. repeat split. exact H.
  - destruct s as [|x s]; [discriminate|]. rewrite sapp_cons in H.
    cbn [Py.lower] in H. injection H as Hx H.
    destruct (IH s H) as (s1 & s2 & -> & H1 & H2).
    exists (String x s1), s2. cbn [Py.lower]. rewrite Hx, H1. repeat split. exact H2.
Qed.

(** A phrase starts and ends with plain characters when its two literals
    do. *)
Lemma phrase_plain_ends (y : ascii) (l1 l2 : string) (z : ascii) (m : string) :
  plain_char y = true -> plain_char z = true ->
  is_phrase (String y l1) (l2 +:+ String z "") m ->
  (exists c m', m = String c m' /\ plain_char c = true) /\
  (exists m0 c, m = m0 +:+ String c "" /\ plain_char c = true).
Proof.
  intros Hy Hz (h & mid & t & -> & Hh & Ht & _). split.
  - destruct h as [|c h]; [discriminate|]. cbn [Py.lower] in Hh. injection Hh as Hc _.
    exists c, (h +:+ mid +:+ t). split; [rewrite !sapp_cons; reflexivity|].
    apply lower_plain. rewrite Hc. exact Hy.
  - destruct (lower_app_inv _ _ _ Ht) as (t1 & t2 & -> & _ & H2).
    destruct t2 as [|c [|d t2]]; try discriminate.
    cbn [Py.lower] in H2. injection H2 as Hc.
    exists (h +:+ mid +:+ t1), c. split; [rewrite !sapp_assoc; reflexivity|].
    apply lower_plain. rewrite Hc. exact Hz.
Qed.

Lemma no_escape_tidy (s : string) :
  Py.contains s Marine.ESC = false -> tidy_from false s = true /\ shown s = s.
Proof.
  unfold shown. induction s as [|c s IH]; [split; reflexivity|].
  cbn [Py.contains]. intros H. apply orb_false_iff in H as [Hc Hs].
  unfold Marine.ESC in Hc. cbn [Py.startswith] in Hc.
  rewrite startswith_nil, andb_true_r in Hc.
  rewrite Ascii.eqb_sym in Hc.
  destruct (IH Hs) as [IH1 IH2].
  cbn [tidy_from shown_from code_step]. rewrite Hc. cbn [orb andb].
  rewrite IH1, IH2. split; reflexivity.
Qed.

(** X19: highlighting only adds colour codes: for a forecast text without
    an escape character, what a terminal shows of the highlighted text,
    the codes being interpreted and not displayed, is the forecast text
    itself, character by character. *)
Theorem highlight_shows_text (text : string)
    (Hplain : Py.contains text Marine.ESC = false) :
  shown (Marine.highlight text) = text.
Proof.
  destruct (no_escape_tidy text Hplain) as [T0 S0].
  assert (H1 : shown_from false (Marine.highlight_warning text) = shown_from false text /\
               tidy_from false (Marine.highlight_warning text) = true).
  { apply (marked_shown (eq "STRONG WIND WARNING IN EFFECT") Marine.H_RED Marine.H_RESET);
      try reflexivity; [|apply replace_marked; discriminate|exact T0].
    intros m <-. split.
    - eexists _, _. split; reflexivity.
    - exists "STRONG WIND WARNING IN EFFEC", "T"%char. split; reflexivity. }
  destruct H1 as [S1 T1].
  assert (H2 : shown_from false (Marine.highlight_inflow (Marine.highlight_warning text))
               = shown_from false (Marine.highlight_warning text) /\
               tidy_from false (Marine.highlight_inflow (Marine.highlight_warning text))
               = true).
  { apply (marked_shown (is_phrase "inflow" "northern sections")
             Marine.H_GREEN Marine.H_RESET);
      try reflexivity; [|apply re_sub_marked; discriminate|exact T1].
    intros m Hm.
    apply (phrase_plain_ends "i" "nflow" "northern section" "s" m); try reflexivity.
    exact Hm. }
  destruct H2 as [S2 T2].
  assert (H3 : shown_from false (Marine.highlight text)
               = shown_from false (Marine.highlight_inflow (Marine.highlight_warning text))).
  { apply (marked_shown (is_phrase "outflow" "southern sections")
             Marine.H_BLUE Marine.H_RESET);
      try reflexivity; [|apply re_sub_marked; discriminate|exact T2].
    intros m Hm.
    apply (phrase_plain_ends "o" "utflow" "southern section" "s" m); try reflexivity.
    exact Hm. }
  unfold shown. rewrite H3, S2, S1. exact S0.
Qed.

Lemma highlight_shows_text_witness :
  Py.contains "Outflow winds in southern sections" Marine.ESC = false /\
  shown (Marine.highlight "Outflow winds in southern sections")
  = "Outflow winds in southern sections".
Proof.
  assert (H : Py.contains "Outflow winds in southern sections" Marine.ESC = false)
    by reflexivity.
  split; [exact H|]. exact (highlight_shows_text _ H).
Defined.

(** ** The forecast hours of the report *)

Lemma range_members (start step : Z) (n : nat) (fh : Z) :
  In fh (map (fun i => (start + Z.of_nat i * step)%Z) (seq 0 n)) <->
  exists i, (0 <= i < Z.of_nat n)%Z /\ fh = (start + i * step)%Z.
Proof.
  rewrite in_map_iff. split.
  - intros (i & <- & Hi). apply in_seq in Hi. exists (Z.of_nat i). split; [lia|reflexivity].
  - intros (i & Hi & ->). exists (Z.to_nat i). split.
    + rewrite Z2Nat.id by lia. reflexivity.
    + apply in_seq. lia.
Qed.

(** X20: the forecast hours [range(start, end+1, step)] of [main]. A
    zero step raises. With a positive step the hours are those from
    [start] to [end], both included, that lie a multiple of [step] after
    [start]. With a negative step the [+1] works the other way: the
    hours run down from [start] and stop before [end + 1], so [end]
    itself is never among them. *)
Theorem hours_of_the_report (start end_ step : Z) :
  (step = 0%Z -> Report.hours start end_ step = None) /\
  ((0 < step)%Z ->
   exists l, Report.hours start end_ step = Some l /\
     forall fh, In fh l <->
       (start <= fh <= end_)%Z /\ ((fh - start) mod step = 0)%Z) /\
  ((step < 0)%Z ->
   exists l, Report.hours start end_ step = Some l /\
     forall fh, In fh l <->
       (end_ + 1 < fh <= start)%Z /\ ((start - fh) mod (- step) = 0)%Z).
Proof.
  unfold Report.hours, Report.range. split; [|split].
  - intros ->. reflexivity.
  - intros Hs. destruct (Z.eqb_spec step 0) as [|_]; [lia|].
    destruct (Z.ltb_spec 0 step) as [_|]; [|lia].
    eexists. split; [reflexivity|]. intros fh. rewrite range_members.
    destruct (Z.ltb_spec start (end_ + 1)) as [Hlt|Hge].
    + assert (Hq : (0 <= (end_ + 1 - start - 1) / step)%Z)
        by (apply Z.div_pos; lia).
      rewrite Z2Nat.id by lia. split.
      * intros (i & Hi & ->). split.
        -- assert (i * step <= end_ + 1 - start - 1)%Z; [|lia].
           assert (Hi' : (i <= (end_ + 1 - start - 1) / step)%Z) by lia.
           pose proof (Z.mul_div_le (end_ + 1 - start - 1) step Hs). nia.
        -- replace (start + i * step - start)%Z with (i * step)%Z by lia.
           apply Z_mod_mult.
      * intros [Hr Hm]. exists ((fh - start) / step)%Z.
        pose proof (Z.div_mod (fh - start) step ltac:(lia)) as Hdm.
        rewrite Hm in Hdm. split; [|lia]. split; [apply Z.div_pos; lia|].
        apply Z.lt_succ_r. apply Z.div_le_mono; lia.
    + simpl. split; [intros (i & Hi & _); lia|]. intros [Hr _]. lia.
  - intros Hs. destruct (Z.eqb_spec step 0) as [|_]; [lia|].
    destruct (Z.ltb_spec 0 step) as [|_]; [lia|].
    eexists. split; [reflexivity|]. intros fh. rewrite range_members.
    destruct (Z.ltb_spec (end_ + 1) start) as [Hlt|Hge].
    + assert (Hq : (0 <= (start - (end_ + 1) - 1) / - step)%Z)
        by (apply Z.div_pos; lia).
      rewrite Z2Nat.id by lia. split.
      * intros (i & Hi & ->). split.
        -- assert (i * - step <= start - (end_ + 1) - 1)%Z; [|lia].
           assert (Hi' : (i <= (start - (end_ + 1) - 1) / - step)%Z) by lia.
           pose proof (Z.mul_div_le (start - (end_ + 1) - 1) (- step) ltac:(lia)). nia.
        -- replace (start - (start + i * step))%Z with (i * - step)%Z by lia.
           apply Z_mod_mult.
      * intros [Hr Hm]. exists ((start - fh) / - step)%Z.
        pose proof (Z.div_mod (start - fh) (- step) ltac:(lia)) as Hdm.
        rewrite Hm in Hdm. split; [|lia]. split; [apply Z.div_pos; lia|].
        apply Z.lt_succ_r. apply Z.div_le_mono; lia.
    + simpl. split; [intros (i & Hi & _); lia|]. intros [Hr _]. lia.
Qed.

(** ** The columns of the report *)

Lemma spaces_length (n : nat) : String.length (Report.spaces n) = n.
Proof.
  unfold Report.spaces. induction n as [|n IH]; [reflexivity|].
  cbn [replicate String.concat]. destruct (replicate n " ") eqn:E.
  - destruct n; [reflexivity|discriminate].
  - rewrite slength_app. simpl String.length. rewrite slength_app in *.
    simpl in *. lia.
Qed.

Lemma rjust_length (w : nat) (s : string) :
  String.length (Report.rjust w s) = Nat.max w (String.length s).
Proof. unfold Report.rjust. rewrite slength_app, spaces_length. lia. Qed.

Lemma ljust_length (w : nat) (s : string) :
  String.length (Report.ljust w s) = Nat.max w (String.length s).
Proof. unfold Report.ljust. rewrite slength_app, spaces_length. lia. Qed.

Lemma time_field_length (e : Thermal.emphasis) (ts_plain : string) :
  String.length (Report.time_field e ts_plain) =
  (Nat.max Report.W_TIME (String.length ts_plain)
   + match e with Thermal.Plain => 0 | _ => 9 end)%nat.
Proof.
  unfold Report.time_field. destruct e; rewrite ?slength_app, ljust_length;
    simpl String.length; lia.
Qed.

Lemma temp_cells_length (fmt1 : R -> string) (cells : list Q) (row : string) :
  (String.length row + (1 + Report.W_TEMP) * length cells
   <= String.length (Report.temp_cells fmt1 row cells))%nat /\
  (Forall (fun t => (String.length (fmt1 (Q2R t)) <= Report.W_TEMP)%nat) cells ->
   String.length (Report.temp_cells fmt1 row cells)
   = (String.length row + (1 + Report.W_TEMP) * length cells)%nat).
Proof.
  unfold Report.temp_cells. revert row.
  induction cells as [|t cells IH]; intros row; cbn [foldl length].
  - split; [lia|intros _; lia].
  - destruct (IH (row +:+ " " +:+ Report.rjust Report.W_TEMP (fmt1 (Q2R t))))
      as [IH1 IH2].
    rewrite !slength_app, rjust_length in IH1, IH2. simpl String.length in IH1, IH2.
    split; [lia|]. intros HF. inversion HF as [|? ? Ht HF']; subst.
    rewrite (IH2 HF'). lia.
Qed.

Lemma lookup_all_cells (temps : gmap string Q) (ks : list string) :
  (forall l, In l ks -> is_Some (temps !! l)) ->
  exists cells, Thermal.lookup_all temps ks = Some cells /\
    length cells = length ks /\
    Forall (fun t => exists l, temps !! l = Some t) cells.
Proof.
  unfold Thermal.lookup_all. induction ks as [|k ks IH]; intros H.
  - exists []. repeat split. constructor.
  - destruct (H k) as [v Hv]; [left; reflexivity|].
    destruct IH as (vs & Hvs & Hlen & HF); [intros l Hl; apply H; right; exact Hl|].
    exists (v :: vs). split; [|split].
    + cbn [mapM]. rewrite Hv. change (Some v ≫= ?f) with (f v). cbv beta.
      rewrite Hvs. reflexivity.
    + simpl. congruence.
    + constructor; [exists k; exact Hv|exact HF].
Qed.

Lemma compass_point_short (p : string) :
  In p Wind.COMPASS_POINTS -> (String.length p <= Report.W_DIR)%nat.
Proof.
  intros H.
  assert (HF : Forall (fun p => (String.length p <= Report.W_DIR)%nat)
                 Wind.COMPASS_POINTS).
  { unfold Report.W_DIR. repeat constructor; simpl; lia. }
  rewrite Forall_forall in HF. apply HF. apply list_elem_of_In. exact H.
Qed.

(** X21: the rows line up with the header. The header has 81 characters
    and so has the rule; when the temperatures carry the seven labels, a
    row of either variant is never shorter than the header plus its colour
    codes, and it has exactly that length when the time takes at most 10
    characters and every formatted number fits its column (the compass
    point of V2 always fits). *)
Theorem rows_line_up
    (fmt1 fmt0 : R -> string) (ts_plain : string) (u v : Q) (temps : gmap string Q)
    (Hkeys : forall l, In l labels -> is_Some (temps !! l))
    (Hts : (String.length ts_plain <= Report.W_TIME)%nat)
    (Hspd : (String.length (fmt1 (Wind.speed_kt (Q2R u) (Q2R v))) <= Report.W_SPEED)%nat)
    (Hdir : (String.length (fmt0 (Wind.dir_met (Q2R u) (Q2R v))) <= Report.W_DIR)%nat)
    (Htemps : forall l t, temps !! l = Some t ->
                (String.length (fmt1 (Q2R t)) <= Report.W_TEMP)%nat) :
  String.length Report.hdr = 81%nat /\
  String.length Report.separator = 81%nat /\
  exists e1 e2 r1 r2,
    Thermal.highlight_v1 temps = Some e1 /\
    Thermal.highlight_v2 temps = Some e2 /\
    Report.row_v1 fmt1 fmt0 ts_plain u v temps = Some r1 /\
    Report.row_v2 fmt1 ts_plain u v temps = Some r2 /\
    String.length r1
      = (String.length Report.hdr + match e1 with Thermal.Plain => 0 | _ => 9 end)%nat /\
    String.length r2
      = (String.length Report.hdr + match e2 with Thermal.Plain => 0 | _ => 9 end)%nat.
Proof.
  assert (Hhdr : String.length Report.hdr = 81%nat) by reflexivity.
  split; [exact Hhdr|]. split; [reflexivity|].
  destruct (Hkeys "Furry") as [t1 H1]; [simpl; tauto|].
  destruct (Hkeys "Brit") as [t2 H2]; [simpl; tauto|].
  destruct (Hkeys "7mesh") as [t3 H3]; [simpl; tauto|].
  destruct (Hkeys "Cheak") as [t4 H4]; [simpl; tauto|].
  destruct (Hkeys "Whis") as [t5 H5]; [simpl; tauto|].
  destruct (Hkeys "Pemb") as [t6 H6]; [simpl; tauto|].
  destruct (Hkeys "Lill") as [t7 H7]; [simpl; tauto|].
  destruct (highlight_variants_agree temps t1 t2 t3 t4 t5 t6 t7 H1 H2 H3 H4 H5 H6 H7)
    as (e1 & e2 & He1 & He2 & _).
  destruct (lookup_all_cells temps labels Hkeys) as (cells & Hcells & Hlen & HF).
  assert (HF' : Forall (fun t => (String.length (fmt1 (Q2R t)) <= Report.W_TEMP)%nat) cells).
  { eapply Forall_impl; [exact HF|]. intros t [l Hl]. exact (Htemps l t Hl). }
  destruct (deg_to_compass_defined (Wind.dir_met (Q2R u) (Q2R v))) as (p & Hp & Hin).
  pose proof (compass_point_short p Hin) as Hplen.
  change (length labels) with 7%nat in Hlen.
  exists e1, e2. eexists. eexists.
  split; [exact He1|]. split; [exact He2|].
  unfold Report.row_v1, Report.row_v2, Wind.dir_str. rewrite Hp, He1, He2, Hcells.
  split; [reflexivity|]. split; [reflexivity|].
  rewrite !(proj2 (temp_cells_length fmt1 cells _) HF').
  rewrite !slength_app, !rjust_length, !time_field_length, Hlen, Hhdr.
  unfold Report.W_TIME, Report.W_SPEED, Report.W_DIR, Report.W_TEMP in *.
  simpl String.length. destruct e1, e2; split; lia.
Qed.

Lemma rows_line_up_witness :
  exists r2, Report.row_v2 (fun _ => "10.0") "05:00 PDT" 1 0 temps_rising = Some r2.
Proof.
  assert (Hkeys : forall l, In l labels -> is_Some (temps_rising !! l)).
  { intros l Hl. simpl in Hl.
    destruct Hl as [<-|[<-|[<-|[<-|[<-|[<-|[<-|[]]]]]]]]; vm_compute; eauto. }
  destruct (rows_line_up (fun _ => "10.0") (fun _ => "270") "05:00 PDT" 1 0 temps_rising
              Hkeys ltac:(cbv; lia) ltac:(cbv; lia) ltac:(cbv; lia)
              ltac:(intros; cbv; lia))
    as (_ & _ & e1 & e2 & r1 & r2 & _ & _ & _ & Hr2 & _).
  exists r2. exact Hr2.
Defined.
